(** * bitmap_io: a shallow embedding of the BMP codec of [src/lib.rs],
    [src/bitmap_read.rs] and [src/bitmap_write.rs].

    Conventions of the model.
    - Rust's fixed-width integers are [Z]; a value of type [u8], [u16], [u32]
      or [i32] is a [Z] in the type's range, and every cast [as T] of the
      source is written out with its wrap-around ([as_u8], [as_u32], ...).
    - A byte is a [Z] in [0, 256); a byte buffer ([&[u8]], [Vec<u8>]) is a
      [list Z].
    - A Rust panic (out-of-bounds index, [unwrap] of [None], [panic!],
      [assert!], arithmetic overflow in a debug build) is [None]: fallible
      code returns [option].  A [BitmapResult<T>] that did not panic is
      [Some (inl e)] (an [Err]) or [Some (inr x)] (an [Ok]).
    - Every [while] loop of the source is a [Fixpoint] on a fuel argument;
      each call site passes a fuel that bounds the number of iterations
      (every iteration that does not stop the loop consumes a byte). *)

From Stdlib Require Import ZArith Lia Bool Floats.SpecFloat.
From stdpp Require Import base list.

Open Scope Z_scope.

(** ** Machine integers *)

Definition as_u8 (x : Z) : Z := x mod 2 ^ 8.
Definition as_u16 (x : Z) : Z := x mod 2 ^ 16.
Definition as_u32 (x : Z) : Z := x mod 2 ^ 32.

(** [x as i32] of a [u32]: two's complement reinterpretation. *)
Definition as_i32 (x : Z) : Z :=
  let y := x mod 2 ^ 32 in if y <? 2 ^ 31 then y else y - 2 ^ 32.

(** [x as usize] of an [i32] or unsigned value, on a 64-bit target. *)
Definition as_usize (x : Z) : Z := x mod 2 ^ 64.

(** Checked [usize] arithmetic: a debug build panics on overflow. *)
Definition usize_add (a b : Z) : option Z :=
  if a + b <? 2 ^ 64 then Some (a + b) else None.
Definition usize_mul (a b : Z) : option Z :=
  if a * b <? 2 ^ 64 then Some (a * b) else None.

Definition is_byte (b : Z) : Prop := 0 <= b < 256.

(** ** Pixels ([struct BitmapPixel]) *)

Record BitmapPixel := mkPixel {
  blue  : Z;
  green : Z;
  red   : Z;
  alpha : Z;
}.

Definition pixel_wf (p : BitmapPixel) : Prop :=
  is_byte p.(blue) /\ is_byte p.(green) /\ is_byte p.(red) /\ is_byte p.(alpha).

Definition rgba (r g b a : Z) : BitmapPixel := mkPixel b g r a.
Definition rgb (r g b : Z) : BitmapPixel := rgba r g b 255.
Definition transparent : BitmapPixel := rgba 255 255 255 0.

Definition same_color_as (self other : BitmapPixel) : bool :=
  (self.(red) =? other.(red)) && (self.(green) =? other.(green))
  && (self.(blue) =? other.(blue)).

(** [distance_squared]: the differences are [i32], the sum is cast
    [as u32]. *)
Definition distance_squared (self other : BitmapPixel) : Z :=
  let red_distance := self.(red) - other.(red) in
  let green_distance := self.(green) - other.(green) in
  let blue_distance := self.(blue) - other.(blue) in
  as_u32 (red_distance * red_distance + green_distance * green_distance
          + blue_distance * blue_distance).

Definition BitmapPalette := list BitmapPixel.

(** The [for pixel in palette_slice] loop of [find_closest_by_index]. *)
Fixpoint find_closest_loop (self : BitmapPixel) (palette_slice : list BitmapPixel)
    (current_index result : nat) (result_distance : Z) : nat :=
  match palette_slice with
  | [] => result
  | pixel :: rest =>
      let current_distance := distance_squared self pixel in
      if current_distance <? result_distance
      then find_closest_loop self rest (S current_index) current_index current_distance
      else find_closest_loop self rest (S current_index) result result_distance
  end.

(** [find_closest_by_index]: [palette[0]] panics on an empty palette. *)
Definition find_closest_by_index (self : BitmapPixel) (palette : BitmapPalette)
    : option nat :=
  match palette with
  | [] => None
  | p0 :: palette_slice =>
      Some (find_closest_loop self palette_slice 1 0 (distance_squared self p0))
  end.

(** The squared Euclidean distance over red, green and blue of the spec. *)
Definition rgb_distance_sq (p q : BitmapPixel) : Z :=
  (p.(red) - q.(red)) ^ 2 + (p.(green) - q.(green)) ^ 2 + (p.(blue) - q.(blue)) ^ 2.

(** ** The mask analyzer ([mask_offset_and_shifted]) *)

(** The [while mask & 0x01 == 0] loop; a non-zero [u32] leaves it after at
    most 31 iterations, so a fuel of 32 never runs out. *)
Fixpoint mask_shift_loop (fuel : nat) (mask offset : Z) : Z * Z :=
  match fuel with
  | O => (offset, mask)
  | S fuel' =>
      if Z.land mask 1 =? 0
      then mask_shift_loop fuel' (Z.shiftr mask 1) (offset + 1)
      else (offset, mask)
  end.

Definition mask_offset_and_shifted (mask : Z) : Z * Z :=
  if mask =? 0 then (0, 0) else mask_shift_loop 32 mask 0.

(** ** The bitmap aggregate (headers as records) *)

Record BitmapFileHeader := mkFileHeader {
  magic_number       : Z;
  file_size          : Z;
  reserved1          : Z;
  reserved2          : Z;
  pixel_array_offset : Z;
}.

Record BitmapInfoHeader := mkInfoHeader {
  info_header_size   : Z;
  image_width        : Z;
  image_height       : Z;
  n_planes           : Z;
  bits_per_pixel     : Z;
  compression_type   : Z;
  image_size         : Z;
  pixels_per_meter_x : Z;
  pixels_per_meter_y : Z;
  colors_used        : Z;
  colors_important   : Z;
  red_mask           : Z;
  green_mask         : Z;
  blue_mask          : Z;
  alpha_mask         : Z;
  is_top_down        : bool;
}.

Record Bitmap := mkBitmap {
  file_header : BitmapFileHeader;
  info_header : BitmapInfoHeader;
  palette     : option BitmapPalette;
  image_data  : list BitmapPixel;
}.

(** [Bitmap::color_to_alpha]: the loop over [&mut self.image_data]. *)
Definition color_to_alpha (self : Bitmap) (color : BitmapPixel) : Bitmap :=
  {| file_header := self.(file_header);
     info_header := self.(info_header);
     palette := self.(palette);
     image_data := map (fun pixel =>
                          if same_color_as pixel color
                          then {| blue := pixel.(blue); green := pixel.(green);
                                  red := pixel.(red); alpha := 0 |}
                          else pixel) self.(image_data) |}.

(** ** Channel scaling ([map_zero_based]) in IEEE binary32 *)

(** [f32] is IEEE 754 binary32: 24 bits of precision, maximal exponent 128;
    its operations round to nearest, ties to even. *)
Definition f32 := spec_float.
Definition f32_prec : Z := 24.
Definition f32_emax : Z := 128.

(** [n as f32] for an integer [n]. *)
Definition f32_of_int (n : Z) : f32 := binary_normalize f32_prec f32_emax n 0 false.
Definition f32_div : f32 -> f32 -> f32 := SFdiv f32_prec f32_emax.
Definition f32_mul : f32 -> f32 -> f32 := SFmul f32_prec f32_emax.

(** [x as u8] for a float [x]: truncation toward zero, saturating at 0 and
    255, NaN to 0. *)
Definition f32_as_u8 (x : f32) : Z :=
  match x with
  | S754_zero _ => 0
  | S754_infinity s => if s then 0 else 255
  | S754_nan => 0
  | S754_finite s m e =>
      if s then 0
      else Z.min 255 (if 0 <=? e then Z.pos m * 2 ^ e else Z.pos m / 2 ^ (- e))
  end.

(** [map_zero_based(value: &mut u8, from: u32, to: u32)]: the new value of
    [*value]. *)
Definition map_zero_based (value from to : Z) : Z :=
  if (from =? to) || (from =? 0) then value
  else
    let t := f32_div (f32_of_int value) (f32_of_int from) in
    f32_as_u8 (f32_mul (f32_of_int to) t).

(** The linear rescale of the spec, rounded to nearest (ties up). *)
Definition scale_rounded_spec (v from to : Z) : Z := (2 * v * to + from) / (2 * from).

(** ** The byte walker ([struct BytesWalker]) *)

Record BytesWalker := mkWalker {
  walker_data   : list Z;
  current_index : nat;
}.

Definition walker_new (d : list Z) : BytesWalker := mkWalker d 0.

Definition has_data (w : BytesWalker) : bool :=
  (w.(current_index) <? length w.(walker_data))%nat.

Definition next_u8 (w : BytesWalker) : option (Z * BytesWalker) :=
  b ← w.(walker_data) !! w.(current_index);
  Some (b, mkWalker w.(walker_data) (S w.(current_index))).

(** [self.data[i .. i + n]]: panics when the range leaves the buffer. *)
Definition walker_take (w : BytesWalker) (n : nat) : option (list Z * BytesWalker) :=
  if (w.(current_index) + n <=? length w.(walker_data))%nat
  then Some (take n (drop w.(current_index) w.(walker_data)),
             mkWalker w.(walker_data) (w.(current_index) + n))
  else None.

(** Little-endian value of a list of bytes (the [transmute] of the source,
    on a little-endian host). *)
Fixpoint le_value (bs : list Z) : Z :=
  match bs with
  | [] => 0
  | b :: bs' => b + 256 * le_value bs'
  end.

Definition next_u16 (w : BytesWalker) : option (Z * BytesWalker) :=
  '(bs, w') ← walker_take w 2; Some (le_value bs, w').
Definition next_u32 (w : BytesWalker) : option (Z * BytesWalker) :=
  '(bs, w') ← walker_take w 4; Some (le_value bs, w').
Definition next_i32 (w : BytesWalker) : option (Z * BytesWalker) :=
  '(bs, w') ← walker_take w 4; Some (as_i32 (le_value bs), w').

(** [pad_to_align!(value, alignment)] on unsigned values. *)
Definition pad_to_align_nat (value alignment : nat) : nat :=
  ((alignment - value mod alignment) mod alignment)%nat.

(** [pad_to_align!] on [i32] values: Rust's [%] is the truncated remainder. *)
Definition pad_to_align_i32 (value alignment : Z) : Z :=
  Z.rem (alignment - Z.rem value alignment) alignment.

Definition align_with_u32 (w : BytesWalker) : BytesWalker :=
  mkWalker w.(walker_data) (w.(current_index) + pad_to_align_nat w.(current_index) 4).

(** ** Headers *)

Definition BMP_MAGIC_NUMBER : Z := 19778. (* 0x4d42, "BM" *)
Definition FILE_HEADER_SIZE : Z := 14.

Inductive CompressionType :=
  | Uncompressed | Rle8 | Rle4 | BitFields | Jpeg | Png | CMYK | CmykRle8 | CmykRle4
  | Invalid.

(** The discriminants of the enum ([compression as u32]). *)
Definition compression_code (c : CompressionType) : Z :=
  match c with
  | Uncompressed => 0 | Rle8 => 1 | Rle4 => 2 | BitFields => 3 | Jpeg => 4
  | Png => 5 | CMYK => 11 | CmykRle8 => 12 | CmykRle4 => 13 | Invalid => 14
  end.

(** [impl From<u32> for CompressionType]. *)
Definition compression_from_u32 (num : Z) : CompressionType :=
  if num =? 0 then Uncompressed else if num =? 1 then Rle8
  else if num =? 2 then Rle4 else if num =? 3 then BitFields
  else if num =? 4 then Jpeg else if num =? 5 then Png
  else if num =? 11 then CMYK else if num =? 12 then CmykRle8
  else if num =? 13 then CmykRle4 else Invalid.

Inductive BitmapError :=
  | InvalidBitmap
  | UnsupportedInfoHeaderSize (size : Z)
  | UnsupportedNumberOfPlanes (planes : Z)
  | UnsupportedCompressionType (c : CompressionType)
  | InvalidOperation
  | BitmapIOError.

(** [BitmapResult<T>] that did not panic. *)
Definition BitmapResult (T : Type) : Type := BitmapError + T.

Definition file_header_new (f_size p_offset : Z) : BitmapFileHeader :=
  mkFileHeader BMP_MAGIC_NUMBER f_size 0 0 p_offset.

Definition file_header_validate (h : BitmapFileHeader) : bool :=
  (h.(magic_number) =? BMP_MAGIC_NUMBER) && (h.(reserved1) =? 0) && (h.(reserved2) =? 0).

Definition file_header_from_data (data : list Z) : option BitmapFileHeader :=
  let w := walker_new data in
  '(magic, w) ← next_u16 w;
  '(fsize, w) ← next_u32 w;
  '(r1, w) ← next_u16 w;
  '(r2, w) ← next_u16 w;
  '(poff, w) ← next_u32 w;
  Some (mkFileHeader magic fsize r1 r2 poff).

(** [BitmapInfoHeader::from_data]; [image_height *= -1] overflows (and
    panics) on [i32::MIN]. *)
Definition info_header_from_data (data : list Z) : option BitmapInfoHeader :=
  let w := walker_new data in
  '(hsize, w) ← next_u32 w;
  '(width, w) ← next_i32 w;
  '(height, w) ← next_i32 w;
  '(planes, w) ← next_u16 w;
  '(bpp, w) ← next_u16 w;
  '(ctype, w) ← next_u32 w;
  '(isize, w) ← next_u32 w;
  '(ppmx, w) ← next_i32 w;
  '(ppmy, w) ← next_i32 w;
  '(cused, w) ← next_u32 w;
  '(cimp, w) ← next_u32 w;
  '(height, top_down) ←
    (if height <? 0 then
       (if height =? - 2 ^ 31 then None else Some (- height, true))
     else Some (height, false));
  '(masks, w) ←
    (if 40 <? hsize then
       '(rm, w) ← next_u32 w; '(gm, w) ← next_u32 w;
       '(bm, w) ← next_u32 w; '(am, w) ← next_u32 w;
       Some ((rm, gm, bm, am), w)
     else Some ((0, 0, 0, 0), w));
  let '(rm, gm, bm, am) := masks in
  Some (mkInfoHeader hsize width height planes bpp ctype isize ppmx ppmy cused cimp
          rm gm bm am top_down).

(** [data[lo .. hi]]: panics unless [lo <= hi <= data.len()]. *)
Definition slice (data : list Z) (lo hi : Z) : option (list Z) :=
  if (0 <=? lo) && (lo <=? hi) && (hi <=? Z.of_nat (length data))
  then Some (take (Z.to_nat (hi - lo)) (drop (Z.to_nat lo) data))
  else None.

(** [read_palette]: 4 bytes per entry, alpha [0xff]; a trailing partial
    entry panics. *)
Fixpoint read_palette_loop (fuel : nat) (w : BytesWalker) (result : BitmapPalette)
    : option BitmapPalette :=
  match fuel with
  | O => Some result
  | S fuel' =>
      if has_data w then
        '(b, w) ← next_u8 w; '(g, w) ← next_u8 w; '(r, w) ← next_u8 w;
        '(_, w) ← next_u8 w;
        read_palette_loop fuel' w (result ++ [mkPixel b g r 255])
      else Some result
  end.

Definition read_palette (data : list Z) : option BitmapPalette :=
  read_palette_loop (S (length data)) (walker_new data) [].

(** ** The decoders of [bitmap_read.rs] *)

Definition set_alpha (p : BitmapPixel) (a : Z) : BitmapPixel :=
  mkPixel p.(blue) p.(green) p.(red) a.

Fixpoint read_32_bitfield_loop (fuel : nat) (w : BytesWalker) (result : list BitmapPixel)
    (red_offset green_offset blue_offset alpha_offset alpha_mask : Z)
    : option (list BitmapPixel) :=
  match fuel with
  | O => Some result
  | S fuel' =>
      if has_data w then
        '(pixel_value, w) ← next_u32 w;
        let pixel :=
          mkPixel (as_u8 (Z.land (Z.shiftr pixel_value blue_offset) 255))
                  (as_u8 (Z.land (Z.shiftr pixel_value green_offset) 255))
                  (as_u8 (Z.land (Z.shiftr pixel_value red_offset) 255))
                  (as_u8 (Z.land (Z.shiftr pixel_value alpha_offset) 255)) in
        let pixel := if alpha_mask =? 0 then set_alpha pixel 255 else pixel in
        read_32_bitfield_loop fuel' w (result ++ [pixel])
          red_offset green_offset blue_offset alpha_offset alpha_mask
      else Some result
  end.

Definition read_32_bitfield (w : BytesWalker) (result : list BitmapPixel)
    (red_mask green_mask blue_mask alpha_mask : Z) : option (list BitmapPixel) :=
  let '(red_offset, _) := mask_offset_and_shifted red_mask in
  let '(green_offset, _) := mask_offset_and_shifted green_mask in
  let '(blue_offset, _) := mask_offset_and_shifted blue_mask in
  let '(alpha_offset, _) := mask_offset_and_shifted alpha_mask in
  read_32_bitfield_loop (S (length w.(walker_data))) w result
    red_offset green_offset blue_offset alpha_offset alpha_mask.

Fixpoint read_16_bitfield_loop (fuel : nat) (w : BytesWalker) (column_index : Z)
    (result : list BitmapPixel) (image_width : Z)
    (red_mask green_mask blue_mask alpha_mask : Z)
    (red_offset red_shifted green_offset green_shifted : Z)
    (blue_offset blue_shifted alpha_offset alpha_shifted : Z)
    : option (list BitmapPixel) :=
  match fuel with
  | O => Some result
  | S fuel' =>
      if has_data w then
        let '(w, column_index) :=
          if column_index =? image_width then (align_with_u32 w, 0)
          else (w, column_index) in
        if negb (has_data w) then Some result else
        '(pixel_value, w) ← next_u16 w;
        let b := as_u8 (Z.shiftr (Z.land pixel_value blue_mask) blue_offset) in
        let g := as_u8 (Z.shiftr (Z.land pixel_value green_mask) green_offset) in
        let r := as_u8 (Z.shiftr (Z.land pixel_value red_mask) red_offset) in
        let a := as_u8 (Z.shiftr (Z.land pixel_value alpha_mask) alpha_offset) in
        let r := map_zero_based r red_shifted 255 in
        let g := map_zero_based g green_shifted 255 in
        let b := map_zero_based b blue_shifted 255 in
        let a := map_zero_based a alpha_shifted 255 in
        let a := if alpha_mask =? 0 then 255 else a in
        read_16_bitfield_loop fuel' w (column_index + 1) (result ++ [mkPixel b g r a])
          image_width red_mask green_mask blue_mask alpha_mask
          red_offset red_shifted green_offset green_shifted
          blue_offset blue_shifted alpha_offset alpha_shifted
      else Some result
  end.

Definition read_16_bitfield (w : BytesWalker) (result : list BitmapPixel)
    (image_width red_mask green_mask blue_mask alpha_mask : Z)
    : option (list BitmapPixel) :=
  let '(red_offset, red_shifted) := mask_offset_and_shifted red_mask in
  let '(green_offset, green_shifted) := mask_offset_and_shifted green_mask in
  let '(blue_offset, blue_shifted) := mask_offset_and_shifted blue_mask in
  let '(alpha_offset, alpha_shifted) := mask_offset_and_shifted alpha_mask in
  read_16_bitfield_loop (S (length w.(walker_data))) w 0 result image_width
    red_mask green_mask blue_mask alpha_mask
    red_offset red_shifted green_offset green_shifted
    blue_offset blue_shifted alpha_offset alpha_shifted.

Fixpoint read_32_uncompressed_loop (fuel : nat) (w : BytesWalker)
    (result : list BitmapPixel) : option (list BitmapPixel) :=
  match fuel with
  | O => Some result
  | S fuel' =>
      if has_data w then
        '(b, w) ← next_u8 w; '(g, w) ← next_u8 w; '(r, w) ← next_u8 w;
        '(_, w) ← next_u8 w;
        read_32_uncompressed_loop fuel' w (result ++ [mkPixel b g r 255])
      else Some result
  end.

Definition read_32_uncompressed (w : BytesWalker) (result : list BitmapPixel)
    : option (list BitmapPixel) :=
  read_32_uncompressed_loop (S (length w.(walker_data))) w result.

(** The loop shape shared by [read_24_uncompressed] and
    [read_8_uncompressed]: at the end of a row ([column_index == image_width])
    the walker is aligned to 4 bytes, and the loop stops if no data is left;
    then one pixel is read by [read_pixel]. *)
Fixpoint read_rows_loop (read_pixel : BytesWalker -> option (BitmapPixel * BytesWalker))
    (fuel : nat) (w : BytesWalker) (column_index : Z) (result : list BitmapPixel)
    (image_width : Z) : option (list BitmapPixel) :=
  match fuel with
  | O => Some result
  | S fuel' =>
      if has_data w then
        let body (w : BytesWalker) (column_index : Z) :=
          '(pixel, w) ← read_pixel w;
          read_rows_loop read_pixel fuel' w (column_index + 1) (result ++ [pixel])
            image_width in
        if column_index =? image_width then
          let w := align_with_u32 w in
          if negb (has_data w) then Some result else body w 0
        else body w column_index
      else Some result
  end.

Definition read_bgr (w : BytesWalker) : option (BitmapPixel * BytesWalker) :=
  '(b, w) ← next_u8 w; '(g, w) ← next_u8 w; '(r, w) ← next_u8 w;
  Some (mkPixel b g r 255, w).

Definition read_24_uncompressed (w : BytesWalker) (result : list BitmapPixel)
    (image_width : Z) : option (list BitmapPixel) :=
  read_rows_loop read_bgr (S (length w.(walker_data))) w 0 result image_width.

(** [image_palette[pixel_index]] panics when the index is out of range. *)
Definition read_palette_index (image_palette : BitmapPalette) (w : BytesWalker)
    : option (BitmapPixel * BytesWalker) :=
  '(pixel_index, w) ← next_u8 w;
  pixel ← image_palette !! Z.to_nat pixel_index;
  Some (pixel, w).

Definition read_8_uncompressed (w : BytesWalker) (result : list BitmapPixel)
    (image_width : Z) (image_palette : BitmapPalette) : option (list BitmapPixel) :=
  read_rows_loop (read_palette_index image_palette) (S (length w.(walker_data)))
    w 0 result image_width.

(** Modelled from the spec: [read_16_uncompressed], which
    [interpret_image_data] calls but which is absent from the source.
    Section 4.4 of the spec: "read 2-byte word per pixel as 5-5-5 packed BGR
    (bits 0-4 blue, 5-9 green, 10-14 red); rescale each from 0x1F to 0xFF;
    row-align every image-width pixels; alpha 0xFF". *)
Definition read_555 (w : BytesWalker) : option (BitmapPixel * BytesWalker) :=
  '(pixel_value, w) ← next_u16 w;
  let b := map_zero_based (Z.land pixel_value 31) 31 255 in
  let g := map_zero_based (Z.land (Z.shiftr pixel_value 5) 31) 31 255 in
  let r := map_zero_based (Z.land (Z.shiftr pixel_value 10) 31) 31 255 in
  Some (mkPixel b g r 255, w).

(** Modelled from the spec: see [read_555]. *)
Definition read_16_uncompressed (w : BytesWalker) (result : list BitmapPixel)
    (image_width : Z) : option (list BitmapPixel) :=
  read_rows_loop read_555 (S (length w.(walker_data))) w 0 result image_width.

Fixpoint read_4_uncompressed_loop (fuel : nat) (w : BytesWalker) (column_index : Z)
    (result : list BitmapPixel) (image_width : Z) (image_palette : BitmapPalette)
    : option (list BitmapPixel) :=
  match fuel with
  | O => Some result
  | S fuel' =>
      if has_data w then
        let body (w : BytesWalker) (column_index : Z) :=
          '(pixels_indexes, w) ← next_u8 w;
          let p0_index := Z.shiftr pixels_indexes 4 in
          let p1_index := Z.land pixels_indexes 15 in
          pixel0 ← image_palette !! Z.to_nat p0_index;
          pixel1 ← image_palette !! Z.to_nat p1_index;
          let result := result ++ [pixel0] in
          let column_index := column_index + 1 in
          if column_index <? image_width then
            read_4_uncompressed_loop fuel' w (column_index + 1) (result ++ [pixel1])
              image_width image_palette
          else
            read_4_uncompressed_loop fuel' w column_index result image_width image_palette
        in
        if image_width <=? column_index then
          let w := align_with_u32 w in
          if negb (has_data w) then Some result else body w 0
        else body w column_index
      else Some result
  end.

Definition read_4_uncompressed (w : BytesWalker) (result : list BitmapPixel)
    (image_width : Z) (image_palette : BitmapPalette) : option (list BitmapPixel) :=
  read_4_uncompressed_loop (S (length w.(walker_data))) w 0 result image_width
    image_palette.

(** [append_pixels_from_byte]: [n_bits] pixels from the high bits of
    [byte], [palette[0]] for a clear bit, [palette[1]] for a set bit. *)
Fixpoint append_pixels_loop (palette : BitmapPalette) (n : nat) (byte mask : Z)
    (vec : list BitmapPixel) : option (list BitmapPixel) :=
  match n with
  | O => Some vec
  | S n' =>
      pixel ← (if Z.land byte mask =? 0 then palette !! 0%nat else palette !! 1%nat);
      append_pixels_loop palette n' byte (Z.shiftr mask 1) (vec ++ [pixel])
  end.

Definition append_pixels_from_byte (palette : BitmapPalette) (vec : list BitmapPixel)
    (byte n_bits : Z) : option (list BitmapPixel) :=
  append_pixels_loop palette (Z.to_nat n_bits) byte 128 vec.

(** The [for _ in 0 .. image_width / 8] loop of [read_1_uncompressed]. *)
Fixpoint read_1_full_bytes (image_palette : BitmapPalette) (n : nat) (w : BytesWalker)
    (column_index : Z) (result : list BitmapPixel)
    : option (BytesWalker * Z * list BitmapPixel) :=
  match n with
  | O => Some (w, column_index, result)
  | S n' =>
      '(pixels_byte, w) ← next_u8 w;
      result ← append_pixels_from_byte image_palette result pixels_byte 8;
      read_1_full_bytes image_palette n' w (column_index + 8) result
  end.

(** The [for _ in 0 .. image_height] loop of [read_1_uncompressed]. *)
Fixpoint read_1_rows (rows : nat) (w : BytesWalker) (result : list BitmapPixel)
    (image_width : Z) (image_palette : BitmapPalette) : option (list BitmapPixel) :=
  match rows with
  | O => Some result
  | S rows' =>
      '(w, column_index, result) ←
        read_1_full_bytes image_palette (Z.to_nat (Z.quot image_width 8)) w 0 result;
      let remaining_pixels := image_width - column_index in
      '(w, result) ←
        (if 0 <? remaining_pixels then
           '(pixels_byte, w) ← next_u8 w;
           result ← append_pixels_from_byte image_palette result pixels_byte
                      remaining_pixels;
           Some (w, result)
         else Some (w, result));
      read_1_rows rows' (align_with_u32 w) result image_width image_palette
  end.

Definition read_1_uncompressed (w : BytesWalker) (result : list BitmapPixel)
    (image_width image_height : Z) (image_palette : BitmapPalette)
    : option (list BitmapPixel) :=
  read_1_rows (Z.to_nat image_height) w result image_width image_palette.

(** [interpret_image_data]: every [panic!] and [unwrap] of a missing
    palette is [None]. *)
Definition interpret_image_data (data : list Z) (info_header : BitmapInfoHeader)
    (palette : option BitmapPalette) : option (list BitmapPixel) :=
  let bits_per_pixel := info_header.(bits_per_pixel) in
  let compression_type := info_header.(compression_type) in
  let data_walker := walker_new data in
  if compression_type =? compression_code BitFields then
    if bits_per_pixel =? 32 then
      read_32_bitfield data_walker [] info_header.(red_mask) info_header.(green_mask)
        info_header.(blue_mask) info_header.(alpha_mask)
    else if bits_per_pixel =? 16 then
      read_16_bitfield data_walker [] info_header.(image_width)
        info_header.(red_mask) info_header.(green_mask)
        info_header.(blue_mask) info_header.(alpha_mask)
    else None
  else if compression_type =? compression_code Uncompressed then
    if bits_per_pixel =? 32 then read_32_uncompressed data_walker []
    else if bits_per_pixel =? 24 then
      read_24_uncompressed data_walker [] info_header.(image_width)
    else if bits_per_pixel =? 16 then
      read_16_uncompressed data_walker [] info_header.(image_width)
    else if bits_per_pixel =? 8 then
      pal ← palette; read_8_uncompressed data_walker [] info_header.(image_width) pal
    else if bits_per_pixel =? 4 then
      pal ← palette; read_4_uncompressed data_walker [] info_header.(image_width) pal
    else if bits_per_pixel =? 1 then
      pal ← palette;
      read_1_uncompressed data_walker [] info_header.(image_width)
        info_header.(image_height) pal
    else None
  else None.

(** ** Decoding a whole file ([Bitmap::from_data]) *)

(** [pad_to_align!] on unsigned ([usize], [u32]) values. *)
Definition pad_to_align (value alignment : Z) : Z :=
  (alignment - value mod alignment) mod alignment.

Definition bitmap_from_data (data : list Z) : option (BitmapResult Bitmap) :=
  file_slice ← slice data 0 FILE_HEADER_SIZE;
  f_header ← file_header_from_data file_slice;
  if negb (file_header_validate f_header) then Some (inl InvalidBitmap) else
  info_slice ← slice data FILE_HEADER_SIZE (Z.of_nat (length data));
  info_header ← info_header_from_data info_slice;
  let i_header_size := info_header.(info_header_size) in
  if negb ((i_header_size =? 40) || (i_header_size =? 56))
  then Some (inl (UnsupportedInfoHeaderSize i_header_size)) else
  let compression := compression_from_u32 info_header.(compression_type) in
  match compression with
  | Uncompressed | BitFields =>
    if negb (info_header.(n_planes) =? 1)
    then Some (inl (UnsupportedNumberOfPlanes info_header.(n_planes))) else
    image_size_in_bytes ←
      (if info_header.(compression_type) =? compression_code Uncompressed then
         bits_per_row ← usize_mul (as_usize info_header.(image_width))
                                  info_header.(bits_per_pixel);
         let bits_pad := pad_to_align bits_per_row 8 in
         bits_per_row ← usize_add bits_per_row bits_pad;
         let bytes_per_row := bits_per_row / 8 in
         let bytes_pad := pad_to_align bytes_per_row 4 in
         bytes_per_row ← usize_add bytes_per_row bytes_pad;
         usize_mul bytes_per_row (as_usize info_header.(image_height))
       else Some info_header.(image_size));
    image_palette ←
      (if (info_header.(bits_per_pixel) =? 1) || (info_header.(bits_per_pixel) =? 4)
          || (info_header.(bits_per_pixel) =? 8) then
         let palette_offset := FILE_HEADER_SIZE + info_header.(info_header_size) in
         palette_data ← slice data palette_offset f_header.(pixel_array_offset);
         pal ← read_palette palette_data;
         Some (Some pal)
       else Some None);
    image_end ← usize_add f_header.(pixel_array_offset) image_size_in_bytes;
    image_data_slice ← slice data f_header.(pixel_array_offset) image_end;
    image_data ← interpret_image_data image_data_slice info_header image_palette;
    Some (inr (mkBitmap f_header info_header image_palette image_data))
  | _ => Some (inl (UnsupportedCompressionType compression))
  end.

(** ** The encoders of [bitmap_write.rs] *)

(** Checked [i32] and [u32] arithmetic: a debug build panics on overflow. *)
Definition i32_add (a b : Z) : option Z :=
  if (- 2 ^ 31 <=? a + b) && (a + b <? 2 ^ 31) then Some (a + b) else None.
Definition i32_mul (a b : Z) : option Z :=
  if (- 2 ^ 31 <=? a * b) && (a * b <? 2 ^ 31) then Some (a * b) else None.
Definition u32_add (a b : Z) : option Z :=
  if a + b <? 2 ^ 32 then Some (a + b) else None.
Definition u32_mul (a b : Z) : option Z :=
  if a * b <? 2 ^ 32 then Some (a * b) else None.

Definition push_u16 (v : list Z) (value : Z) : list Z :=
  v ++ [as_u8 value; as_u8 (Z.shiftr value 8)].
Definition push_u32 (v : list Z) (value : Z) : list Z :=
  v ++ [as_u8 value; as_u8 (Z.shiftr value 8); as_u8 (Z.shiftr value 16);
        as_u8 (Z.shiftr value 24)].

Definition write_32_bitfield (data : list Z) (pixels : list BitmapPixel)
    (red_mask green_mask blue_mask alpha_mask : Z) : list Z :=
  let '(red_offset, _) := mask_offset_and_shifted red_mask in
  let '(green_offset, _) := mask_offset_and_shifted green_mask in
  let '(blue_offset, _) := mask_offset_and_shifted blue_mask in
  let '(alpha_offset, _) := mask_offset_and_shifted alpha_mask in
  foldl (fun data pixel =>
    let pixel_value :=
      Z.lor (Z.lor (Z.lor (as_u32 (Z.shiftl pixel.(red) red_offset))
                          (as_u32 (Z.shiftl pixel.(green) green_offset)))
                   (as_u32 (Z.shiftl pixel.(blue) blue_offset)))
            (Z.land (as_u32 (Z.shiftl pixel.(alpha) alpha_offset)) alpha_mask) in
    push_u32 data pixel_value) data pixels.

(** One row of a row-padded encoder: [image_width] times
    [pixel_iter.next().unwrap()] (a panic when the pixels run out), each
    pixel encoded by [encode]. *)
Fixpoint write_row (encode : BitmapPixel -> option (list Z)) (n : nat) (data : list Z)
    (pixel_iter : list BitmapPixel) : option (list Z * list BitmapPixel) :=
  match n with
  | O => Some (data, pixel_iter)
  | S n' =>
      match pixel_iter with
      | [] => None
      | pixel :: pixel_iter' =>
          bytes ← encode pixel;
          write_row encode n' (data ++ bytes) pixel_iter'
      end
  end.

(** [for _ in 0 .. image_height { <row>; for _ in 0 .. n_padding_bytes
    { data.push(0x00) } }]. *)
Fixpoint write_rows (encode : BitmapPixel -> option (list Z)) (rows : nat)
    (image_width n_padding_bytes : Z) (data : list Z) (pixel_iter : list BitmapPixel)
    : option (list Z * list BitmapPixel) :=
  match rows with
  | O => Some (data, pixel_iter)
  | S rows' =>
      '(data, pixel_iter) ← write_row encode (Z.to_nat image_width) data pixel_iter;
      write_rows encode rows' image_width n_padding_bytes
        (data ++ repeat 0 (Z.to_nat n_padding_bytes)) pixel_iter
  end.

Definition encode_16_bitfield
    (red_offset red_shifted green_offset green_shifted : Z)
    (blue_offset blue_shifted alpha_offset alpha_shifted alpha_mask : Z)
    (pixel : BitmapPixel) : option (list Z) :=
  let r := map_zero_based pixel.(red) 255 red_shifted in
  let g := map_zero_based pixel.(green) 255 green_shifted in
  let b := map_zero_based pixel.(blue) 255 blue_shifted in
  let a := map_zero_based pixel.(alpha) 255 alpha_shifted in
  (* a [u16] shifted by 16 bits or more panics *)
  if (16 <=? red_offset) || (16 <=? green_offset) || (16 <=? blue_offset)
     || (16 <=? alpha_offset) then None else
  let pixel_value :=
    Z.lor (Z.lor (Z.lor (as_u16 (Z.shiftl r red_offset))
                        (as_u16 (Z.shiftl g green_offset)))
                 (as_u16 (Z.shiftl b blue_offset)))
          (Z.land (as_u16 (Z.shiftl a alpha_offset)) (as_u16 alpha_mask)) in
  Some (push_u16 [] pixel_value).

Definition write_16_bitfield (data : list Z) (pixels : list BitmapPixel)
    (image_width image_height red_mask green_mask blue_mask alpha_mask : Z)
    : option (list Z) :=
  let '(red_offset, red_shifted) := mask_offset_and_shifted red_mask in
  let '(green_offset, green_shifted) := mask_offset_and_shifted green_mask in
  let '(blue_offset, blue_shifted) := mask_offset_and_shifted blue_mask in
  let '(alpha_offset, alpha_shifted) := mask_offset_and_shifted alpha_mask in
  bytes_per_row ← i32_mul image_width 2;
  let n_padding_bytes := pad_to_align_i32 bytes_per_row 4 in
  '(data, _) ←
    write_rows (encode_16_bitfield red_offset red_shifted green_offset green_shifted
                  blue_offset blue_shifted alpha_offset alpha_shifted alpha_mask)
      (Z.to_nat image_height) image_width n_padding_bytes data pixels;
  Some data.

Definition write_32_uncompressed (data : list Z) (pixels : list BitmapPixel) : list Z :=
  foldl (fun data pixel => data ++ [pixel.(blue); pixel.(green); pixel.(red); 0])
    data pixels.

Definition write_24_uncompressed (data : list Z) (pixels : list BitmapPixel)
    (image_width image_height : Z) : option (list Z) :=
  bytes_per_row ← i32_mul image_width 3;
  let n_padding_bytes := pad_to_align_i32 bytes_per_row 4 in
  '(data, _) ←
    write_rows (fun pixel => Some [pixel.(blue); pixel.(green); pixel.(red)])
      (Z.to_nat image_height) image_width n_padding_bytes data pixels;
  Some data.

(** Modelled from the spec: [write_16_uncompressed], which
    [pixels_into_data] calls but which is absent from the source. Section 4.5
    makes the encoder the mirror of the decoder of section 4.4: each channel
    rescaled from 0xFF to 0x1F by Channel Scaling, packed as 5-5-5 BGR (bits
    0-4 blue, 5-9 green, 10-14 red), rows padded to 4 bytes. *)
Definition write_16_uncompressed (data : list Z) (pixels : list BitmapPixel)
    (image_width image_height : Z) : option (list Z) :=
  bytes_per_row ← i32_mul image_width 2;
  let n_padding_bytes := pad_to_align_i32 bytes_per_row 4 in
  '(data, _) ←
    write_rows (fun pixel =>
        let r := map_zero_based pixel.(red) 255 31 in
        let g := map_zero_based pixel.(green) 255 31 in
        let b := map_zero_based pixel.(blue) 255 31 in
        Some (push_u16 [] (Z.lor (Z.lor b (Z.shiftl g 5)) (Z.shiftl r 10))))
      (Z.to_nat image_height) image_width n_padding_bytes data pixels;
  Some data.

(** [pixel.find_closest_by_index(image_palette) as u8]. *)
Definition palette_index_u8 (image_palette : BitmapPalette) (pixel : BitmapPixel)
    : option Z :=
  i ← find_closest_by_index pixel image_palette; Some (as_u8 (Z.of_nat i)).

Definition write_8_uncompressed (data : list Z) (pixels : list BitmapPixel)
    (image_palette : BitmapPalette) (image_width image_height : Z) : option (list Z) :=
  let n_padding_bytes := pad_to_align_i32 image_width 4 in
  '(data, _) ←
    write_rows (fun pixel => i ← palette_index_u8 image_palette pixel; Some [i])
      (Z.to_nat image_height) image_width n_padding_bytes data pixels;
  Some data.

(** The [for _ in 0 .. image_width / 2] loop of [write_4_uncompressed]. *)
Fixpoint write_4_pairs (image_palette : BitmapPalette) (n : nat) (data : list Z)
    (pixel_iter : list BitmapPixel) : option (list Z * list BitmapPixel) :=
  match n with
  | O => Some (data, pixel_iter)
  | S n' =>
      match pixel_iter with
      | pixel0 :: pixel1 :: pixel_iter' =>
          p0_index ← palette_index_u8 image_palette pixel0;
          p1_index ← palette_index_u8 image_palette pixel1;
          let pixel_data := Z.lor (as_u8 (Z.shiftl p0_index 4)) (Z.land p1_index 15) in
          write_4_pairs image_palette n' (data ++ [pixel_data]) pixel_iter'
      | _ => None
      end
  end.

Fixpoint write_4_rows (image_palette : BitmapPalette) (rows : nat)
    (image_width n_padding_bytes : Z) (data : list Z) (pixel_iter : list BitmapPixel)
    : option (list Z * list BitmapPixel) :=
  match rows with
  | O => Some (data, pixel_iter)
  | S rows' =>
      '(data, pixel_iter) ←
        write_4_pairs image_palette (Z.to_nat (Z.quot image_width 2)) data pixel_iter;
      let pixels_written := 2 * Z.of_nat (Z.to_nat (Z.quot image_width 2)) in
      '(data, pixel_iter) ←
        (if pixels_written <? image_width then
           match pixel_iter with
           | [] => None
           | pixel :: pixel_iter' =>
               p_index ← palette_index_u8 image_palette pixel;
               Some (data ++ [as_u8 (Z.shiftl p_index 4)], pixel_iter')
           end
         else Some (data, pixel_iter));
      write_4_rows image_palette rows' image_width n_padding_bytes
        (data ++ repeat 0 (Z.to_nat n_padding_bytes)) pixel_iter
  end.

Definition write_4_uncompressed (data : list Z) (pixels : list BitmapPixel)
    (image_palette : BitmapPalette) (image_width image_height : Z) : option (list Z) :=
  w1 ← i32_add image_width 1;
  let bytes_per_row := Z.quot w1 2 in
  let n_padding_bytes := pad_to_align_i32 bytes_per_row 4 in
  '(data, _) ←
    write_4_rows image_palette (Z.to_nat image_height) image_width n_padding_bytes
      data pixels;
  Some data.

(** [byte_from_pixels]: bit [7 - i] is set iff pixel [i] is closest to a
    palette entry other than entry 0. *)
Fixpoint byte_from_pixels_loop (palette : BitmapPalette) (pixels : list BitmapPixel)
    (mask result : Z) : option Z :=
  match pixels with
  | [] => Some result
  | pixel :: pixels' =>
      p_index ← find_closest_by_index pixel palette;
      let result := if negb (p_index =? 0)%nat then Z.lor result mask else result in
      byte_from_pixels_loop palette pixels' (Z.shiftr mask 1) result
  end.

Definition byte_from_pixels (palette : BitmapPalette) (pixels : list BitmapPixel)
    : option Z :=
  byte_from_pixels_loop palette pixels 128 0.

(** [&pixels_slice[total_pixels_written .. total_pixels_written + n]] on the
    pixels not yet written: panics unless [n] of them are left. *)
Definition next_block (n : Z) (pixel_iter : list BitmapPixel)
    : option (list BitmapPixel * list BitmapPixel) :=
  if Z.of_nat (length pixel_iter) <? n then None
  else Some (take (Z.to_nat n) pixel_iter, drop (Z.to_nat n) pixel_iter).

Fixpoint write_1_full_bytes (image_palette : BitmapPalette) (n : nat) (data : list Z)
    (pixel_iter : list BitmapPixel) : option (list Z * list BitmapPixel) :=
  match n with
  | O => Some (data, pixel_iter)
  | S n' =>
      '(pixels_block, pixel_iter) ← next_block 8 pixel_iter;
      byte_data ← byte_from_pixels image_palette pixels_block;
      write_1_full_bytes image_palette n' (data ++ [byte_data]) pixel_iter
  end.

Fixpoint write_1_rows (image_palette : BitmapPalette) (rows : nat)
    (image_width remaining_pixels_per_row n_padding_bytes : Z) (data : list Z)
    (pixel_iter : list BitmapPixel) : option (list Z * list BitmapPixel) :=
  match rows with
  | O => Some (data, pixel_iter)
  | S rows' =>
      '(data, pixel_iter) ←
        write_1_full_bytes image_palette (Z.to_nat (Z.quot image_width 8)) data
          pixel_iter;
      '(data, pixel_iter) ←
        (if negb (remaining_pixels_per_row =? 0) then
           '(pixels_block, pixel_iter) ← next_block remaining_pixels_per_row pixel_iter;
           byte_data ← byte_from_pixels image_palette pixels_block;
           Some (data ++ [byte_data], pixel_iter)
         else Some (data, pixel_iter));
      write_1_rows image_palette rows' image_width remaining_pixels_per_row
        n_padding_bytes (data ++ repeat 0 (Z.to_nat n_padding_bytes)) pixel_iter
  end.

Definition write_1_uncompressed (data : list Z) (pixels : list BitmapPixel)
    (image_palette : BitmapPalette) (image_width image_height : Z) : option (list Z) :=
  let remaining_pixels_per_row :=
    as_usize (image_width - Z.quot image_width 8 * 8) in
  bits_per_row ← i32_add image_width (pad_to_align_i32 image_width 8);
  let bytes_per_row := Z.quot bits_per_row 8 in
  let n_padding_bytes := pad_to_align_i32 bytes_per_row 4 in
  '(data, _) ←
    write_1_rows image_palette (Z.to_nat image_height) image_width
      remaining_pixels_per_row n_padding_bytes data pixels;
  Some data.

(** [pixels_into_data]: appends the encoded pixels to [data]; every
    [panic!] and [unwrap] of a missing palette is [None]. *)
Definition pixels_into_data (pixels : list BitmapPixel) (data : list Z)
    (bitmap_info : BitmapInfoHeader) (palette : option BitmapPalette)
    : option (list Z) :=
  let bits_per_pixel := bitmap_info.(bits_per_pixel) in
  let image_width := bitmap_info.(image_width) in
  let image_height := bitmap_info.(image_height) in
  if bitmap_info.(compression_type) =? compression_code BitFields then
    if bits_per_pixel =? 32 then
      Some (write_32_bitfield data pixels bitmap_info.(red_mask) bitmap_info.(green_mask)
              bitmap_info.(blue_mask) bitmap_info.(alpha_mask))
    else if bits_per_pixel =? 16 then
      write_16_bitfield data pixels image_width image_height
        bitmap_info.(red_mask) bitmap_info.(green_mask)
        bitmap_info.(blue_mask) bitmap_info.(alpha_mask)
    else None
  else if bitmap_info.(compression_type) =? compression_code Uncompressed then
    if bits_per_pixel =? 32 then Some (write_32_uncompressed data pixels)
    else if bits_per_pixel =? 24 then
      write_24_uncompressed data pixels image_width image_height
    else if bits_per_pixel =? 16 then
      write_16_uncompressed data pixels image_width image_height
    else if bits_per_pixel =? 8 then
      pal ← palette; write_8_uncompressed data pixels pal image_width image_height
    else if bits_per_pixel =? 4 then
      pal ← palette; write_4_uncompressed data pixels pal image_width image_height
    else if bits_per_pixel =? 1 then
      pal ← palette; write_1_uncompressed data pixels pal image_width image_height
    else None
  else None.

(** ** Construction ([BitmapInfoHeader::new], [Bitmap::new]) *)

(** [BitmapInfoHeader::new]: the row size is computed in [u32], whose
    overflow panics. *)
Definition info_header_new (i_width i_height bits_per_pixel : Z)
    (compression : CompressionType) : option BitmapInfoHeader :=
  let h_size := match compression with BitFields => 56 | _ => 40 end in
  bits_per_row ← u32_mul (as_u32 i_width) bits_per_pixel;
  let bits_padding := pad_to_align bits_per_row 8 in
  bits_per_row ← u32_add bits_per_row bits_padding;
  let bytes_per_row := bits_per_row / 8 in
  let bytes_padding := pad_to_align bytes_per_row 4 in
  bytes_per_row ← u32_add bytes_per_row bytes_padding;
  i_size ← u32_mul bytes_per_row (as_u32 i_height);
  Some (mkInfoHeader h_size i_width i_height 1 bits_per_pixel
          (compression_code compression) i_size 0 0 0 0
          4278190080 16711680 65280 255 false).

Definition create_headers (width height bits_per_pixel : Z)
    (compression : CompressionType) : option (BitmapFileHeader * BitmapInfoHeader) :=
  info_header ← info_header_new width height bits_per_pixel compression;
  p_offset ← u32_add FILE_HEADER_SIZE info_header.(info_header_size);
  file_size ← u32_add p_offset info_header.(image_size);
  Some (file_header_new file_size p_offset, info_header).

Definition lazy_new (width height bits_per_pixel : Z) (compression : CompressionType)
    : option Bitmap :=
  '(file_header, info_header) ← create_headers width height bits_per_pixel compression;
  Some (mkBitmap file_header info_header None []).

(** [Bitmap::new]: [(width * height) as u32] transparent pixels; the [i32]
    product panics on overflow. *)
Definition bitmap_new (width height bits_per_pixel : Z) (compression : CompressionType)
    : option Bitmap :=
  n_pixels ← i32_mul width height;
  let n_pixels := as_u32 n_pixels in
  result ← lazy_new width height bits_per_pixel compression;
  Some (mkBitmap result.(file_header) result.(info_header) result.(palette)
          (repeat transparent (Z.to_nat n_pixels))).

Definition lazy_new_default (width height : Z) : option Bitmap :=
  lazy_new width height 32 BitFields.

(** [copy_rect_from]: [other.image_data[data_index]] panics out of range. *)
Fixpoint copy_row (other : list BitmapPixel) (row_start : Z) (columns : nat)
    (column_index : Z) (acc : list BitmapPixel) : option (list BitmapPixel) :=
  match columns with
  | O => Some acc
  | S columns' =>
      data_index ← usize_add row_start column_index;
      data ← other !! Z.to_nat data_index;
      copy_row other row_start columns' (column_index + 1) (acc ++ [data])
  end.

Fixpoint copy_rows (other : list BitmapPixel) (stride : Z) (rows : nat)
    (row_index x0 width : Z) (acc : list BitmapPixel) : option (list BitmapPixel) :=
  match rows with
  | O => Some acc
  | S rows' =>
      row_start ← usize_mul row_index stride;
      acc ← copy_row other row_start (Z.to_nat width) x0 acc;
      copy_rows other stride rows' (row_index + 1) x0 width acc
  end.

Definition copy_rect_from (self other : Bitmap) (x0 y0 width height : Z)
    : option Bitmap :=
  if negb (length self.(image_data) =? 0)%nat then None else
  let stride := as_usize other.(info_header).(image_width) in
  y_end ← u32_add y0 height;
  x_end ← u32_add x0 width;
  data ← copy_rows other.(image_data) stride (Z.to_nat (y_end - y0)) y0 x0
           (x_end - x0) [];
  Some (mkBitmap self.(file_header) self.(info_header) self.(palette) data).

(** [crop_to_rect]; the bounds are [u32] and [x0 + width] panics on
    overflow. *)
Definition crop_to_rect (self : Bitmap) (x0 y0 width height : Z)
    : option (BitmapResult Bitmap) :=
  let image_width := as_u32 self.(info_header).(image_width) in
  let image_height := as_u32 self.(info_header).(image_height) in
  if (image_width <=? x0) || (image_height <=? y0) then Some (inl InvalidOperation) else
  x_end ← u32_add x0 width;
  if image_width <? x_end then Some (inl InvalidOperation) else
  y_end ← u32_add y0 height;
  if image_height <? y_end then Some (inl InvalidOperation) else
  result ← lazy_new_default (as_i32 width) (as_i32 height);
  result ← copy_rect_from result self x0 y0 width height;
  Some (inr result).

(** ** Vertical mirror *)

(** [swap_slice_regions] on the ranges [s0 .. e0] and [s1 .. e1]: as many
    swaps as the shorter range has indices; indexing out of the slice
    panics. *)
Fixpoint swap_slice_regions_loop {A} (fuel : nat) (slice : list A) (s0 e0 s1 e1 : Z)
    : option (list A) :=
  match fuel with
  | O => Some slice
  | S fuel' =>
      if (s0 <? e0) && (s1 <? e1) then
        tmp ← slice !! Z.to_nat s0;
        v1 ← slice !! Z.to_nat s1;
        let slice := <[Z.to_nat s0 := v1]> slice in
        let slice := <[Z.to_nat s1 := tmp]> slice in
        swap_slice_regions_loop fuel' slice (s0 + 1) e0 (s1 + 1) e1
      else Some slice
  end.

Definition swap_slice_regions {A} (slice : list A) (r0 r1 : Z * Z) : option (list A) :=
  let '(s0, e0) := r0 in
  let '(s1, e1) := r1 in
  swap_slice_regions_loop (Z.to_nat (Z.min (e0 - s0) (e1 - s1))) slice s0 e0 s1 e1.

(** The [for row_index in 0 .. (image_height / 2) as usize] loop. *)
Fixpoint mirror_rows (rows : nat) (row_index image_height stride : Z)
    (data_slice : list BitmapPixel) : option (list BitmapPixel) :=
  match rows with
  | O => Some data_slice
  | S rows' =>
      let mirrored_row_index := as_usize image_height - row_index - 1 in
      if mirrored_row_index <? 0 then None else
      top_data_index ← usize_mul row_index stride;
      bottom_data_index ← usize_mul mirrored_row_index stride;
      top_end ← usize_add top_data_index stride;
      bottom_end ← usize_add bottom_data_index stride;
      data_slice ← swap_slice_regions data_slice (top_data_index, top_end)
                     (bottom_data_index, bottom_end);
      mirror_rows rows' (row_index + 1) image_height stride data_slice
  end.

Definition mirror_vertically (self : Bitmap) : option Bitmap :=
  let stride := as_usize self.(info_header).(image_width) in
  let rows := Z.to_nat (as_usize (Z.quot self.(info_header).(image_height) 2)) in
  data ← mirror_rows rows 0 self.(info_header).(image_height) stride self.(image_data);
  Some (mkBitmap self.(file_header) self.(info_header) self.(palette) data).

(** The (compression, bits per pixel) pairs that [interpret_image_data]
    and [pixels_into_data] dispatch on. *)
Definition supported_format (compression bits_per_pixel : Z) : bool :=
  ((compression =? compression_code BitFields)
   && ((bits_per_pixel =? 32) || (bits_per_pixel =? 16)))
  || ((compression =? compression_code Uncompressed)
      && ((bits_per_pixel =? 32) || (bits_per_pixel =? 24) || (bits_per_pixel =? 16)
          || (bits_per_pixel =? 8) || (bits_per_pixel =? 4) || (bits_per_pixel =? 1))).

(** A complete 1x1 file in a 2-bit uncompressed format: both headers are
    valid, 4 bytes of pixel data. *)
Definition two_bit_file : list Z :=
  [66; 77; 58; 0; 0; 0; 0; 0; 0; 0; 54; 0; 0; 0] ++
  [40; 0; 0; 0; 1; 0; 0; 0; 1; 0; 0; 0; 1; 0; 2; 0; 0; 0; 0; 0; 4; 0; 0; 0] ++
  repeat 0 16 ++ [0; 0; 0; 0].

(** Where the element at index [i] comes from after swapping the regions
    [s0 .. s0 + n] and [s1 .. s1 + n]. *)
Definition swap_index (s0 s1 n i : nat) : nat :=
  if decide (s0 <= i < s0 + n)%nat then (i - s0 + s1)%nat
  else if decide (s1 <= i < s1 + n)%nat then (i - s1 + s0)%nat
  else i.

(** The row whose contents row [row] holds once rows [a .. b] have been
    swapped with their mirror rows in an image of [h] rows. *)
Definition row_map (h a b row : nat) : nat :=
  if decide ((a <= row < b) \/ (a <= h - 1 - row < b))%nat then (h - 1 - row)%nat else row.

(** ** Row layouts, for the proofs about the codecs *)

(** [n] pixels of [k] bytes each, decoded by [dec]. *)
Fixpoint decode_chunks (dec : list Z -> option BitmapPixel) (k n : nat) (bytes : list Z)
    : option (list BitmapPixel) :=
  match n with
  | O => Some []
  | S n' =>
      p ← dec (take k bytes);
      ps ← decode_chunks dec k n' (drop k bytes);
      Some (p :: ps)
  end.

(** [m] rows of [row_bytes] bytes, each starting with [width] pixels of
    [k] bytes. *)
Fixpoint decode_rows (dec : list Z -> option BitmapPixel) (k width row_bytes m : nat)
    (bytes : list Z) : option (list BitmapPixel) :=
  match m with
  | O => Some []
  | S m' =>
      ps ← decode_chunks dec k width bytes;
      rest ← decode_rows dec k width row_bytes m' (drop row_bytes bytes);
      Some (ps ++ rest)
  end.

(** Bytes per row of [width] pixels of [k] bytes, padded to 4 bytes. *)
Definition row_size (k width : nat) : nat :=
  (k * width + pad_to_align_nat (k * width) 4)%nat.

(** [h] rows of [width] pixels, each encoded by [enc] and padded by [pad]
    zero bytes. *)
Fixpoint encode_rows (enc : BitmapPixel -> list Z) (width pad h : nat)
    (pixels : list BitmapPixel) : list Z :=
  match h with
  | O => []
  | S h' =>
      concat (map enc (take width pixels)) ++ repeat 0 pad
      ++ encode_rows enc width pad h' (drop width pixels)
  end.

(** The pixel decoders of the row-padded readers, on the bytes of one
    pixel. *)
Definition dec_bgr (bs : list Z) : option BitmapPixel :=
  b ← bs !! 0%nat; g ← bs !! 1%nat; r ← bs !! 2%nat; Some (mkPixel b g r 255).

Definition dec_palette_index (image_palette : BitmapPalette) (bs : list Z)
    : option BitmapPixel :=
  pixel_index ← bs !! 0%nat; image_palette !! Z.to_nat pixel_index.

Definition dec_555 (bs : list Z) : option BitmapPixel :=
  let pixel_value := le_value bs in
  let b := map_zero_based (Z.land pixel_value 31) 31 255 in
  let g := map_zero_based (Z.land (Z.shiftr pixel_value 5) 31) 31 255 in
  let r := map_zero_based (Z.land (Z.shiftr pixel_value 10) 31) 31 255 in
  Some (mkPixel b g r 255).

Definition dec_32_uncompressed (bs : list Z) : option BitmapPixel :=
  b ← bs !! 0%nat; g ← bs !! 1%nat; r ← bs !! 2%nat; _ ← bs !! 3%nat;
  Some (mkPixel b g r 255).

Definition dec_32_bitfield (red_offset green_offset blue_offset alpha_offset alpha_mask : Z)
    (bs : list Z) : option BitmapPixel :=
  let pixel_value := le_value bs in
  let pixel :=
    mkPixel (as_u8 (Z.land (Z.shiftr pixel_value blue_offset) 255))
            (as_u8 (Z.land (Z.shiftr pixel_value green_offset) 255))
            (as_u8 (Z.land (Z.shiftr pixel_value red_offset) 255))
            (as_u8 (Z.land (Z.shiftr pixel_value alpha_offset) 255)) in
  Some (if alpha_mask =? 0 then set_alpha pixel 255 else pixel).

(** The two pixels of a byte of a 4-bit image: high nibble first. *)
Definition dec_4 (image_palette : BitmapPalette) (b : Z)
    : option (BitmapPixel * BitmapPixel) :=
  pixel0 ← image_palette !! Z.to_nat (Z.shiftr b 4);
  pixel1 ← image_palette !! Z.to_nat (Z.land b 15);
  Some (pixel0, pixel1).

(** [n] pixels of a row of a 4-bit image. *)
Fixpoint decode_4_row (image_palette : BitmapPalette) (n : nat) (bytes : list Z)
    : option (list BitmapPixel) :=
  match n with
  | O => Some []
  | S O => b ← bytes !! 0%nat; '(p0, _) ← dec_4 image_palette b; Some [p0]
  | S (S n') =>
      b ← bytes !! 0%nat;
      '(p0, p1) ← dec_4 image_palette b;
      rest ← decode_4_row image_palette n' (drop 1 bytes);
      Some (p0 :: p1 :: rest)
  end.

Fixpoint decode_4_rows (image_palette : BitmapPalette) (width row_bytes m : nat)
    (bytes : list Z) : option (list BitmapPixel) :=
  match m with
  | O => Some []
  | S m' =>
      ps ← decode_4_row image_palette width bytes;
      rest ← decode_4_rows image_palette width row_bytes m' (drop row_bytes bytes);
      Some (ps ++ rest)
  end.

(** [q] full bytes of a row of a 1-bit image, eight pixels each. *)
Fixpoint decode_1_full (image_palette : BitmapPalette) (q : nat) (bytes : list Z)
    : option (list BitmapPixel) :=
  match q with
  | O => Some []
  | S q' =>
      b ← bytes !! 0%nat;
      ps ← append_pixels_loop image_palette 8 b 128 [];
      rest ← decode_1_full image_palette q' (drop 1 bytes);
      Some (ps ++ rest)
  end.

(** A row of [width] pixels of a 1-bit image: [width / 8] full bytes, then
    the [width mod 8] high bits of one more byte. *)
Definition decode_1_row (image_palette : BitmapPalette) (width : nat) (bytes : list Z)
    : option (list BitmapPixel) :=
  ps ← decode_1_full image_palette (width / 8) bytes;
  if (0 <? width mod 8)%nat then
    b ← bytes !! (width / 8)%nat;
    tail ← append_pixels_loop image_palette (width mod 8) b 128 [];
    Some (ps ++ tail)
  else Some ps.

Fixpoint decode_1_rows (image_palette : BitmapPalette) (width row_bytes m : nat)
    (bytes : list Z) : option (list BitmapPixel) :=
  match m with
  | O => Some []
  | S m' =>
      ps ← decode_1_row image_palette width bytes;
      rest ← decode_1_rows image_palette width row_bytes m' (drop row_bytes bytes);
      Some (ps ++ rest)
  end.

(** The image size [Bitmap::from_data] computes for an [Uncompressed]
    image: the branch of its [image_size_in_bytes]. *)
Definition image_size_uncompressed (info_header : BitmapInfoHeader) : option Z :=
  bits_per_row ← usize_mul (as_usize info_header.(image_width))
                           info_header.(bits_per_pixel);
  let bits_pad := pad_to_align bits_per_row 8 in
  bits_per_row ← usize_add bits_per_row bits_pad;
  let bytes_per_row := bits_per_row / 8 in
  let bytes_pad := pad_to_align bytes_per_row 4 in
  bytes_per_row ← usize_add bytes_per_row bytes_pad;
  usize_mul bytes_per_row (as_usize info_header.(image_height)).

(** A complete 1x1 file, 32-bit [BitFields], whose info header records an
    image size of 0 bytes. *)
Definition bitfields_zero_size_file : list Z :=
  [66; 77; 54; 0; 0; 0; 0; 0; 0; 0; 54; 0; 0; 0] ++
  [40; 0; 0; 0; 1; 0; 0; 0; 1; 0; 0; 0; 1; 0; 32; 0; 3; 0; 0; 0; 0; 0; 0; 0] ++
  repeat 0 16.

(** A complete 1x1 file, 24-bit [Uncompressed]: one pixel and one byte of
    row padding. *)
Definition sample_24_file : list Z :=
  [66; 77; 58; 0; 0; 0; 0; 0; 0; 0; 54; 0; 0; 0] ++
  [40; 0; 0; 0; 1; 0; 0; 0; 1; 0; 0; 0; 1; 0; 24; 0; 0; 0; 0; 0; 4; 0; 0; 0] ++
  repeat 0 16 ++ [10; 20; 30; 0].

(** Exhaustive check, over every [u8] value, of [map_zero_based] against
    the linear rescale truncated toward zero and saturated at 255. *)
Definition map_zero_based_truncates_at (from to : Z) : bool :=
  forallb (fun v => map_zero_based (Z.of_nat v) from to
                    =? Z.min 255 (Z.of_nat v * to / from)) (seq 0 256).

(** ** Round trips of [pixels_into_data] and [interpret_image_data] *)

Definition byte_lane_mask (m : Z) : bool :=
  (m =? 255) || (m =? 65280) || (m =? 16711680) || (m =? 4278190080).

Definition lane_masks (info_header : BitmapInfoHeader) : Prop :=
  byte_lane_mask info_header.(red_mask) = true /\
  byte_lane_mask info_header.(green_mask) = true /\
  byte_lane_mask info_header.(blue_mask) = true /\
  NoDup [info_header.(red_mask); info_header.(green_mask); info_header.(blue_mask)] /\
  (info_header.(alpha_mask) = 0 \/
   (byte_lane_mask info_header.(alpha_mask) = true /\
    NoDup [info_header.(red_mask); info_header.(green_mask); info_header.(blue_mask);
           info_header.(alpha_mask)])).

Definition in_palette (image_palette : BitmapPalette) (p : BitmapPixel) : Prop :=
  exists q, q ∈ image_palette /\
    q.(red) = p.(red) /\ q.(green) = p.(green) /\ q.(blue) = p.(blue).

Definition palette_fits (image_palette : BitmapPalette) (n : nat)
    (pixels : list BitmapPixel) : Prop :=
  (length image_palette <= n)%nat /\
  Forall (fun q => pixel_wf q /\ q.(alpha) = 255) image_palette /\
  Forall (in_palette image_palette) pixels.

Definition round_trip_format (info_header : BitmapInfoHeader)
    (image_palette : BitmapPalette) (pixels : list BitmapPixel) : Prop :=
  (info_header.(compression_type) = compression_code BitFields /\
   info_header.(bits_per_pixel) = 32 /\ lane_masks info_header) \/
  (info_header.(compression_type) = compression_code Uncompressed /\
   (info_header.(bits_per_pixel) = 32 \/ info_header.(bits_per_pixel) = 24)) \/
  (info_header.(compression_type) = compression_code Uncompressed /\
   exists b : nat, b ∈ [1; 4; 8]%nat /\ info_header.(bits_per_pixel) = Z.of_nat b /\
     palette_fits image_palette (2 ^ b) pixels).

Definition decoded_pixel (info_header : BitmapInfoHeader) (p : BitmapPixel) : BitmapPixel :=
  if (info_header.(compression_type) =? compression_code BitFields)
     && negb (info_header.(alpha_mask) =? 0)
  then p else set_alpha p 255.

(** The [u32] that [write_32_bitfield] writes for [pixel]. *)
Definition bitfield_32_value (red_offset green_offset blue_offset alpha_offset alpha_mask : Z)
    (pixel : BitmapPixel) : Z :=
  Z.lor (Z.lor (Z.lor (as_u32 (Z.shiftl pixel.(red) red_offset))
                      (as_u32 (Z.shiftl pixel.(green) green_offset)))
               (as_u32 (Z.shiftl pixel.(blue) blue_offset)))
        (Z.land (as_u32 (Z.shiftl pixel.(alpha) alpha_offset)) alpha_mask).

(** The byte [byte_from_pixels] builds from one bit per pixel: [mask] for
    the first bit, then [mask >> 1], ... *)
Fixpoint bits_to_byte (bits : list bool) (mask result : Z) : Z :=
  match bits with
  | [] => result
  | bit :: bits' =>
      bits_to_byte bits' (Z.shiftr mask 1) (if bit then Z.lor result mask else result)
  end.

(** The [n] bits that [append_pixels_from_byte] tests, from [mask] down. *)
Fixpoint byte_to_bits (n : nat) (byte mask : Z) : list bool :=
  match n with
  | O => []
  | S n' => negb (Z.land byte mask =? 0) :: byte_to_bits n' byte (Z.shiftr mask 1)
  end.

(** All bit lists of length [n]. *)
Fixpoint all_bits (n : nat) : list (list bool) :=
  match n with
  | O => [[]]
  | S n' => map (cons false) (all_bits n') ++ map (cons true) (all_bits n')
  end.

(** The bit a 1-bit image stores for [pixel]: set iff its closest palette
    entry is not entry 0. *)
Definition palette_bit (image_palette : BitmapPalette) (pixel : BitmapPixel) : bool :=
  match find_closest_by_index pixel image_palette with
  | Some i => negb (i =? 0)%nat
  | None => false
  end.

(** ** Writing, horizontal mirror, merging, cropping and conversion
    ([into_data], [mirror_horizontally], [merge_horizontally],
    [merge_vertically], [replace_rect_with_rect_from], [convert_to]) *)

(** [push_i32]: [value >> k] is the arithmetic shift of an [i32]. *)
Definition push_i32 (v : list Z) (value : Z) : list Z :=
  v ++ [as_u8 value; as_u8 (Z.shiftr value 8); as_u8 (Z.shiftr value 16);
        as_u8 (Z.shiftr value 24)].

(** [BitmapFileHeader::into_data]. *)
Definition file_header_into_data (self : BitmapFileHeader) (data : list Z) : list Z :=
  let data := push_u16 data self.(magic_number) in
  let data := push_u32 data self.(file_size) in
  let data := push_u16 data self.(reserved1) in
  let data := push_u16 data self.(reserved2) in
  push_u32 data self.(pixel_array_offset).

(** [BitmapInfoHeader::into_data]: the masks only for a header of more
    than 40 bytes; [is_top_down] is not written. *)
Definition info_header_into_data (self : BitmapInfoHeader) (data : list Z) : list Z :=
  let data := push_u32 data self.(info_header_size) in
  let data := push_i32 data self.(image_width) in
  let data := push_i32 data self.(image_height) in
  let data := push_u16 data self.(n_planes) in
  let data := push_u16 data self.(bits_per_pixel) in
  let data := push_u32 data self.(compression_type) in
  let data := push_u32 data self.(image_size) in
  let data := push_i32 data self.(pixels_per_meter_x) in
  let data := push_i32 data self.(pixels_per_meter_y) in
  let data := push_u32 data self.(colors_used) in
  let data := push_u32 data self.(colors_important) in
  if 40 <? self.(info_header_size) then
    let data := push_u32 data self.(red_mask) in
    let data := push_u32 data self.(green_mask) in
    let data := push_u32 data self.(blue_mask) in
    push_u32 data self.(alpha_mask)
  else data.

(** [BitmapPixel::rgba_u32]: red in the high byte, alpha in the low one. *)
Definition rgba_u32 (color : Z) : BitmapPixel :=
  rgba (as_u8 (Z.shiftr color 24)) (as_u8 (Z.shiftr color 16)) (as_u8 (Z.shiftr color 8))
       (as_u8 color).

Definition rgb_u32 (color : Z) : BitmapPixel := rgba_u32 (Z.lor color 255).

(** The palette loop of [Bitmap::into_data]: blue, green, red and a zero
    byte per entry. *)
Definition palette_into_data (palette : BitmapPalette) (result : list Z) : list Z :=
  foldl (fun result pixel =>
           result ++ [pixel.(blue); pixel.(green); pixel.(red); 0]) result palette.

(** [Bitmap::into_data]: [expect] on a missing palette and the [assert!] on
    the pixel-array offset panic; the gap up to the offset is zero-filled. *)
Definition bitmap_into_data (self : Bitmap) : option (list Z) :=
  let result := file_header_into_data self.(file_header) [] in
  let result := info_header_into_data self.(info_header) result in
  result ←
    (if (self.(info_header).(bits_per_pixel) =? 1)
        || (self.(info_header).(bits_per_pixel) =? 4)
        || (self.(info_header).(bits_per_pixel) =? 8) then
       palette ← self.(palette); Some (palette_into_data palette result)
     else Some result);
  let data_size := length result in
  if negb (Z.of_nat data_size <=? self.(file_header).(pixel_array_offset)) then None else
  let result := result ++ repeat 0 (Z.to_nat self.(file_header).(pixel_array_offset) - data_size) in
  pixels_into_data self.(image_data) result self.(info_header) self.(palette).

(** [mirror_slice]: the [for index_left in 0 .. slice.len() / 2] loop. *)
Fixpoint mirror_slice_loop {A} (n : nat) (index_left : nat) (slice : list A)
    : option (list A) :=
  match n with
  | O => Some slice
  | S n' =>
      let index_right := (length slice - index_left - 1)%nat in
      tmp ← slice !! index_left;
      v ← slice !! index_right;
      let slice := <[index_left := v]> slice in
      let slice := <[index_right := tmp]> slice in
      mirror_slice_loop n' (S index_left) slice
  end.

Definition mirror_slice {A} (slice : list A) : option (list A) :=
  mirror_slice_loop (length slice / 2) 0 slice.

(** The [for row_index in 0 .. image_height as usize] loop of
    [mirror_horizontally]: [data_slice[data_index .. data_index + stride]]
    panics past the end of the buffer. *)
Fixpoint mirror_horizontally_rows (rows : nat) (row_index stride : Z)
    (data_slice : list BitmapPixel) : option (list BitmapPixel) :=
  match rows with
  | O => Some data_slice
  | S rows' =>
      data_index ← usize_mul row_index stride;
      data_end ← usize_add data_index stride;
      if Z.of_nat (length data_slice) <? data_end then None else
      row_slice ← mirror_slice (take (Z.to_nat stride) (drop (Z.to_nat data_index) data_slice));
      let data_slice := take (Z.to_nat data_index) data_slice ++ row_slice
                        ++ drop (Z.to_nat data_end) data_slice in
      mirror_horizontally_rows rows' (row_index + 1) stride data_slice
  end.

Definition mirror_horizontally (self : Bitmap) : option Bitmap :=
  let stride := as_usize self.(info_header).(image_width) in
  let rows := Z.to_nat (as_usize self.(info_header).(image_height)) in
  data ← mirror_horizontally_rows rows 0 stride self.(image_data);
  Some (mkBitmap self.(file_header) self.(info_header) self.(palette) data).

(** The inner loop of [replace_rect_with_rect_from]: [other.image_data[i]]
    and [self.image_data[i] = data] panic out of range.  [current_dest_x]
    starts below [2^32] and is incremented at most [2^32] times, so its
    [usize] increment never overflows. *)
Fixpoint replace_row (other : list BitmapPixel) (current_src_y src_stride : Z)
    (current_dest_y dest_stride : Z) (columns : nat) (current_src_x current_dest_x : Z)
    (self : list BitmapPixel) : option (list BitmapPixel) :=
  match columns with
  | O => Some self
  | S columns' =>
      src_row ← usize_mul current_src_y src_stride;
      src_data_index ← usize_add src_row current_src_x;
      dest_row ← usize_mul current_dest_y dest_stride;
      dest_data_index ← usize_add dest_row current_dest_x;
      data ← other !! Z.to_nat src_data_index;
      if (length self <=? Z.to_nat dest_data_index)%nat then None else
      let self := <[Z.to_nat dest_data_index := data]> self in
      replace_row other current_src_y src_stride current_dest_y dest_stride columns'
        (current_src_x + 1) (current_dest_x + 1) self
  end.

(** The outer loop: the range [src_x0 .. src_x0 + width] is built (and the
    [u32] sum checked) at each row. *)
Fixpoint replace_rows (other : list BitmapPixel) (src_stride dest_stride : Z)
    (src_x0 dest_x0 width : Z) (rows : nat) (current_src_y current_dest_y : Z)
    (self : list BitmapPixel) : option (list BitmapPixel) :=
  match rows with
  | O => Some self
  | S rows' =>
      x_end ← u32_add src_x0 width;
      self ← replace_row other current_src_y src_stride current_dest_y dest_stride
               (Z.to_nat (x_end - src_x0)) src_x0 dest_x0 self;
      replace_rows other src_stride dest_stride src_x0 dest_x0 width rows'
        (current_src_y + 1) (current_dest_y + 1) self
  end.

Definition replace_rect_with_rect_from (self other : Bitmap)
    (src_x0 src_y0 dest_x0 dest_y0 width height : Z) : option Bitmap :=
  let src_stride := as_usize other.(info_header).(image_width) in
  let dest_stride := as_usize self.(info_header).(image_width) in
  y_end ← u32_add src_y0 height;
  data ← replace_rows other.(image_data) src_stride dest_stride src_x0 dest_x0 width
           (Z.to_nat (y_end - src_y0)) src_y0 dest_y0 self.(image_data);
  Some (mkBitmap self.(file_header) self.(info_header) self.(palette) data).

Definition bitmap_new_default (width height : Z) : option Bitmap :=
  bitmap_new width height 32 BitFields.

(** [Bitmap::merge_horizontally]: the [i32] sum of the widths panics on
    overflow. *)
Definition merge_horizontally (image0 image1 : Bitmap) : option Bitmap :=
  result_width ← i32_add image0.(info_header).(image_width) image1.(info_header).(image_width);
  let result_height := Z.max image0.(info_header).(image_height)
                             image1.(info_header).(image_height) in
  result ← bitmap_new_default result_width result_height;
  result ← replace_rect_with_rect_from result image0 0 0 0 0
             (as_u32 image0.(info_header).(image_width))
             (as_u32 image0.(info_header).(image_height));
  replace_rect_with_rect_from result image1 0 0
    (as_u32 image0.(info_header).(image_width)) 0
    (as_u32 image1.(info_header).(image_width))
    (as_u32 image1.(info_header).(image_height)).

Definition merge_vertically (image0 image1 : Bitmap) : option Bitmap :=
  result_height ← i32_add image0.(info_header).(image_height)
                    image1.(info_header).(image_height);
  let result_width := Z.max image0.(info_header).(image_width)
                            image1.(info_header).(image_width) in
  result ← bitmap_new_default result_width result_height;
  result ← replace_rect_with_rect_from result image0 0 0 0 0
             (as_u32 image0.(info_header).(image_width))
             (as_u32 image0.(info_header).(image_height));
  replace_rect_with_rect_from result image1 0 0
    0 (as_u32 image0.(info_header).(image_height))
    (as_u32 image1.(info_header).(image_width))
    (as_u32 image1.(info_header).(image_height)).


(** Sample values for the witnesses: a 32-bit BitFields header as
    [Bitmap::new_default] writes it, and a few pixels. *)
Definition sample_info_header (w h : Z) (top_down : bool) : BitmapInfoHeader :=
  mkInfoHeader 56 w h 1 32 3 (w * 4 * h) 0 0 0 0 4278190080 16711680 65280 255 top_down.

Definition sample_bitmap (w h : Z) (top_down : bool) (data : list BitmapPixel) : Bitmap :=
  mkBitmap (file_header_new (70 + w * 4 * h) 70) (sample_info_header w h top_down) None data.

Definition sample_pixels : list BitmapPixel :=
  [rgb 1 1 1; rgb 2 2 2; rgb 3 3 3; rgb 4 4 4; rgb 5 5 5; rgb 6 6 6].

(** * Proofs *)

(** ** The mask analyzer *)

Lemma mask_shift_loop_spec (n : nat) : forall (m off : Z),
  0 < m < 2 ^ Z.of_nat n ->
  exists t, mask_shift_loop n m off = (off + t, Z.shiftr m t) /\
    0 <= t < Z.of_nat n /\ Z.testbit m t = true /\
    (forall k, 0 <= k < t -> Z.testbit m k = false).
Proof.
  induction n as [|n IH]; intros m off Hm.
  - simpl in Hm. lia.
  - cbn [mask_shift_loop].
    assert (Hb0 : Z.land m 1 = if Z.odd m then 1 else 0).
    { rewrite Z.land_ones with (n := 1) by lia.
      rewrite Zmod_odd. reflexivity. }
    destruct (Z.odd m) eqn:Hodd.
    + rewrite Hb0. simpl. exists 0. rewrite Z.shiftr_0_r, Z.add_0_r.
      split; [reflexivity|]. split; [lia|]. split.
      * rewrite Z.bit0_odd. exact Hodd.
      * intros k Hk. lia.
    + rewrite Hb0. simpl.
      assert (Hm' : 0 < Z.shiftr m 1 < 2 ^ Z.of_nat n).
      { rewrite Z.shiftr_div_pow2 by lia.
        assert (Heven : m = 2 * (m / 2)).
        { pose proof (Z.div_mod m 2 ltac:(lia)) as Hd.
          rewrite Zmod_odd, Hodd in Hd. lia. }
        rewrite Nat2Z.inj_succ, Z.pow_succ_r in Hm by lia.
        change (2 ^ 1) with 2. lia. }
      destruct (IH (Z.shiftr m 1) (off + 1) Hm') as (t & Heq & Ht & Hbit & Hlow).
      exists (t + 1). rewrite Heq. split.
      { f_equal; [lia|]. rewrite Z.shiftr_shiftr by lia. f_equal. lia. }
      split; [lia|]. split.
      { rewrite Z.shiftr_spec in Hbit by lia.
        exact Hbit. }
      intros k Hk. destruct (Z.eq_dec k 0) as [->|Hk0].
      * rewrite Z.bit0_odd. exact Hodd.
      * specialize (Hlow (k - 1) ltac:(lia)).
        rewrite Z.shiftr_spec in Hlow by lia.
        replace (k - 1 + 1) with k in Hlow by lia. exact Hlow.
Qed.

(** C5: [mask_offset_and_shifted] returns [(0, 0)] for the zero mask, and
    otherwise the position of the lowest set bit of the [u32] mask together
    with the mask shifted right by that position; the examples of the spec
    hold. *)
Theorem mask_offset_and_shifted_spec (mask : Z) :
  0 <= mask < 2 ^ 32 ->
  (mask = 0 -> mask_offset_and_shifted mask = (0, 0)) /\
  (mask <> 0 ->
   exists offset,
     mask_offset_and_shifted mask = (offset, Z.shiftr mask offset) /\
     0 <= offset < 32 /\ Z.testbit mask offset = true /\
     (forall k, 0 <= k < offset -> Z.testbit mask k = false)) /\
  mask_offset_and_shifted 0 = (0, 0) /\
  mask_offset_and_shifted 65280 = (8, 255) /\
  mask_offset_and_shifted 4026531840 = (28, 15).
Proof.
  intros Hm. split; [|split; [|split; [|split]]].
  - intros ->. reflexivity.
  - intros Hnz. unfold mask_offset_and_shifted.
    replace (mask =? 0) with false by (symmetry; apply Z.eqb_neq; exact Hnz).
    destruct (mask_shift_loop_spec 32 mask 0 ltac:(simpl; lia))
      as (t & Heq & Ht & Hbit & Hlow).
    exists t. rewrite Heq. repeat split; auto; lia.
  - reflexivity.
  - reflexivity.
  - reflexivity.
Qed.

Lemma mask_offset_and_shifted_spec_witness :
  (0 <= 63488 < 2 ^ 32) /\
  ((63488 = 0 -> mask_offset_and_shifted 63488 = (0, 0)) /\
   (63488 <> 0 ->
    exists offset,
      mask_offset_and_shifted 63488 = (offset, Z.shiftr 63488 offset) /\
      0 <= offset < 32 /\ Z.testbit 63488 offset = true /\
      (forall k, 0 <= k < offset -> Z.testbit 63488 k = false)) /\
   mask_offset_and_shifted 0 = (0, 0) /\
   mask_offset_and_shifted 65280 = (8, 255) /\
   mask_offset_and_shifted 4026531840 = (28, 15)).
Proof.
  split; [lia|]. apply (mask_offset_and_shifted_spec 63488). lia.
Defined.

(** ** Nearest palette entry *)

(** The loop of [find_closest_by_index] keeps, for the prefix [pre] of the
    palette it has scanned, the first entry of minimal distance. *)
Lemma find_closest_loop_spec (self : BitmapPixel) (rest : list BitmapPixel) :
  forall (pre : list BitmapPixel) (r : nat) (q : BitmapPixel),
  pre !! r = Some q ->
  (forall j q', pre !! j = Some q' -> distance_squared self q <= distance_squared self q') ->
  (forall j q', (j < r)%nat -> pre !! j = Some q' ->
     distance_squared self q < distance_squared self q') ->
  exists q0,
    (pre ++ rest) !! find_closest_loop self rest (length pre) r
                       (distance_squared self q) = Some q0 /\
    (forall j q', (pre ++ rest) !! j = Some q' ->
       distance_squared self q0 <= distance_squared self q') /\
    (forall j q', (j < find_closest_loop self rest (length pre) r
                          (distance_squared self q))%nat ->
       (pre ++ rest) !! j = Some q' ->
       distance_squared self q0 < distance_squared self q').
Proof.
  induction rest as [|p rest IH]; intros pre r q Hq Hmin Hfirst.
  - simpl. rewrite app_nil_r. exists q. auto.
  - cbn [find_closest_loop].
    replace (pre ++ p :: rest) with ((pre ++ [p]) ++ rest)
      by (rewrite <- app_assoc; reflexivity).
    replace (S (length pre)) with (length (pre ++ [p]))
      by (rewrite length_app; simpl; lia).
    destruct (distance_squared self p <? distance_squared self q) eqn:Hlt.
    + apply Z.ltb_lt in Hlt.
      apply (IH (pre ++ [p]) (length pre) p).
      * apply lookup_snoc_Some. right. auto.
      * intros j q' Hj. apply lookup_snoc_Some in Hj as [[_ Hj]|[_ <-]].
        -- specialize (Hmin j q' Hj). lia.
        -- lia.
      * intros j q' Hj Hl. apply lookup_snoc_Some in Hl as [[_ Hl]|[-> _]].
        -- specialize (Hmin j q' Hl). lia.
        -- lia.
    + apply Z.ltb_ge in Hlt.
      apply (IH (pre ++ [p]) r q).
      * apply lookup_app_l_Some. exact Hq.
      * intros j q' Hj. apply lookup_snoc_Some in Hj as [[_ Hj]|[_ <-]].
        -- exact (Hmin j q' Hj).
        -- exact Hlt.
      * intros j q' Hj Hl. apply lookup_snoc_Some in Hl as [[_ Hl]|[-> _]].
        -- exact (Hfirst j q' Hj Hl).
        -- apply lookup_lt_Some in Hq. lia.
Qed.

Lemma find_closest_by_index_spec (self : BitmapPixel) (pal : BitmapPalette) :
  pal <> [] ->
  exists i q,
    find_closest_by_index self pal = Some i /\ pal !! i = Some q /\
    (forall j q', pal !! j = Some q' ->
       distance_squared self q <= distance_squared self q') /\
    (forall j q', (j < i)%nat -> pal !! j = Some q' ->
       distance_squared self q < distance_squared self q').
Proof.
  destruct pal as [|p0 rest]; [congruence|]. intros _.
  destruct (find_closest_loop_spec self rest [p0] 0 p0 eq_refl)
    as (q0 & Hq0 & Hmin & Hfirst).
  - intros j q' Hj. apply list_lookup_singleton_Some in Hj as [_ <-]. lia.
  - intros j q' Hj. lia.
  - exists (find_closest_loop self rest 1 0 (distance_squared self p0)), q0.
    split; [reflexivity|]. auto.
Qed.

(** For channels that are bytes, the [u32] cast of [distance_squared] does
    not wrap. *)
Lemma distance_squared_exact (p q : BitmapPixel) :
  pixel_wf p -> pixel_wf q -> distance_squared p q = rgb_distance_sq p q.
Proof.
  intros (Hb & Hg & Hr & _) (Hb' & Hg' & Hr' & _).
  unfold is_byte in *. unfold distance_squared, rgb_distance_sq, as_u32.
  assert (Hsq : forall x y, 0 <= x < 256 -> 0 <= y < 256 ->
            0 <= (x - y) * (x - y) <= 65025).
  { intros x y Hx Hy. assert (Hd : -255 <= x - y <= 255) by lia.
    generalize dependent (x - y). intros d Hd. nia. }
  pose proof (Hsq _ _ Hr Hr'). pose proof (Hsq _ _ Hg Hg'). pose proof (Hsq _ _ Hb Hb').
  rewrite Z.mod_small by lia. ring.
Qed.

(** C7: on a non-empty palette, [find_closest_by_index] returns the index of
    an entry of minimal squared Euclidean distance over red, green and blue
    (alpha plays no part), and the lowest such index when several entries
    attain the minimum. *)
Theorem find_closest_by_index_nearest (self : BitmapPixel) (pal : BitmapPalette) :
  pixel_wf self -> Forall pixel_wf pal -> pal <> [] ->
  exists i q,
    find_closest_by_index self pal = Some i /\ pal !! i = Some q /\
    (forall j q', pal !! j = Some q' -> rgb_distance_sq self q <= rgb_distance_sq self q') /\
    (forall j q', (j < i)%nat -> pal !! j = Some q' ->
       rgb_distance_sq self q < rgb_distance_sq self q').
Proof.
  intros Hself Hpal Hne.
  destruct (find_closest_by_index_spec self pal Hne) as (i & q & Hi & Hq & Hmin & Hfirst).
  assert (Hwf : forall j q', pal !! j = Some q' -> pixel_wf q').
  { intros j q' Hj. rewrite Forall_lookup in Hpal. exact (Hpal j q' Hj). }
  exists i, q. split; [exact Hi|]. split; [exact Hq|]. split.
  - intros j q' Hj. rewrite <- !distance_squared_exact by eauto. eauto.
  - intros j q' Hj Hl. rewrite <- !distance_squared_exact by eauto. eauto.
Qed.

Lemma find_closest_by_index_nearest_witness :
  (pixel_wf (rgb 10 10 10) /\ Forall pixel_wf [rgb 0 0 0; rgb 255 255 255] /\
   [rgb 0 0 0; rgb 255 255 255] <> []) /\
  find_closest_by_index (rgb 10 10 10) [rgb 0 0 0; rgb 255 255 255] = Some 0%nat.
Proof.
  assert (Hw : pixel_wf (rgb 10 10 10) /\ Forall pixel_wf [rgb 0 0 0; rgb 255 255 255] /\
               [rgb 0 0 0; rgb 255 255 255] <> []).
  { unfold pixel_wf, is_byte. simpl.
    repeat split; repeat constructor; simpl; try lia; discriminate. }
  split; [exact Hw|].
  destruct Hw as (H1 & H2 & H3).
  destruct (find_closest_by_index_nearest _ _ H1 H2 H3) as (i & q & Hi & _).
  rewrite Hi. vm_compute in Hi. symmetry. exact Hi.
Defined.

(** C9: on a non-empty palette, [find_closest_by_index] does not panic and
    returns an index below the palette's length. *)
Theorem find_closest_by_index_in_bounds (self : BitmapPixel) (pal : BitmapPalette) :
  pal <> [] ->
  exists i, find_closest_by_index self pal = Some i /\ (i < length pal)%nat.
Proof.
  intros Hne.
  destruct (find_closest_by_index_spec self pal Hne) as (i & q & Hi & Hq & _).
  exists i. split; [exact Hi|]. exact (lookup_lt_Some _ _ _ Hq).
Qed.

Lemma find_closest_by_index_in_bounds_witness :
  [rgb 0 0 0; rgb 255 255 255; rgb 200 200 200] <> [] /\
  exists i, find_closest_by_index (rgb 190 190 190)
              [rgb 0 0 0; rgb 255 255 255; rgb 200 200 200] = Some i /\
            (i < length [rgb 0 0 0; rgb 255 255 255; rgb 200 200 200])%nat.
Proof.
  split; [discriminate|].
  apply find_closest_by_index_in_bounds. discriminate.
Defined.

(** ** Color to alpha *)

(** C10: [color_to_alpha] clears the alpha of exactly the pixels whose red,
    green and blue equal those of the target (the target's alpha is
    ignored) and leaves everything else of the bitmap as it was. *)
Theorem color_to_alpha_frame (bm : Bitmap) (color : BitmapPixel) :
  let bm' := color_to_alpha bm color in
  bm'.(file_header) = bm.(file_header) /\
  bm'.(info_header) = bm.(info_header) /\
  bm'.(palette) = bm.(palette) /\
  length bm'.(image_data) = length bm.(image_data) /\
  (forall i p, bm.(image_data) !! i = Some p ->
     exists p', bm'.(image_data) !! i = Some p' /\
       p'.(red) = p.(red) /\ p'.(green) = p.(green) /\ p'.(blue) = p.(blue) /\
       (p.(red) = color.(red) /\ p.(green) = color.(green) /\ p.(blue) = color.(blue) ->
          p'.(alpha) = 0) /\
       (~ (p.(red) = color.(red) /\ p.(green) = color.(green) /\ p.(blue) = color.(blue)) ->
          p'.(alpha) = p.(alpha))).
Proof.
  simpl. split; [reflexivity|]. split; [reflexivity|]. split; [reflexivity|].
  split; [apply length_map|].
  intros i p Hp. rewrite list_lookup_fmap, Hp. simpl.
  eexists. split; [reflexivity|].
  unfold same_color_as.
  destruct (Z.eqb_spec (red p) (red color)), (Z.eqb_spec (green p) (green color)),
    (Z.eqb_spec (blue p) (blue color)); simpl; repeat split; auto; intros; tauto.
Qed.

(** ** Channel scaling *)

(** The bounds the 16-bit codecs pass for a channel field at most 8 bits
    wide: one of them is [0xff], the other is in [1, 0xff]; checked
    exhaustively. *)
Lemma codec_bounds_checked :
  forallb (fun o : nat => map_zero_based_truncates_at 255 (Z.of_nat o)
                          && map_zero_based_truncates_at (Z.of_nat o) 255)
          (seq 1 255) = true.
Proof. vm_compute. reflexivity. Qed.

Lemma map_zero_based_truncates_at_spec (from to v : Z) :
  map_zero_based_truncates_at from to = true -> is_byte v ->
  map_zero_based v from to = Z.min 255 (v * to / from).
Proof.
  intros Hat Hv.
  unfold map_zero_based_truncates_at in Hat. rewrite forallb_forall in Hat.
  unfold is_byte in Hv.
  specialize (Hat (Z.to_nat v) ltac:(apply in_seq; lia)).
  rewrite Z2Nat.id in Hat by lia. apply Z.eqb_eq in Hat. exact Hat.
Qed.

(** C6 (counterexample): [map_zero_based] truncates instead of rounding:
    scaling 5 from [0xff] to [0x1f] gives 0, while the rounded linear
    rescale is 1; scaling 16 from [0x1f] to [0xff] gives 131, not 132. *)
Lemma map_zero_based_not_rounded :
  map_zero_based 5 255 31 = 0 /\ scale_rounded_spec 5 255 31 = 1 /\
  map_zero_based 16 31 255 = 131 /\ scale_rounded_spec 16 31 255 = 132.
Proof. vm_compute. repeat split. Qed.

(** C6 (amended): [map_zero_based] leaves the value unchanged when
    [from == to] or [from == 0]; otherwise, for the bounds the codecs use
    (one bound [0xff] and the other in [1, 0xff]), it returns the linear
    rescale [v * to / from] truncated toward zero and saturated at [0xff]. *)
Theorem map_zero_based_truncates (v from to : Z) :
  is_byte v ->
  ((from = to \/ from = 0) -> map_zero_based v from to = v) /\
  ((from = 255 /\ 1 <= to <= 255 \/ to = 255 /\ 1 <= from <= 255) ->
     map_zero_based v from to = Z.min 255 (v * to / from)).
Proof.
  intros Hv. split.
  - intros Hft. unfold map_zero_based.
    destruct Hft as [->| ->]; rewrite ?Z.eqb_refl, ?orb_true_l, ?orb_true_r; reflexivity.
  - intros Hb.
    pose proof codec_bounds_checked as Hc. rewrite forallb_forall in Hc.
    apply map_zero_based_truncates_at_spec; [|exact Hv].
    destruct Hb as [[-> Ht]|[-> Hf]].
    + specialize (Hc (Z.to_nat to) ltac:(apply in_seq; lia)). cbv beta in Hc.
      apply andb_true_iff in Hc as [Hc _]. rewrite Z2Nat.id in Hc by lia. exact Hc.
    + specialize (Hc (Z.to_nat from) ltac:(apply in_seq; lia)). cbv beta in Hc.
      apply andb_true_iff in Hc as [_ Hc]. rewrite Z2Nat.id in Hc by lia. exact Hc.
Qed.

Lemma map_zero_based_truncates_witness :
  is_byte 16 /\ map_zero_based 16 31 255 = 131.
Proof.
  split; [unfold is_byte; lia|].
  destruct (map_zero_based_truncates 16 31 255 ltac:(unfold is_byte; lia)) as [_ H].
  rewrite H by lia. reflexivity.
Defined.

(** ** Header validation in [Bitmap::from_data] *)

Lemma slice_prefix (data : list Z) (n : nat) :
  (n <= length data)%nat -> slice data 0 (Z.of_nat n) = Some (take n data).
Proof.
  intros Hn. unfold slice.
  replace ((0 <=? 0) && (0 <=? Z.of_nat n) && (Z.of_nat n <=? Z.of_nat (length data)))
    with true by (symmetry; repeat rewrite andb_true_iff; repeat split; lia).
  rewrite drop_0. f_equal. f_equal. lia.
Qed.

Lemma slice_suffix (data : list Z) (n : nat) :
  (n <= length data)%nat ->
  slice data (Z.of_nat n) (Z.of_nat (length data)) = Some (drop n data).
Proof.
  intros Hn. unfold slice.
  replace ((0 <=? Z.of_nat n) && (Z.of_nat n <=? Z.of_nat (length data))
           && (Z.of_nat (length data) <=? Z.of_nat (length data)))
    with true by (symmetry; repeat rewrite andb_true_iff; repeat split; lia).
  rewrite Nat2Z.id. f_equal. apply take_ge. rewrite length_drop. lia.
Qed.

(** The five header faults of [Bitmap::from_data], each an [Err] value,
    for a buffer holding both headers. *)
Lemma from_data_header_faults (data : list Z) (fh : BitmapFileHeader) :
  (14 <= length data)%nat ->
  file_header_from_data (take 14 data) = Some fh ->
  (file_header_validate fh = false -> bitmap_from_data data = Some (inl InvalidBitmap)) /\
  (forall ih : BitmapInfoHeader,
     file_header_validate fh = true ->
     info_header_from_data (drop 14 data) = Some ih ->
     (ih.(info_header_size) <> 40 -> ih.(info_header_size) <> 56 ->
      bitmap_from_data data = Some (inl (UnsupportedInfoHeaderSize ih.(info_header_size))))
     /\
     ((ih.(info_header_size) = 40 \/ ih.(info_header_size) = 56) ->
      compression_from_u32 ih.(compression_type) <> Uncompressed ->
      compression_from_u32 ih.(compression_type) <> BitFields ->
      bitmap_from_data data
      = Some (inl (UnsupportedCompressionType (compression_from_u32 ih.(compression_type)))))
     /\
     ((ih.(info_header_size) = 40 \/ ih.(info_header_size) = 56) ->
      (compression_from_u32 ih.(compression_type) = Uncompressed
       \/ compression_from_u32 ih.(compression_type) = BitFields) ->
      ih.(n_planes) <> 1 ->
      bitmap_from_data data = Some (inl (UnsupportedNumberOfPlanes ih.(n_planes))))).
Proof.
  intros Hlen Hfh.
  assert (Hs0 : slice data 0 FILE_HEADER_SIZE = Some (take 14 data))
    by exact (slice_prefix data 14 Hlen).
  assert (Hs1 : slice data FILE_HEADER_SIZE (Z.of_nat (length data)) = Some (drop 14 data))
    by exact (slice_suffix data 14 Hlen).
  split.
  - intros Hv. unfold bitmap_from_data. rewrite Hs0. simpl. rewrite Hfh. simpl.
    rewrite Hv. reflexivity.
  - intros ih Hv Hih.
    unfold bitmap_from_data. rewrite Hs0. simpl. rewrite Hfh. simpl. rewrite Hv. simpl.
    rewrite Hs1. simpl. rewrite Hih. simpl.
    repeat split.
    + intros H40 H56.
      replace (negb ((info_header_size ih =? 40) || (info_header_size ih =? 56))) with true
        by (symmetry; apply negb_true_iff, orb_false_iff; split; apply Z.eqb_neq; assumption).
      reflexivity.
    + intros Hsz HU HB.
      replace (negb ((info_header_size ih =? 40) || (info_header_size ih =? 56))) with false
        by (symmetry; apply negb_false_iff, orb_true_iff;
            destruct Hsz as [-> | ->]; [left | right]; reflexivity).
      destruct (compression_from_u32 (compression_type ih)); congruence.
    + intros Hsz Hc Hp.
      replace (negb ((info_header_size ih =? 40) || (info_header_size ih =? 56))) with false
        by (symmetry; apply negb_false_iff, orb_true_iff;
            destruct Hsz as [-> | ->]; [left | right]; reflexivity).
      replace (negb (n_planes ih =? 1)) with true
        by (symmetry; apply negb_true_iff, Z.eqb_neq; assumption).
      destruct Hc as [-> | ->]; reflexivity.
Qed.

(** C3 (counterexample): a 13-byte buffer whose first two bytes are not the
    magic number makes [Bitmap::from_data] panic on [data_slice[0 .. 14]]
    instead of returning an error. *)
Lemma bitmap_from_data_short_buffer_panics :
  le_value (take 2 (repeat 0 13)) <> BMP_MAGIC_NUMBER /\
  bitmap_from_data (repeat 0 13) = None.
Proof. split; [discriminate | reflexivity]. Qed.

(** C3 (amended): for a buffer of at least 14 bytes, a wrong magic number
    or a nonzero reserved field gives [Err(InvalidBitmap)]; when the file
    header is valid and the info header can be read (the buffer holds it,
    56 bytes when the size field exceeds 40, and the height is not
    [i32::MIN]), a header size other than 40 and 56, a compression other
    than Uncompressed and BitFields, and a plane count other than 1 give
    [Err(UnsupportedInfoHeaderSize)], [Err(UnsupportedCompressionType)] and
    [Err(UnsupportedNumberOfPlanes)], checked in that order. *)
Theorem bitmap_from_data_rejects (data : list Z) (fh : BitmapFileHeader) :
  (14 <= length data)%nat ->
  file_header_from_data (take 14 data) = Some fh ->
  (file_header_validate fh = false -> bitmap_from_data data = Some (inl InvalidBitmap)) /\
  (forall ih : BitmapInfoHeader,
     file_header_validate fh = true ->
     info_header_from_data (drop 14 data) = Some ih ->
     (ih.(info_header_size) <> 40 -> ih.(info_header_size) <> 56 ->
      bitmap_from_data data = Some (inl (UnsupportedInfoHeaderSize ih.(info_header_size))))
     /\
     ((ih.(info_header_size) = 40 \/ ih.(info_header_size) = 56) ->
      compression_from_u32 ih.(compression_type) <> Uncompressed ->
      compression_from_u32 ih.(compression_type) <> BitFields ->
      bitmap_from_data data
      = Some (inl (UnsupportedCompressionType (compression_from_u32 ih.(compression_type)))))
     /\
     ((ih.(info_header_size) = 40 \/ ih.(info_header_size) = 56) ->
      (compression_from_u32 ih.(compression_type) = Uncompressed
       \/ compression_from_u32 ih.(compression_type) = BitFields) ->
      ih.(n_planes) <> 1 ->
      bitmap_from_data data = Some (inl (UnsupportedNumberOfPlanes ih.(n_planes))))).
Proof. exact (from_data_header_faults data fh). Qed.

Lemma bitmap_from_data_rejects_witness :
  (14 <= length (repeat 0 14))%nat /\
  file_header_from_data (take 14 (repeat 0 14)) = Some (mkFileHeader 0 0 0 0 0) /\
  bitmap_from_data (repeat 0 14) = Some (inl InvalidBitmap).
Proof.
  split; [simpl; lia|]. split; [reflexivity|].
  apply (bitmap_from_data_rejects (repeat 0 14) (mkFileHeader 0 0 0 0 0));
    [simpl; lia | reflexivity | reflexivity].
Defined.

(** ** Unsupported pixel formats *)

Lemma unsupported_format_panics (ih : BitmapInfoHeader) (pal : option BitmapPalette)
    (data d : list Z) (pixels : list BitmapPixel) :
  supported_format ih.(compression_type) ih.(bits_per_pixel) = false ->
  interpret_image_data data ih pal = None /\ pixels_into_data pixels d ih pal = None.
Proof.
  unfold supported_format, interpret_image_data, pixels_into_data.
  destruct (compression_type ih =? compression_code BitFields);
  destruct (compression_type ih =? compression_code Uncompressed);
  destruct (bits_per_pixel ih =? 32); destruct (bits_per_pixel ih =? 24);
  destruct (bits_per_pixel ih =? 16); destruct (bits_per_pixel ih =? 8);
  destruct (bits_per_pixel ih =? 4); destruct (bits_per_pixel ih =? 1);
  simpl; intros H; try discriminate; split; reflexivity.
Qed.

(** C4 (counterexample): a complete file with valid headers in the 2-bit
    uncompressed format makes [Bitmap::from_data] panic (in
    [interpret_image_data]) instead of returning an error, and
    [pixels_into_data] panics on an 8-bit BitFields header. *)
Lemma unsupported_format_not_an_error :
  supported_format 0 2 = false /\
  bitmap_from_data two_bit_file = None /\
  pixels_into_data [transparent] []
    (mkInfoHeader 56 1 1 1 8 3 4 0 0 0 0 4278190080 16711680 65280 255 false) None
  = None.
Proof. split; [reflexivity | split; reflexivity]. Qed.

Lemma crop_to_rect_out_of_bounds (bm : Bitmap) (x0 y0 width height : Z) :
  (as_u32 bm.(info_header).(image_width) <= x0
   \/ as_u32 bm.(info_header).(image_height) <= y0) \/
  (x0 + width < 2 ^ 32 /\ y0 + height < 2 ^ 32 /\
   (as_u32 bm.(info_header).(image_width) < x0 + width
    \/ as_u32 bm.(info_header).(image_height) < y0 + height)) ->
  crop_to_rect bm x0 y0 width height = Some (inl InvalidOperation).
Proof.
  intros H. unfold crop_to_rect.
  destruct ((as_u32 (image_width (info_header bm)) <=? x0)
            || (as_u32 (image_height (info_header bm)) <=? y0)) eqn:E1; [reflexivity|].
  apply orb_false_iff in E1 as [E1 E2]. apply Z.leb_gt in E1, E2.
  destruct H as [[H | H] | (Hx & Hy & H)]; [lia | lia |].
  unfold u32_add.
  replace (x0 + width <? 2 ^ 32) with true by (symmetry; apply Z.ltb_lt; lia).
  simpl.
  destruct (as_u32 (image_width (info_header bm)) <? x0 + width) eqn:E3; [reflexivity|].
  apply Z.ltb_ge in E3.
  replace (y0 + height <? 2 ^ 32) with true by (symmetry; apply Z.ltb_lt; lia).
  simpl.
  replace (as_u32 (image_height (info_header bm)) <? y0 + height) with true
    by (symmetry; apply Z.ltb_lt; lia).
  reflexivity.
Qed.

(** C4 (amended): an unsupported (compression, bits per pixel) pair, such
    as 8-bit BitFields or 2-bit Uncompressed, is not an error value: both
    [interpret_image_data] and [pixels_into_data] panic on it. A crop
    rectangle outside the image is an [Err(InvalidOperation)] value (when
    its [u32] bounds do not overflow), as are the header faults of
    [Bitmap::from_data] (see C3). *)
Theorem unsupported_formats_panic_crop_errors :
  (forall (ih : BitmapInfoHeader) (pal : option BitmapPalette) (data d : list Z)
          (pixels : list BitmapPixel),
     supported_format ih.(compression_type) ih.(bits_per_pixel) = false ->
     interpret_image_data data ih pal = None /\ pixels_into_data pixels d ih pal = None) /\
  (forall (bm : Bitmap) (x0 y0 width height : Z),
     (as_u32 bm.(info_header).(image_width) <= x0
      \/ as_u32 bm.(info_header).(image_height) <= y0) \/
     (x0 + width < 2 ^ 32 /\ y0 + height < 2 ^ 32 /\
      (as_u32 bm.(info_header).(image_width) < x0 + width
       \/ as_u32 bm.(info_header).(image_height) < y0 + height)) ->
     crop_to_rect bm x0 y0 width height = Some (inl InvalidOperation)).
Proof.
  split.
  - intros ih pal data d pixels. apply unsupported_format_panics.
  - apply crop_to_rect_out_of_bounds.
Qed.

Lemma unsupported_formats_panic_crop_errors_witness :
  interpret_image_data [0; 0; 0; 0]
    (mkInfoHeader 40 1 1 1 2 0 4 0 0 0 0 0 0 0 0 false) None = None /\
  crop_to_rect (mkBitmap (file_header_new 58 54)
                  (mkInfoHeader 40 1 1 1 32 0 4 0 0 0 0 0 0 0 0 false) None
                  [transparent]) 1 0 1 1
  = Some (inl InvalidOperation).
Proof.
  destruct unsupported_formats_panic_crop_errors as [H1 H2]. split.
  - apply (H1 _ None [0; 0; 0; 0] [] []). reflexivity.
  - apply H2. left. left. vm_compute. discriminate.
Defined.

(** ** Vertical mirror *)

Lemma swap_loop_spec {A} (n : nat) : forall (s0 s1 : nat) (l : list A),
  (s0 + n <= s1)%nat -> (s1 + n <= length l)%nat ->
  exists l',
    swap_slice_regions_loop n l (Z.of_nat s0) (Z.of_nat (s0 + n))
      (Z.of_nat s1) (Z.of_nat (s1 + n)) = Some l' /\
    length l' = length l /\
    forall i, l' !! i = l !! swap_index s0 s1 n i.
Proof.
  induction n as [|n IH]; intros s0 s1 l H01 Hlen.
  - exists l. split; [reflexivity|]. split; [reflexivity|].
    intros i. unfold swap_index.
    repeat destruct (decide _); try lia. reflexivity.
  - cbn [swap_slice_regions_loop].
    replace ((Z.of_nat s0 <? Z.of_nat (s0 + S n)) && (Z.of_nat s1 <? Z.of_nat (s1 + S n)))
      with true by (symmetry; apply andb_true_iff; split; apply Z.ltb_lt; lia).
    rewrite !Nat2Z.id.
    destruct (lookup_lt_is_Some_2 l s0) as [x0 Hx0]; [lia|].
    destruct (lookup_lt_is_Some_2 l s1) as [x1 Hx1]; [lia|].
    rewrite Hx0, Hx1. simpl.
    set (l1 := <[s1:=x0]> (<[s0:=x1]> l)).
    assert (Hl1 : length l1 = length l) by (unfold l1; rewrite !length_insert; reflexivity).
    destruct (IH (S s0) (S s1) l1) as (l' & Hrun & Hlen' & Hlk); [lia | lia |].
    replace (Z.of_nat s0 + 1) with (Z.of_nat (S s0)) by lia.
    replace (Z.of_nat s1 + 1) with (Z.of_nat (S s1)) by lia.
    replace (Z.of_nat (s0 + S n)) with (Z.of_nat (S s0 + n)) by lia.
    replace (Z.of_nat (s1 + S n)) with (Z.of_nat (S s1 + n)) by lia.
    exists l'. split; [exact Hrun|]. split; [lia|].
    intros i. rewrite Hlk. unfold l1, swap_index.
    repeat destruct (decide _); rewrite ?list_lookup_insert;
      repeat destruct (decide _); rewrite ?list_lookup_insert;
      rewrite ?length_insert in *;
      repeat destruct (decide _); try lia;
      first [ f_equal; lia | rewrite <- Hx0; f_equal; lia | rewrite <- Hx1; f_equal; lia ].
Qed.

Lemma swap_index_rows (W r m row c : nat) :
  (c < W)%nat -> (r < m)%nat ->
  swap_index (r * W) (m * W) W (row * W + c)
  = ((if decide (row = r) then m else if decide (row = m) then r else row) * W + c)%nat.
Proof.
  intros Hc Hrm. unfold swap_index.
  destruct (decide (row = r)) as [->|Hr].
  - destruct (decide _); [lia|]. nia.
  - destruct (decide (row = m)) as [->|Hm].
    + destruct (decide _) as [Hin|]; [|destruct (decide _); [lia|nia]].
      exfalso. destruct Hin as [H1 H2].
      assert (r < m)%nat by lia. nia.
    + destruct (decide _) as [Hin|].
      * exfalso. destruct Hin as [H1 H2].
        destruct (Nat.lt_trichotomy row r) as [Hlt|[Heq|Hgt]]; [nia | lia | nia].
      * destruct (decide _) as [Hin|]; [|reflexivity].
        exfalso. destruct Hin as [H1 H2].
        destruct (Nat.lt_trichotomy row m) as [Hlt|[Heq|Hgt]]; [nia | lia | nia].
Qed.

Lemma mirror_rows_spec (W h : nat) :
  (Z.of_nat W < 2 ^ 31) -> (Z.of_nat h < 2 ^ 31) ->
  forall (count r : nat) (l : list BitmapPixel),
  (r + count <= h / 2)%nat -> length l = (W * h)%nat ->
  exists l',
    mirror_rows count (Z.of_nat r) (Z.of_nat h) (Z.of_nat W) l = Some l' /\
    length l' = length l /\
    forall row c, (c < W)%nat -> (row < h)%nat ->
      l' !! (row * W + c)%nat = l !! (row_map h r (r + count) row * W + c)%nat.
Proof.
  intros HW Hh count.
  assert (Hh2 : (2 * (h / 2) <= h)%nat) by apply Nat.Div0.mul_div_le.
  induction count as [|count IH]; intros r l Hr Hlen.
  - exists l. split; [reflexivity|]. split; [reflexivity|].
    intros row c Hc Hrow. unfold row_map. destruct (decide _); [lia|]. reflexivity.
  - set (m := (h - 1 - r)%nat).
    assert (Hrm : (r < m)%nat) by (unfold m; lia).
    cbn [mirror_rows].
    assert (Hmir : as_usize (Z.of_nat h) - Z.of_nat r - 1 = Z.of_nat m).
    { unfold as_usize. rewrite Z.mod_small by lia. unfold m. lia. }
    rewrite Hmir.
    replace (Z.of_nat m <? 0) with false by (symmetry; apply Z.ltb_ge; lia).
    assert (HrW : Z.of_nat r * Z.of_nat W < 2 ^ 62) by nia.
    assert (HmW : Z.of_nat m * Z.of_nat W < 2 ^ 62) by nia.
    unfold usize_mul, usize_add.
    replace (Z.of_nat r * Z.of_nat W <? 2 ^ 64) with true by (symmetry; apply Z.ltb_lt; nia).
    replace (Z.of_nat m * Z.of_nat W <? 2 ^ 64) with true by (symmetry; apply Z.ltb_lt; nia).
    cbn.
    replace (Z.of_nat r * Z.of_nat W + Z.of_nat W <? 2 ^ 64) with true
      by (symmetry; apply Z.ltb_lt; nia).
    replace (Z.of_nat m * Z.of_nat W + Z.of_nat W <? 2 ^ 64) with true
      by (symmetry; apply Z.ltb_lt; nia).
    cbn. unfold swap_slice_regions.
    replace (Z.to_nat (Z.min (Z.of_nat r * Z.of_nat W + Z.of_nat W - Z.of_nat r * Z.of_nat W)
                             (Z.of_nat m * Z.of_nat W + Z.of_nat W - Z.of_nat m * Z.of_nat W)))
      with W by lia.
    destruct (swap_loop_spec W (r * W) (m * W) l) as (l1 & Hrun & Hlen1 & Hlk1);
      [nia | nia |].
    replace (Z.of_nat r * Z.of_nat W) with (Z.of_nat (r * W)) by lia.
    replace (Z.of_nat m * Z.of_nat W) with (Z.of_nat (m * W)) by lia.
    replace (Z.of_nat (r * W) + Z.of_nat W) with (Z.of_nat (r * W + W)) by lia.
    replace (Z.of_nat (m * W) + Z.of_nat W) with (Z.of_nat (m * W + W)) by lia.
    rewrite Hrun. cbn.
    destruct (IH (S r) l1) as (l' & Hrun' & Hlen' & Hlk'); [lia | lia |].
    replace (Z.of_nat r + 1) with (Z.of_nat (S r)) by lia.
    exists l'. split; [exact Hrun'|]. split; [lia|].
    intros row c Hc Hrow. rewrite Hlk' by assumption. rewrite Hlk1.
    rewrite swap_index_rows by assumption. f_equal.
    enough (E : (if decide (row_map h (S r) (S r + count) row = r) then m
                 else if decide (row_map h (S r) (S r + count) row = m) then r
                 else row_map h (S r) (S r + count) row)
                = row_map h r (r + S count) row) by (rewrite E; reflexivity).
    unfold row_map, m.
    repeat destruct (decide _); lia.
Qed.

Lemma mirror_vertically_spec (bm : Bitmap) :
  0 <= bm.(info_header).(image_width) < 2 ^ 31 ->
  0 <= bm.(info_header).(image_height) < 2 ^ 31 ->
  length bm.(image_data)
  = Z.to_nat (bm.(info_header).(image_width) * bm.(info_header).(image_height)) ->
  exists l',
    mirror_vertically bm = Some (mkBitmap bm.(file_header) bm.(info_header) bm.(palette) l')
    /\ length l' = length bm.(image_data)
    /\ forall row c : nat,
         (c < Z.to_nat bm.(info_header).(image_width))%nat ->
         (row < Z.to_nat bm.(info_header).(image_height))%nat ->
         l' !! (row * Z.to_nat bm.(info_header).(image_width) + c)%nat
         = bm.(image_data) !! ((Z.to_nat bm.(info_header).(image_height) - 1 - row)
                                * Z.to_nat bm.(info_header).(image_width) + c)%nat.
Proof.
  destruct bm as [fh ih pal l]. cbn [file_header info_header palette image_data].
  intros Hw Hh Hlen.
  set (W := Z.to_nat (image_width ih)). set (H := Z.to_nat (image_height ih)).
  assert (EW : image_width ih = Z.of_nat W) by (unfold W; lia).
  assert (EH : image_height ih = Z.of_nat H) by (unfold H; lia).
  assert (Hlen' : length l = (W * H)%nat) by (rewrite Hlen, EW, EH; lia).
  unfold mirror_vertically. cbn [file_header info_header palette image_data].
  assert (Erows : Z.to_nat (as_usize (Z.quot (image_height ih) 2)) = (H / 2)%nat).
  { rewrite EH, Z.quot_div_nonneg by lia.
    replace 2 with (Z.of_nat 2) by reflexivity. rewrite <- Nat2Z.inj_div.
    unfold as_usize. rewrite Z.mod_small; [apply Nat2Z.id|].
    pose proof (Nat.Div0.mul_div_le H 2). lia. }
  assert (Estride : as_usize (image_width ih) = Z.of_nat W)
    by (unfold as_usize; rewrite Z.mod_small; lia).
  rewrite Erows, Estride, EH.
  destruct (mirror_rows_spec W H ltac:(lia) ltac:(lia) (H / 2) 0 l ltac:(lia) Hlen')
    as (l' & Hrun & Hlen2 & Hlk).
  change (Z.of_nat 0) with 0 in Hrun.
  rewrite Hrun. exists l'. split; [reflexivity|]. split; [exact Hlen2|].
  intros row c Hc Hrow. rewrite Hlk by assumption. f_equal.
  pose proof (Nat.div_mod_eq H 2). pose proof (Nat.mod_upper_bound H 2).
  unfold row_map. destruct (decide _); [reflexivity|].
  replace (H - 1 - row)%nat with row by lia. reflexivity.
Qed.

(** C8 (counterexample): [Bitmap::new(-2, -2, 0, Uncompressed)] holds
    [(-2) * (-2) = 4] pixels, but [mirror_vertically] on it panics: the
    stride [-2 as usize] times the mirrored row index overflows [usize]. *)
Lemma mirror_vertically_negative_dimensions :
  exists bm,
    bitmap_new (-2) (-2) 0 Uncompressed = Some bm /\
    Z.of_nat (length bm.(image_data))
    = bm.(info_header).(image_width) * bm.(info_header).(image_height) /\
    mirror_vertically bm = None.
Proof.
  eexists. split; [reflexivity|]. split; [reflexivity|].
  unfold mirror_vertically. cbn [info_header image_height image_width image_data].
  assert (Erows : Z.to_nat (as_usize (Z.quot (-2) 2)) = S (Z.to_nat (2 ^ 64 - 2))).
  { replace (as_usize (Z.quot (-2) 2)) with (Z.succ (2 ^ 64 - 2)) by reflexivity.
    apply Z2Nat.inj_succ. lia. }
  rewrite Erows. generalize (Z.to_nat (2 ^ 64 - 2)). intros n.
  reflexivity.
Qed.

(** C8 (amended): for a bitmap whose width and height are nonnegative
    [i32] values and whose pixel sequence has length
    [image_width * image_height], [mirror_vertically] does not panic and
    applying it twice gives back the bitmap, pixel sequence included. *)
Theorem mirror_vertically_involutive (bm : Bitmap) :
  0 <= bm.(info_header).(image_width) < 2 ^ 31 ->
  0 <= bm.(info_header).(image_height) < 2 ^ 31 ->
  length bm.(image_data)
  = Z.to_nat (bm.(info_header).(image_width) * bm.(info_header).(image_height)) ->
  (bm1 ← mirror_vertically bm; mirror_vertically bm1) = Some bm.
Proof.
  intros Hw Hh Hlen.
  destruct (mirror_vertically_spec bm Hw Hh Hlen) as (l1 & E1 & Hl1 & Hk1).
  rewrite E1. simpl.
  destruct (mirror_vertically_spec
              (mkBitmap (file_header bm) (info_header bm) (palette bm) l1)
              Hw Hh ltac:(simpl; lia)) as (l2 & E2 & Hl2 & Hk2).
  rewrite E2. simpl in *. destruct bm as [fh ih pal l]. simpl in *.
  do 2 f_equal.
  set (W := Z.to_nat (image_width ih)) in *. set (H := Z.to_nat (image_height ih)) in *.
  assert (HWH : length l = (W * H)%nat) by (rewrite Hlen; unfold W, H; lia).
  apply list_eq. intros i.
  destruct (decide (i < W * H)%nat) as [Hi|Hi].
  - assert (HW : W <> 0%nat) by (intros ->; lia).
    pose proof (Nat.div_mod_eq i W) as Ei. pose proof (Nat.mod_upper_bound i W HW).
    assert (Hq : (i / W < H)%nat) by nia.
    replace i with (i / W * W + i mod W)%nat by lia.
    rewrite Hk2 by assumption. rewrite Hk1 by lia.
    f_equal. f_equal. f_equal. lia.
  - rewrite !lookup_ge_None_2 by lia. reflexivity.
Qed.

Lemma mirror_vertically_involutive_witness :
  (bm1 ← mirror_vertically
           (mkBitmap (file_header_new 62 54)
              (mkInfoHeader 40 1 2 1 32 0 8 0 0 0 0 0 0 0 0 false) None
              [rgb 1 2 3; rgb 4 5 6]);
   mirror_vertically bm1)
  = Some (mkBitmap (file_header_new 62 54)
            (mkInfoHeader 40 1 2 1 32 0 8 0 0 0 0 0 0 0 0 false) None
            [rgb 1 2 3; rgb 4 5 6]).
Proof. apply mirror_vertically_involutive; simpl; lia. Defined.

(** ** Row-padded decoders *)

Lemma align_row (D : list Z) (rs x : nat) :
  (rs mod 4 = 0)%nat ->
  align_with_u32 (mkWalker D (rs + x)) = mkWalker D (rs + (x + pad_to_align_nat x 4)).
Proof.
  intros Hrs. unfold align_with_u32. cbn [walker_data current_index]. f_equal.
  unfold pad_to_align_nat.
  assert (E : ((rs + x) mod 4 = x mod 4)%nat).
  { rewrite (Nat.div_mod_eq rs 4), Hrs, Nat.add_0_r.
    rewrite Nat.add_comm, Nat.mul_comm. apply Nat.Div0.mod_add. }
  rewrite E. lia.
Qed.

Lemma row_size_spec (k W : nat) :
  (k * W <= row_size k W < k * W + 4)%nat /\ (row_size k W mod 4 = 0)%nat.
Proof.
  unfold row_size, pad_to_align_nat.
  pose proof (Nat.mod_upper_bound (k * W) 4 ltac:(lia)) as H1.
  destruct (decide ((k * W) mod 4 = 0)%nat) as [E|E].
  - rewrite E, Nat.sub_0_r, Nat.Div0.mod_same. split; [lia|]. rewrite Nat.add_0_r. exact E.
  - rewrite (Nat.mod_small (4 - (k * W) mod 4)) by lia. split; [lia|].
    rewrite (Nat.div_mod_eq (k * W) 4) at 1.
    replace (4 * (k * W / 4) + (k * W) mod 4 + (4 - (k * W) mod 4))%nat
      with ((k * W / 4 + 1) * 4)%nat by lia.
    apply Nat.Div0.mod_mul.
Qed.

Lemma decode_chunks_length dec k n bytes ps :
  decode_chunks dec k n bytes = Some ps -> length ps = n.
Proof.
  revert bytes ps. induction n as [|n IH]; intros bytes ps H; simpl in H.
  - injection H as <-. reflexivity.
  - destruct (dec (take k bytes)); [|discriminate]. simpl in H.
    destruct (decode_chunks dec k n (drop k bytes)) eqn:E; [|discriminate].
    simpl in H. injection H as <-. simpl. f_equal. eapply IH. exact E.
Qed.

Lemma decode_rows_length dec k W R m bytes ps :
  decode_rows dec k W R m bytes = Some ps -> length ps = (m * W)%nat.
Proof.
  revert bytes ps. induction m as [|m IH]; intros bytes ps H; simpl in H.
  - injection H as <-. reflexivity.
  - destruct (decode_chunks dec k W bytes) as [ps1|] eqn:E1; [|discriminate]. simpl in H.
    destruct (decode_rows dec k W R m (drop R bytes)) as [ps2|] eqn:E2; [|discriminate].
    simpl in H. injection H as <-. rewrite length_app.
    rewrite (decode_chunks_length _ _ _ _ _ E1), (IH _ _ E2). lia.
Qed.

Section RowReader.
Variable read_pixel : BytesWalker -> option (BitmapPixel * BytesWalker).
Variable dec : list Z -> option BitmapPixel.
Variable k : nat.
Hypothesis Hk : (1 <= k)%nat.
Hypothesis read_pixel_spec : forall (D : list Z) (j : nat),
  (j + k <= length D)%nat ->
  read_pixel (mkWalker D j) = (p ← dec (take k (drop j D)); Some (p, mkWalker D (j + k))).

Variable W : nat.
Hypothesis HW : (1 <= W)%nat.
Let R := row_size k W.

Lemma read_rows_loop_mid (f : nat) :
  (forall (m c rs : nat) (D : list Z) (acc : list BitmapPixel),
     (c <= W)%nat -> (rs mod 4 = 0)%nat -> length D = (rs + S m * R)%nat ->
     (W - c + m * W < f)%nat ->
     read_rows_loop read_pixel f (mkWalker D (rs + k * c)) (Z.of_nat c) acc (Z.of_nat W)
     = (ps ← decode_chunks dec k (W - c) (drop (rs + k * c) D);
        rest ← decode_rows dec k W R m (drop (rs + R) D);
        Some (acc ++ ps ++ rest))) ->
  forall (m c rs : nat) (D : list Z) (acc : list BitmapPixel),
    (c < W)%nat -> (rs mod 4 = 0)%nat -> length D = (rs + S m * R)%nat ->
    (W - c + m * W < S f)%nat ->
    read_rows_loop read_pixel (S f) (mkWalker D (rs + k * c)) (Z.of_nat c) acc (Z.of_nat W)
    = (ps ← decode_chunks dec k (W - c) (drop (rs + k * c) D);
       rest ← decode_rows dec k W R m (drop (rs + R) D);
       Some (acc ++ ps ++ rest)).
Proof.
  intros IH m c rs D acc Hc Hrs HD Hf.
  destruct (row_size_spec k W) as [[HR1 HR2] HR3]. fold R in HR1, HR2, HR3.
  cbn [read_rows_loop].
  unfold has_data. cbn [walker_data current_index].
  replace (rs + k * c <? length D)%nat with true by (symmetry; apply Nat.ltb_lt; nia).
  replace (Z.of_nat c =? Z.of_nat W) with false by (symmetry; apply Z.eqb_neq; lia).
  rewrite read_pixel_spec by nia.
  replace (W - c)%nat with (S (W - S c)) by lia. cbn [decode_chunks].
  destruct (dec (take k (drop (rs + k * c) D))) as [p|]; [|reflexivity]. simpl.
  replace (rs + k * c + k)%nat with (rs + k * S c)%nat by lia.
  replace (Z.of_nat c + 1) with (Z.of_nat (S c)) by lia.
  rewrite (IH m) by lia.
  rewrite drop_drop. replace (rs + k * c + k)%nat with (rs + k * S c)%nat by lia.
  destruct (decode_chunks dec k (W - S c) (drop (rs + k * S c) D)); [|reflexivity]. simpl.
  destruct (decode_rows dec k W R m (drop (rs + R) D)); [|reflexivity]. simpl.
  rewrite <- app_assoc. reflexivity.
Qed.

Lemma read_rows_loop_spec (f : nat) : forall (m c rs : nat) (D : list Z) (acc : list BitmapPixel),
  (c <= W)%nat -> (rs mod 4 = 0)%nat -> length D = (rs + S m * R)%nat ->
  (W - c + m * W < f)%nat ->
  read_rows_loop read_pixel f (mkWalker D (rs + k * c)) (Z.of_nat c) acc (Z.of_nat W)
  = (ps ← decode_chunks dec k (W - c) (drop (rs + k * c) D);
     rest ← decode_rows dec k W R m (drop (rs + R) D);
     Some (acc ++ ps ++ rest)).
Proof.
  destruct (row_size_spec k W) as [[HR1 HR2] HR3]. fold R in HR1, HR2, HR3.
  induction f as [|f IH]; intros m c rs D acc Hc Hrs HD Hf; [lia|].
  destruct (decide (c < W)%nat) as [Hlt|Hge].
  - apply read_rows_loop_mid; assumption.
  - assert (c = W) as -> by lia. rewrite Nat.sub_diag. cbn [decode_chunks].
    cbn [read_rows_loop]. unfold has_data. cbn [walker_data current_index].
    rewrite Z.eqb_refl.
    destruct m as [|m].
    + destruct (rs + k * W <? length D)%nat.
      * rewrite align_row by assumption. cbn [walker_data current_index].
        fold (row_size k W). fold R.
        replace (rs + R <? length D)%nat with false by (symmetry; apply Nat.ltb_ge; lia).
        simpl. rewrite !app_nil_r. reflexivity.
      * simpl. rewrite !app_nil_r. reflexivity.
    + replace (rs + k * W <? length D)%nat with true by (symmetry; apply Nat.ltb_lt; nia).
      rewrite align_row by assumption. cbn [walker_data current_index].
      fold (row_size k W). fold R.
      replace (rs + R <? length D)%nat with true by (symmetry; apply Nat.ltb_lt; nia).
      cbn [negb].
      transitivity (read_rows_loop read_pixel (S f) (mkWalker D (rs + R + k * 0))
                      (Z.of_nat 0) acc (Z.of_nat W)).
      * cbn [read_rows_loop]. unfold has_data. cbn [walker_data current_index].
        rewrite Nat.mul_0_r, Nat.add_0_r.
        replace (rs + R <? length D)%nat with true by (symmetry; apply Nat.ltb_lt; nia).
        replace (Z.of_nat 0 =? Z.of_nat W) with false by (symmetry; apply Z.eqb_neq; lia).
        reflexivity.
      * assert (Hrs' : ((rs + R) mod 4 = 0)%nat)
          by (rewrite Nat.Div0.add_mod, HR3, Hrs; reflexivity).
        rewrite (read_rows_loop_mid f IH m 0 (rs + R) D acc) by lia.
        rewrite Nat.mul_0_r, Nat.add_0_r, Nat.sub_0_r. cbn [decode_rows].
        rewrite drop_drop.
        destruct (decode_chunks dec k W (drop (rs + R) D)); [|reflexivity]. simpl.
        destruct (decode_rows dec k W R m (drop (rs + R + R) D)); reflexivity.
Qed.

Lemma read_rows_loop_full (D : list Z) (h : nat) :
  length D = (h * R)%nat ->
  read_rows_loop read_pixel (S (length D)) (walker_new D) 0 [] (Z.of_nat W)
  = decode_rows dec k W R h D.
Proof.
  destruct (row_size_spec k W) as [[HR1 HR2] HR3]. fold R in HR1, HR2, HR3.
  intros HD. destruct h as [|m].
  - destruct D; [|discriminate]. reflexivity.
  - replace (walker_new D) with (mkWalker D (0 + k * 0)) by (unfold walker_new; f_equal; lia).
    change 0 with (Z.of_nat 0).
    rewrite (read_rows_loop_spec (S (length D)) m) by (simpl in *; nia).
    rewrite Nat.sub_0_r, Nat.mul_0_r, drop_0. cbn [decode_rows]. simpl.
    destruct (decode_chunks dec k W D); [|reflexivity]. simpl.
    destruct (decode_rows dec k W R m (drop R D)); reflexivity.
Qed.
End RowReader.

Lemma walker_take_spec (D : list Z) (j n : nat) :
  (j + n <= length D)%nat ->
  walker_take (mkWalker D j) n = Some (take n (drop j D), mkWalker D (j + n)).
Proof.
  intros H. unfold walker_take. cbn [walker_data current_index].
  replace (j + n <=? length D)%nat with true by (symmetry; apply Nat.leb_le; lia).
  reflexivity.
Qed.

Lemma read_bgr_spec (D : list Z) (j : nat) :
  (j + 3 <= length D)%nat ->
  read_bgr (mkWalker D j) = (p ← dec_bgr (take 3 (drop j D)); Some (p, mkWalker D (j + 3))).
Proof.
  intros H. unfold read_bgr, dec_bgr, next_u8. cbn [walker_data current_index].
  rewrite !lookup_take_lt by lia. rewrite !lookup_drop.
  destruct (lookup_lt_is_Some_2 D j) as [b Hb]; [lia|].
  destruct (lookup_lt_is_Some_2 D (S j)) as [g Hg]; [lia|].
  destruct (lookup_lt_is_Some_2 D (S (S j))) as [r Hr]; [lia|].
  rewrite Nat.add_0_r, Hb. simpl. rewrite Nat.add_1_r, Hg. simpl.
  replace (j + 2)%nat with (S (S j)) by lia. rewrite Hr. simpl.
  do 3 f_equal. lia.
Qed.

Lemma read_palette_index_spec (pal : BitmapPalette) (D : list Z) (j : nat) :
  (j + 1 <= length D)%nat ->
  read_palette_index pal (mkWalker D j)
  = (p ← dec_palette_index pal (take 1 (drop j D)); Some (p, mkWalker D (j + 1))).
Proof.
  intros H. unfold read_palette_index, dec_palette_index, next_u8.
  cbn [walker_data current_index].
  rewrite !lookup_take_lt by lia. rewrite !lookup_drop, Nat.add_0_r.
  destruct (lookup_lt_is_Some_2 D j) as [b Hb]; [lia|]. rewrite Hb. simpl.
  destruct (pal !! Z.to_nat b); simpl; [|reflexivity]. do 3 f_equal. lia.
Qed.

Lemma read_555_spec (D : list Z) (j : nat) :
  (j + 2 <= length D)%nat ->
  read_555 (mkWalker D j) = (p ← dec_555 (take 2 (drop j D)); Some (p, mkWalker D (j + 2))).
Proof.
  intros H. unfold read_555, next_u16. rewrite walker_take_spec by lia. reflexivity.
Qed.

(** ** The 32-bit decoders *)

Lemma read_32_uncompressed_loop_spec (fuel : nat) : forall (n j : nat) (D : list Z) acc,
  length D = (j + 4 * n)%nat -> (n < fuel)%nat ->
  read_32_uncompressed_loop fuel (mkWalker D j) acc
  = (ps ← decode_chunks dec_32_uncompressed 4 n (drop j D); Some (acc ++ ps)).
Proof.
  induction fuel as [|fuel IH]; intros n j D acc HD Hf; [lia|].
  cbn [read_32_uncompressed_loop]. unfold has_data. cbn [walker_data current_index].
  destruct n as [|n].
  - replace (j <? length D)%nat with false by (symmetry; apply Nat.ltb_ge; lia).
    simpl. rewrite app_nil_r. reflexivity.
  - replace (j <? length D)%nat with true by (symmetry; apply Nat.ltb_lt; lia).
    unfold next_u8. cbn [walker_data current_index].
    destruct (lookup_lt_is_Some_2 D j) as [b Hb]; [lia|].
    destruct (lookup_lt_is_Some_2 D (S j)) as [g Hg]; [lia|].
    destruct (lookup_lt_is_Some_2 D (S (S j))) as [r Hr]; [lia|].
    destruct (lookup_lt_is_Some_2 D (S (S (S j)))) as [x Hx]; [lia|].
    rewrite Hb; simpl; rewrite Hg; simpl; rewrite Hr; simpl; rewrite Hx; simpl.
    rewrite (IH n) by lia.
    unfold dec_32_uncompressed.
    rewrite !lookup_take_lt by lia. rewrite !lookup_drop, Nat.add_0_r, Hb.
    rewrite Nat.add_1_r, Hg. replace (j + 2)%nat with (S (S j)) by lia. rewrite Hr.
    replace (j + 3)%nat with (S (S (S j))) by lia. rewrite Hx. simpl.
    rewrite drop_drop. replace (j + 4)%nat with (S (S (S (S j)))) by lia.
    destruct (decode_chunks _ 4 n (drop (S (S (S (S j)))) D)); [|reflexivity].
    simpl. rewrite <- app_assoc. reflexivity.
Qed.

Lemma read_32_bitfield_loop_spec (ro go bo ao am : Z) (fuel : nat) :
  forall (n j : nat) (D : list Z) acc,
  length D = (j + 4 * n)%nat -> (n < fuel)%nat ->
  read_32_bitfield_loop fuel (mkWalker D j) acc ro go bo ao am
  = (ps ← decode_chunks (dec_32_bitfield ro go bo ao am) 4 n (drop j D); Some (acc ++ ps)).
Proof.
  induction fuel as [|fuel IH]; intros n j D acc HD Hf; [lia|].
  cbn [read_32_bitfield_loop]. unfold has_data. cbn [walker_data current_index].
  destruct n as [|n].
  - replace (j <? length D)%nat with false by (symmetry; apply Nat.ltb_ge; lia).
    simpl. rewrite app_nil_r. reflexivity.
  - replace (j <? length D)%nat with true by (symmetry; apply Nat.ltb_lt; lia).
    unfold next_u32. rewrite walker_take_spec by lia. simpl.
    rewrite (IH n) by lia. rewrite drop_drop.
    destruct (decode_chunks (dec_32_bitfield ro go bo ao am) 4 n (drop (j + 4) D));
      [|reflexivity].
    simpl. rewrite <- app_assoc. reflexivity.
Qed.

(** ** The 4-bit decoder *)

Section Read4.
Variable pal : BitmapPalette.
Variable W : nat.
Hypothesis HW : (1 <= W)%nat.
Let B := ((W + 1) / 2)%nat.
Let R := row_size 1 B.

Lemma read_4_all (f : nat) :
  (forall (m rs : nat) (D : list Z) (acc : list BitmapPixel),
    (rs mod 4 = 0)%nat -> length D = (rs + S m * R)%nat -> (m * B < f)%nat ->
    read_4_uncompressed_loop f (mkWalker D (rs + B)) (Z.of_nat W) acc (Z.of_nat W) pal
    = (rest ← decode_4_rows pal W R m (drop (rs + R) D); Some (acc ++ rest))) /\
  (forall (m t rs : nat) (D : list Z) (acc : list BitmapPixel),
    (2 * t < W)%nat -> (rs mod 4 = 0)%nat -> length D = (rs + S m * R)%nat ->
    (B - t + m * B < f)%nat ->
    read_4_uncompressed_loop f (mkWalker D (rs + t)) (Z.of_nat (2 * t)) acc (Z.of_nat W) pal
    = (ps ← decode_4_row pal (W - 2 * t) (drop (rs + t) D);
       rest ← decode_4_rows pal W R m (drop (rs + R) D);
       Some (acc ++ ps ++ rest))).
Proof.
  destruct (row_size_spec 1 B) as [[HR1 HR2] HR3]. fold R in HR1, HR2, HR3.
  assert (HB1 : (2 * B = W \/ 2 * B = W + 1)%nat).
  { unfold B. pose proof (Nat.div_mod_eq (W + 1) 2).
    pose proof (Nat.mod_upper_bound (W + 1) 2). lia. }
  induction f as [|f [IHend IHmid]].
  { split; intros; lia. }
  assert (Hmid : forall (m t rs : nat) (D : list Z) (acc : list BitmapPixel),
    (2 * t < W)%nat -> (rs mod 4 = 0)%nat -> length D = (rs + S m * R)%nat ->
    (B - t + m * B < S f)%nat ->
    read_4_uncompressed_loop (S f) (mkWalker D (rs + t)) (Z.of_nat (2 * t)) acc
      (Z.of_nat W) pal
    = (ps ← decode_4_row pal (W - 2 * t) (drop (rs + t) D);
       rest ← decode_4_rows pal W R m (drop (rs + R) D);
       Some (acc ++ ps ++ rest))).
  { intros m t rs D acc Ht Hrs HD Hf.
    destruct (lookup_lt_is_Some_2 D (rs + t)) as [b Hb]; [nia|].
    assert (Hb' : drop (rs + t) D !! 0%nat = Some b)
      by (rewrite lookup_drop, Nat.add_0_r; exact Hb).
    cbn [read_4_uncompressed_loop]. unfold has_data. cbn [walker_data current_index].
    replace (rs + t <? length D)%nat with true by (symmetry; apply Nat.ltb_lt; nia).
    replace (Z.of_nat W <=? Z.of_nat (2 * t)) with false by (symmetry; apply Z.leb_gt; lia).
    unfold next_u8. cbn [walker_data current_index]. rewrite Hb.
    assert (Hsplit : (W - 2 * t = 1 \/ W - 2 * t = S (S (W - 2 * S t)))%nat) by lia.
    remember (Z.of_nat (2 * t)) as c eqn:Hc.
    destruct Hsplit as [E1|E1]; rewrite E1; cbn [decode_4_row]; rewrite Hb'.
    - simpl. unfold dec_4.
      destruct (pal !! Z.to_nat (Z.shiftr b 4)) as [p0|]; [|reflexivity]. simpl.
      destruct (pal !! Z.to_nat (Z.land b 15)) as [p1|]; [|reflexivity]. simpl.
      replace (c + 1 <? Z.of_nat W) with false by (symmetry; apply Z.ltb_ge; lia).
      replace (c + 1) with (Z.of_nat W) by lia.
      replace (S (rs + t)) with (rs + B)%nat by lia.
      rewrite (IHend m) by nia.
      destruct (decode_4_rows pal W R m (drop (rs + R) D)); [|reflexivity]. simpl.
      rewrite <- app_assoc. reflexivity.
    - remember (W - 2 * S t)%nat as e eqn:He.
      simpl. unfold dec_4.
      destruct (pal !! Z.to_nat (Z.shiftr b 4)) as [p0|]; [|reflexivity]. simpl.
      destruct (pal !! Z.to_nat (Z.land b 15)) as [p1|]; [|reflexivity]. simpl.
      replace (c + 1 <? Z.of_nat W) with true by (symmetry; apply Z.ltb_lt; lia).
      replace (c + 1 + 1) with (Z.of_nat (2 * S t)) by lia.
      rewrite drop_drop.
      replace (S (rs + t)) with (rs + S t)%nat by lia.
      replace (rs + t + 1)%nat with (rs + S t)%nat by lia.
      destruct (decide (2 * S t < W)%nat) as [Hlt|Hge].
      + rewrite (IHmid m) by nia. rewrite <- He.
        destruct (decode_4_row pal e (drop (rs + S t) D)); [|reflexivity]. simpl.
        destruct (decode_4_rows pal W R m (drop (rs + R) D)); [|reflexivity]. simpl.
        rewrite <- !app_assoc. reflexivity.
      + assert (e = 0%nat) by lia. subst e. rewrite H.
        replace (Z.of_nat (2 * S t)) with (Z.of_nat W) by lia.
        replace (rs + S t)%nat with (rs + B)%nat by lia.
        rewrite (IHend m) by nia. cbn [decode_4_row]. simpl.
        destruct (decode_4_rows pal W R m (drop (rs + R) D)); [|reflexivity]. simpl.
        rewrite <- !app_assoc. reflexivity. }
  split; [|exact Hmid].
  intros m rs D acc Hrs HD Hf.
  assert (Halign : align_with_u32 (mkWalker D (rs + B)) = mkWalker D (rs + R)).
  { rewrite (align_row D rs B Hrs). unfold R, row_size. rewrite Nat.mul_1_l. reflexivity. }
  cbn [read_4_uncompressed_loop]. unfold has_data. cbn [walker_data current_index].
  rewrite Z.leb_refl, Halign. cbn [walker_data current_index].
  destruct m as [|m].
  - destruct (rs + B <? length D)%nat.
    + replace (rs + R <? length D)%nat with false by (symmetry; apply Nat.ltb_ge; lia).
      simpl. rewrite app_nil_r. reflexivity.
    + simpl. rewrite app_nil_r. reflexivity.
  - replace (rs + B <? length D)%nat with true by (symmetry; apply Nat.ltb_lt; nia).
    replace (rs + R <? length D)%nat with true by (symmetry; apply Nat.ltb_lt; nia).
    cbn [negb].
    assert (Hrs' : ((rs + R) mod 4 = 0)%nat)
      by (rewrite Nat.Div0.add_mod, HR3, Hrs; reflexivity).
    transitivity (read_4_uncompressed_loop (S f) (mkWalker D (rs + R + 0)%nat)
                    (Z.of_nat (2 * 0)%nat) acc (Z.of_nat W) pal).
    + cbn [read_4_uncompressed_loop]. unfold has_data. cbn [walker_data current_index].
      rewrite Nat.add_0_r.
      replace (rs + R <? length D)%nat with true by (symmetry; apply Nat.ltb_lt; nia).
      replace (Z.of_nat W <=? Z.of_nat (2 * 0)%nat) with false by (symmetry; apply Z.leb_gt; lia).
      reflexivity.
    + rewrite (Hmid m 0%nat (rs + R)%nat D acc) by nia.
      rewrite Nat.add_0_r, Nat.sub_0_r. cbn [decode_4_rows]. rewrite drop_drop.
      destruct (decode_4_row pal W (drop (rs + R) D)); [|reflexivity]. simpl.
      destruct (decode_4_rows pal W R m (drop (rs + R + R) D)); reflexivity.
Qed.
Lemma read_4_full (h : nat) (D : list Z) :
  length D = (h * R)%nat ->
  read_4_uncompressed (walker_new D) [] (Z.of_nat W) pal = decode_4_rows pal W R h D.
Proof.
  intros HD. unfold read_4_uncompressed. cbn [walker_data walker_new].
  destruct h as [|m].
  - destruct D; [reflexivity|]. simpl in HD. lia.
  - destruct (row_size_spec 1 B) as [[HR1 HR2] HR3]. fold R in HR1, HR2, HR3.
    replace (walker_new D) with (mkWalker D (0 + 0)%nat) by reflexivity.
    change 0%Z with (Z.of_nat (2 * 0)%nat).
    rewrite (proj2 (read_4_all (S (length D))) m 0%nat 0%nat D []) by (simpl; nia).
    rewrite Nat.sub_0_r, Nat.add_0_l, drop_0. cbn [decode_4_rows].
    destruct (decode_4_row pal W D); [|reflexivity]. simpl.
    destruct (decode_4_rows pal W R m (drop R D)); reflexivity.
Qed.
End Read4.

Lemma bind_Some {A B : Type} (x : A) (f : A -> option B) : (Some x ≫= f) = f x.
Proof. reflexivity. Qed.

Lemma append_pixels_loop_app (pal : BitmapPalette) (n : nat) :
  forall (b mask : Z) (vec : list BitmapPixel),
  append_pixels_loop pal n b mask vec
  = (ps ← append_pixels_loop pal n b mask []; Some (vec ++ ps)).
Proof.
  induction n as [|n IH]; intros b mask vec; cbn [append_pixels_loop].
  - simpl. rewrite app_nil_r. reflexivity.
  - destruct (if Z.land b mask =? 0 then pal !! 0%nat else pal !! 1%nat) as [p|];
      [|reflexivity].
    simpl. rewrite (IH b (Z.shiftr mask 1) (vec ++ [p])), (IH b (Z.shiftr mask 1) [p]).
    destruct (append_pixels_loop pal n b (Z.shiftr mask 1) []); [|reflexivity].
    simpl. rewrite <- app_assoc. reflexivity.
Qed.

Lemma read_1_full_bytes_spec (pal : BitmapPalette) (q : nat) :
  forall (j : nat) (D : list Z) (c : Z) (acc : list BitmapPixel),
  (j + q <= length D)%nat ->
  read_1_full_bytes pal q (mkWalker D j) c acc
  = (ps ← decode_1_full pal q (drop j D);
     Some (mkWalker D (j + q), c + 8 * Z.of_nat q, acc ++ ps)).
Proof.
  induction q as [|q IH]; intros j D c acc Hj; cbn [read_1_full_bytes decode_1_full].
  - simpl. rewrite Nat.add_0_r, Z.add_0_r, app_nil_r. reflexivity.
  - destruct (lookup_lt_is_Some_2 D j) as [b Hb]; [lia|].
    unfold next_u8. cbn [walker_data current_index]. rewrite Hb.
    rewrite lookup_drop, Nat.add_0_r, Hb, !bind_Some.
    unfold append_pixels_from_byte. change (Z.to_nat 8) with 8%nat.
    rewrite append_pixels_loop_app.
    destruct (append_pixels_loop pal 8 b 128 []) as [ps|]; [|reflexivity].
    rewrite !bind_Some.
    rewrite IH by lia. rewrite drop_drop.
    replace (j + 1)%nat with (S j) by lia.
    destruct (decode_1_full pal q (drop (S j) D)); [|reflexivity]. simpl.
    rewrite <- app_assoc. do 3 f_equal; [f_equal; lia | lia].
Qed.

Lemma ceil_div_8 (W : nat) :
  ((W + 7) / 8 = W / 8 + (if (0 <? W mod 8)%nat then 1 else 0))%nat.
Proof.
  pose proof (Nat.div_mod_eq W 8). pose proof (Nat.mod_upper_bound W 8 ltac:(lia)).
  set (q := (W / 8)%nat) in *. set (r := (W mod 8)%nat) in *.
  destruct (Nat.ltb_spec 0 r).
  - symmetry. apply Nat.div_unique with (r := (r - 1)%nat); lia.
  - symmetry. apply Nat.div_unique with (r := 7%nat); lia.
Qed.

Section Read1.
Variable pal : BitmapPalette.
Variable W : nat.
Let R := row_size 1 ((W + 7) / 8).

Lemma read_1_rows_spec (m : nat) :
  forall (rs : nat) (D : list Z) (acc : list BitmapPixel),
  (rs mod 4 = 0)%nat -> (rs + m * R <= length D)%nat ->
  read_1_rows m (mkWalker D rs) acc (Z.of_nat W) pal
  = (ps ← decode_1_rows pal W R m (drop rs D); Some (acc ++ ps)).
Proof.
  destruct (row_size_spec 1 ((W + 7) / 8)) as [[HR1 HR2] HR3]. fold R in HR1, HR2, HR3.
  pose proof (ceil_div_8 W) as Hceil.
  pose proof (Nat.div_mod_eq W 8). pose proof (Nat.mod_upper_bound W 8 ltac:(lia)).
  induction m as [|m IH]; intros rs D acc Hrs HD.
  - simpl. rewrite app_nil_r. reflexivity.
  - cbn [read_1_rows decode_1_rows].
    rewrite Z.quot_div_nonneg by lia.
    change 8 with (Z.of_nat 8). rewrite <- Nat2Z.inj_div, Nat2Z.id.
    rewrite read_1_full_bytes_spec
      by (destruct (0 <? W mod 8)%nat; nia).
    unfold decode_1_row.
    destruct (decode_1_full pal (W / 8) (drop rs D)) as [ps|]; [|reflexivity].
    rewrite !bind_Some. cbv beta iota zeta.
    assert (Hrem : Z.of_nat W - (0 + 8 * Z.of_nat (W / 8)) = Z.of_nat (W mod 8)) by lia.
    rewrite Hrem.
    assert (Hrs' : ((rs + R) mod 4 = 0)%nat)
      by (rewrite Nat.Div0.add_mod, HR3, Hrs; reflexivity).
    destruct (Nat.ltb_spec 0 (W mod 8)) as [Hpos|Hzero].
    + replace (0 <? Z.of_nat (W mod 8)) with true by (symmetry; apply Z.ltb_lt; lia).
      destruct (lookup_lt_is_Some_2 D (rs + W / 8)) as [b Hb]; [nia|].
      unfold next_u8. cbn [walker_data current_index]. rewrite Hb.
      rewrite lookup_drop, Hb, !bind_Some.
      unfold append_pixels_from_byte. rewrite Nat2Z.id, append_pixels_loop_app.
      destruct (append_pixels_loop pal (W mod 8) b 128 []) as [tl|]; [|reflexivity].
      rewrite !bind_Some. cbv beta iota.
      replace (S (rs + W / 8)) with (rs + (W + 7) / 8)%nat by lia.
      rewrite align_row by assumption.
      replace (rs + ((W + 7) / 8 + pad_to_align_nat ((W + 7) / 8) 4))%nat
        with (rs + R)%nat
        by (unfold R, row_size; rewrite Nat.mul_1_l; reflexivity).
      rewrite IH by (assumption || lia). rewrite drop_drop.
      destruct (decode_1_rows pal W R m (drop (rs + R) D)); [|reflexivity].
      rewrite !bind_Some, <- !app_assoc. reflexivity.
    + replace (0 <? Z.of_nat (W mod 8)) with false by (symmetry; apply Z.ltb_ge; lia).
      rewrite !bind_Some. cbv beta iota.
      replace (rs + W / 8)%nat with (rs + (W + 7) / 8)%nat by lia.
      rewrite align_row by assumption.
      replace (rs + ((W + 7) / 8 + pad_to_align_nat ((W + 7) / 8) 4))%nat
        with (rs + R)%nat
        by (unfold R, row_size; rewrite Nat.mul_1_l; reflexivity).
      rewrite IH by (assumption || lia). rewrite drop_drop.
      destruct (decode_1_rows pal W R m (drop (rs + R) D)); [|reflexivity].
      rewrite !bind_Some, <- !app_assoc. reflexivity.
Qed.
End Read1.

Lemma slice_length (data img : list Z) (lo hi : Z) :
  slice data lo hi = Some img ->
  Z.of_nat (length img) = hi - lo /\ 0 <= lo <= hi /\ hi <= Z.of_nat (length data).
Proof.
  unfold slice. intros H.
  destruct ((0 <=? lo) && (lo <=? hi) && (hi <=? Z.of_nat (length data))) eqn:E;
    [|discriminate].
  injection H as <-. rewrite !andb_true_iff, !Z.leb_le in E.
  rewrite length_take, length_drop. lia.
Qed.

Lemma as_i32_range (x : Z) : - 2 ^ 31 <= as_i32 x < 2 ^ 31.
Proof.
  unfold as_i32. pose proof (Z.mod_pos_bound x (2 ^ 32) ltac:(lia)).
  destruct (x mod 2 ^ 32 <? 2 ^ 31) eqn:E; [apply Z.ltb_lt in E | apply Z.ltb_ge in E]; lia.
Qed.

Lemma info_header_from_data_dims (d : list Z) (ih : BitmapInfoHeader) :
  info_header_from_data d = Some ih ->
  - 2 ^ 31 <= image_width ih < 2 ^ 31 /\ 0 <= image_height ih < 2 ^ 31.
Proof.
  unfold info_header_from_data, next_i32, next_u32, next_u16. intros H.
  repeat (first [ rewrite bind_Some in H; cbv beta iota in H
                | match type of H with
                  | context [walker_take ?w ?n] =>
                      destruct (walker_take w n) as [[? ?]|]; [|discriminate]
                  end ]).
  lazymatch type of H with
  | context [if as_i32 ?x <? 0 then _ else _] =>
      pose proof (as_i32_range x); destruct (as_i32 x <? 0) eqn:Hneg
  end.
  - apply Z.ltb_lt in Hneg.
    destruct (_ =? - 2 ^ 31) eqn:Hmin; [discriminate|]. apply Z.eqb_neq in Hmin.
    rewrite bind_Some in H. cbv beta iota in H.
    destruct (40 <? _).
    + repeat (first [ rewrite bind_Some in H; cbv beta iota in H
                    | match type of H with
                      | context [walker_take ?w ?n] =>
                          destruct (walker_take w n) as [[? ?]|]; [|discriminate]
                      end ]).
      injection H as <-. cbn. split; [apply as_i32_range | lia].
    + rewrite bind_Some in H. cbv beta iota in H.
      injection H as <-. cbn. split; [apply as_i32_range | lia].
  - apply Z.ltb_ge in Hneg. rewrite bind_Some in H. cbv beta iota in H.
    destruct (40 <? _).
    + repeat (first [ rewrite bind_Some in H; cbv beta iota in H
                    | match type of H with
                      | context [walker_take ?w ?n] =>
                          destruct (walker_take w n) as [[? ?]|]; [|discriminate]
                      end ]).
      injection H as <-. cbn. split; [apply as_i32_range | lia].
    + rewrite bind_Some in H. cbv beta iota in H.
      injection H as <-. cbn. split; [apply as_i32_range | lia].
Qed.

Lemma from_data_uncompressed_inv (data : list Z) (bm : Bitmap) :
  bitmap_from_data data = Some (inr bm) ->
  compression_type (info_header bm) = compression_code Uncompressed ->
  exists (size : Z) (img : list Z),
    image_size_uncompressed (info_header bm) = Some size /\
    Z.of_nat (length img) = size /\ size <= Z.of_nat (length data) /\
    interpret_image_data img (info_header bm) (palette bm) = Some (image_data bm) /\
    - 2 ^ 31 <= image_width (info_header bm) < 2 ^ 31 /\
    0 <= image_height (info_header bm) < 2 ^ 31.
Proof.
  intros H Hc. unfold bitmap_from_data in H.
  destruct (slice data 0 FILE_HEADER_SIZE) as [fs|]; [|discriminate]. rewrite bind_Some in H.
  destruct (file_header_from_data fs) as [fh|]; [|discriminate]. rewrite bind_Some in H.
  destruct (negb (file_header_validate fh)); [discriminate|].
  destruct (slice data FILE_HEADER_SIZE (Z.of_nat (length data))) as [is|];
    [|discriminate]. rewrite bind_Some in H.
  destruct (info_header_from_data is) as [ih|] eqn:Hih; [|discriminate].
  rewrite bind_Some in H. cbv zeta in H.
  destruct (negb _); [discriminate|].
  destruct (compression_from_u32 (compression_type ih)); try discriminate;
    (destruct (negb (n_planes ih =? 1)); [discriminate|]);
    (destruct (compression_type ih =? compression_code Uncompressed) eqn:Ec);
    (lazymatch type of H with
     | (?m ≫= _) = _ => destruct m as [size|] eqn:Hsize; [|discriminate]
     end); rewrite bind_Some in H;
    (lazymatch type of H with
     | (?m ≫= _) = _ => destruct m as [pal|] eqn:Hpal; [|discriminate]
     end); rewrite bind_Some in H;
    (destruct (usize_add (pixel_array_offset fh) size) as [iend|] eqn:Hend;
       [|discriminate]); rewrite bind_Some in H;
    (destruct (slice data (pixel_array_offset fh) iend) as [img|] eqn:Himg;
       [|discriminate]); rewrite bind_Some in H;
    (destruct (interpret_image_data img ih pal) as [pixels|] eqn:Hpix;
       [|discriminate]); rewrite bind_Some in H;
    injection H as <-; cbn [info_header palette image_data] in *;
    try (rewrite Hc in Ec; discriminate).
  all: exists size, img.
  all: destruct (slice_length _ _ _ _ Himg) as (Hl & Hlo & Hhi).
  all: unfold usize_add in Hend; destruct (_ <? 2 ^ 64); [|discriminate];
       injection Hend as <-.
  all: destruct (info_header_from_data_dims _ _ Hih).
  all: repeat split; try lia; assumption.
Qed.

Lemma pad_to_align_of_nat (x a : nat) :
  (0 < a)%nat -> pad_to_align (Z.of_nat x) (Z.of_nat a) = Z.of_nat (pad_to_align_nat x a).
Proof.
  intros Ha. unfold pad_to_align, pad_to_align_nat.
  pose proof (Nat.mod_upper_bound x a ltac:(lia)).
  rewrite Nat2Z.inj_mod, Nat2Z.inj_sub, Nat2Z.inj_mod by lia. reflexivity.
Qed.

Lemma pad_to_align_nat_8 (x : nat) : ((x + pad_to_align_nat x 8) / 8 = (x + 7) / 8)%nat.
Proof.
  unfold pad_to_align_nat.
  pose proof (Nat.div_mod_eq x 8). pose proof (Nat.mod_upper_bound x 8 ltac:(lia)).
  set (q := (x / 8)%nat) in *. set (r := (x mod 8)%nat) in *.
  destruct (decide (r = 0%nat)) as [E|E].
  - rewrite E, Nat.sub_0_r, Nat.Div0.mod_same, Nat.add_0_r.
    transitivity q.
    + symmetry. apply Nat.div_unique with (r := 0%nat); lia.
    + apply Nat.div_unique with (r := 7%nat); lia.
  - rewrite Nat.mod_small by lia.
    transitivity (S q).
    + symmetry. apply Nat.div_unique with (r := 0%nat); lia.
    + apply Nat.div_unique with (r := (r - 1)%nat); lia.
Qed.

Lemma usize_mul_ok (a b : Z) : a * b < 2 ^ 64 -> usize_mul a b = Some (a * b).
Proof. intros H. unfold usize_mul. apply Z.ltb_lt in H. rewrite H. reflexivity. Qed.

Lemma usize_add_ok (a b : Z) : a + b < 2 ^ 64 -> usize_add a b = Some (a + b).
Proof. intros H. unfold usize_add. apply Z.ltb_lt in H. rewrite H. reflexivity. Qed.

Lemma image_size_uncompressed_spec (ih : BitmapInfoHeader) (W H b : nat) :
  image_width ih = Z.of_nat W -> image_height ih = Z.of_nat H ->
  bits_per_pixel ih = Z.of_nat b -> (Z.of_nat W < 2 ^ 31) -> (Z.of_nat H < 2 ^ 31) ->
  (b <= 32)%nat ->
  image_size_uncompressed ih = Some (Z.of_nat (row_size 1 ((W * b + 7) / 8) * H)).
Proof.
  intros HW HH Hb HW' HH' Hb32.
  unfold image_size_uncompressed. rewrite HW, HH, Hb. unfold as_usize.
  rewrite !(Z.mod_small (Z.of_nat _)) by lia.
  rewrite usize_mul_ok by nia. rewrite bind_Some. cbv zeta.
  rewrite <- Nat2Z.inj_mul. change 8 with (Z.of_nat 8). rewrite pad_to_align_of_nat by lia.
  pose proof (Nat.mod_upper_bound (W * b) 8 ltac:(lia)).
  assert (Hp8 : (pad_to_align_nat (W * b) 8 < 8)%nat)
    by (unfold pad_to_align_nat; apply Nat.mod_upper_bound; lia).
  assert (Hwb : Z.of_nat (W * b) <= 2 ^ 31 * 32) by (rewrite Nat2Z.inj_mul; nia).
  rewrite usize_add_ok by lia. rewrite bind_Some, <- Nat2Z.inj_add.
  rewrite <- Nat2Z.inj_div, pad_to_align_nat_8.
  assert (Hq : ((W * b + 7) / 8 <= 4 * W + 1)%nat).
  { apply Nat.Div0.div_le_upper_bound. nia. }
  change 4 with (Z.of_nat 4). rewrite pad_to_align_of_nat by lia.
  assert (Hp4 : (pad_to_align_nat ((W * b + 7) / 8) 4 < 4)%nat)
    by (unfold pad_to_align_nat; apply Nat.mod_upper_bound; lia).
  assert (Hq' : Z.of_nat ((W * b + 7) / 8 + pad_to_align_nat ((W * b + 7) / 8) 4)
                <= 4 * 2 ^ 31 + 5) by lia.
  rewrite usize_add_ok by lia. rewrite bind_Some, <- Nat2Z.inj_add.
  rewrite usize_mul_ok by nia. f_equal. rewrite <- Nat2Z.inj_mul. f_equal.
  unfold row_size. rewrite Nat.mul_1_l. reflexivity.
Qed.

Ltac step_if H :=
  lazymatch type of H with
  | ((if ?c then _ else _) ≫= _) = _ =>
      let E := fresh "E" in
      destruct c eqn:E; [apply Z.ltb_lt in E; rewrite bind_Some in H; cbv zeta in H
                        | discriminate H]
  end.

Lemma image_size_negative_width (ih : BitmapInfoHeader) (size : Z) :
  - 2 ^ 31 <= image_width ih < 0 -> 0 <= image_height ih < 2 ^ 31 ->
  image_size_uncompressed ih = Some size ->
  bits_per_pixel ih < 2 /\
  (bits_per_pixel ih = 1 -> image_height ih = 0 \/ 2 ^ 60 <= size).
Proof.
  intros HW HH Hs. unfold image_size_uncompressed, as_usize in Hs.
  rewrite <- (Z.mod_unique (image_width ih) (2 ^ 64) (-1) (2 ^ 64 + image_width ih))
    in Hs by lia.
  rewrite (Z.mod_small (image_height ih)) in Hs by lia.
  unfold usize_mul, usize_add in Hs.
  step_if Hs.
  split.
  - destruct (Z.lt_ge_cases (bits_per_pixel ih) 2); [assumption|].
    exfalso. nia.
  - intros Hb. rewrite Hb, Z.mul_1_r in Hs.
    set (bits := 2 ^ 64 + image_width ih) in Hs.
    step_if Hs. step_if Hs.
    match type of Hs with
    | (if ?c then _ else _) = _ => destruct c; [|discriminate Hs]
    end.
    injection Hs as <-.
    assert (Hp8 : 0 <= pad_to_align bits 8)
      by (unfold pad_to_align; pose proof (Z.mod_pos_bound (8 - bits mod 8) 8); lia).
    set (y := (bits + pad_to_align bits 8) / 8).
    assert (Hy : 2 ^ 61 - 2 ^ 28 <= y).
    { unfold y. apply Z.div_le_lower_bound; [lia|]. unfold bits in *. lia. }
    assert (Hp4 : 0 <= pad_to_align y 4)
      by (unfold pad_to_align; pose proof (Z.mod_pos_bound (4 - y mod 4) 4); lia).
    destruct (Z.eq_dec (image_height ih) 0) as [Hz|Hz]; [left; exact Hz|right]. nia.
Qed.

Lemma decode_4_row_length (pal : BitmapPalette) (n : nat) :
  forall (bytes : list Z) (ps : list BitmapPixel),
  decode_4_row pal n bytes = Some ps -> length ps = n.
Proof.
  induction n as [n IH] using (well_founded_induction lt_wf).
  intros bytes ps H. destruct n as [|[|n]]; cbn [decode_4_row] in H.
  - injection H as <-. reflexivity.
  - destruct (bytes !! 0%nat); [|discriminate]. rewrite bind_Some in H.
    destruct (dec_4 pal z) as [[p0 p1]|]; [|discriminate].
    injection H as <-. reflexivity.
  - destruct (bytes !! 0%nat); [|discriminate]. rewrite bind_Some in H.
    destruct (dec_4 pal z) as [[p0 p1]|]; [|discriminate]. rewrite bind_Some in H.
    destruct (decode_4_row pal n (drop 1 bytes)) as [rest|] eqn:E; [|discriminate].
    injection H as <-. cbn. rewrite (IH n ltac:(lia) _ _ E). reflexivity.
Qed.

Lemma decode_4_rows_length (pal : BitmapPalette) (W R m : nat) :
  forall (bytes : list Z) (ps : list BitmapPixel),
  decode_4_rows pal W R m bytes = Some ps -> length ps = (m * W)%nat.
Proof.
  induction m as [|m IH]; intros bytes ps H; cbn [decode_4_rows] in H.
  - injection H as <-. reflexivity.
  - destruct (decode_4_row pal W bytes) as [ps1|] eqn:E1; [|discriminate].
    rewrite bind_Some in H.
    destruct (decode_4_rows pal W R m (drop R bytes)) as [ps2|] eqn:E2; [|discriminate].
    injection H as <-. rewrite length_app, (decode_4_row_length _ _ _ _ E1), (IH _ _ E2).
    lia.
Qed.

Lemma append_pixels_loop_length (pal : BitmapPalette) (n : nat) :
  forall (b mask : Z) (vec ps : list BitmapPixel),
  append_pixels_loop pal n b mask vec = Some ps -> length ps = (length vec + n)%nat.
Proof.
  induction n as [|n IH]; intros b mask vec ps H; cbn [append_pixels_loop] in H.
  - injection H as <-. lia.
  - destruct (if Z.land b mask =? 0 then pal !! 0%nat else pal !! 1%nat);
      [|discriminate].
    rewrite bind_Some in H. apply IH in H. rewrite length_app in H. simpl in H. lia.
Qed.

Lemma decode_1_full_length (pal : BitmapPalette) (q : nat) :
  forall (bytes : list Z) (ps : list BitmapPixel),
  decode_1_full pal q bytes = Some ps -> length ps = (8 * q)%nat.
Proof.
  induction q as [|q IH]; intros bytes ps H; cbn [decode_1_full] in H.
  - injection H as <-. reflexivity.
  - destruct (bytes !! 0%nat); [|discriminate]. rewrite bind_Some in H.
    destruct (append_pixels_loop pal 8 z 128 []) as [ps1|] eqn:E1; [|discriminate].
    rewrite bind_Some in H.
    destruct (decode_1_full pal q (drop 1 bytes)) as [ps2|] eqn:E2; [|discriminate].
    injection H as <-. rewrite length_app, (append_pixels_loop_length _ _ _ _ _ _ E1),
      (IH _ _ E2). simpl. lia.
Qed.

Lemma decode_1_row_length (pal : BitmapPalette) (W : nat) (bytes : list Z)
    (ps : list BitmapPixel) :
  decode_1_row pal W bytes = Some ps -> length ps = W.
Proof.
  unfold decode_1_row. intros H.
  pose proof (Nat.div_mod_eq W 8).
  destruct (decode_1_full pal (W / 8) bytes) as [ps1|] eqn:E1; [|discriminate].
  rewrite bind_Some in H. apply decode_1_full_length in E1.
  destruct (0 <? W mod 8)%nat eqn:Ep.
  - destruct (bytes !! (W / 8)%nat); [|discriminate]. rewrite bind_Some in H.
    destruct (append_pixels_loop pal (W mod 8) z 128 []) as [tl|] eqn:E2; [|discriminate].
    injection H as <-. apply append_pixels_loop_length in E2.
    rewrite length_app, E1, E2. cbn [length]. lia.
  - apply Nat.ltb_ge in Ep. injection H as <-. lia.
Qed.

Lemma decode_1_rows_length (pal : BitmapPalette) (W R m : nat) :
  forall (bytes : list Z) (ps : list BitmapPixel),
  decode_1_rows pal W R m bytes = Some ps -> length ps = (m * W)%nat.
Proof.
  induction m as [|m IH]; intros bytes ps H; cbn [decode_1_rows] in H.
  - injection H as <-. reflexivity.
  - destruct (decode_1_row pal W bytes) as [ps1|] eqn:E1; [|discriminate].
    rewrite bind_Some in H.
    destruct (decode_1_rows pal W R m (drop R bytes)) as [ps2|] eqn:E2; [|discriminate].
    injection H as <-. rewrite length_app, (decode_1_row_length _ _ _ _ E1), (IH _ _ E2).
    lia.
Qed.

Lemma row_size_aligned (k W : nat) : ((k * W) mod 4 = 0)%nat -> row_size k W = (k * W)%nat.
Proof.
  intros H. unfold row_size, pad_to_align_nat. rewrite H, Nat.sub_0_r, Nat.Div0.mod_same.
  lia.
Qed.

Lemma row_size_1 (k W : nat) : row_size 1 (k * W) = row_size k W.
Proof. unfold row_size. rewrite Nat.mul_1_l. reflexivity. Qed.

Lemma read_rows_empty (read_pixel : BytesWalker -> option (BitmapPixel * BytesWalker))
    (w : Z) :
  read_rows_loop read_pixel (S (length (walker_data (walker_new [])))) (walker_new []) 0 [] w
  = Some [].
Proof. reflexivity. Qed.

(** The pixel count of the [Uncompressed] decoders, on a buffer holding
    [H] rows of the width recorded in the header. *)
Lemma interpret_uncompressed_length (img : list Z) (ih : BitmapInfoHeader)
    (pal : option BitmapPalette) (ps : list BitmapPixel) (W H b : nat) :
  compression_type ih = compression_code Uncompressed ->
  image_width ih = Z.of_nat W -> image_height ih = Z.of_nat H ->
  bits_per_pixel ih = Z.of_nat b ->
  b ∈ [1; 4; 8; 24; 32]%nat ->
  length img = (row_size 1 ((W * b + 7) / 8) * H)%nat ->
  interpret_image_data img ih pal = Some ps ->
  length ps = (W * H)%nat.
Proof.
  intros Hc HW HH Hb Hbs Hl Hi. unfold interpret_image_data in Hi.
  repeat rewrite elem_of_cons in Hbs. rewrite elem_of_nil in Hbs.
  rewrite Hc, HW in Hi.
  destruct Hbs as [->|[->|[->|[->|[->|[]]]]]]; rewrite Hb in Hi;
    (match type of Hb with
     | _ = Z.of_nat ?n =>
         let z := eval vm_compute in (Z.of_nat n) in change (Z.of_nat n) with z in Hi
     end);
    cbv [Z.eqb Pos.eqb compression_code] in Hi.
  - (* 1 bit *)
    destruct pal as [pal|]; [|discriminate]. rewrite bind_Some in Hi.
    unfold read_1_uncompressed in Hi. rewrite HH, Nat2Z.id in Hi.
    replace (walker_new img) with (mkWalker img 0) in Hi by reflexivity.
    rewrite Nat.mul_1_r in Hl.
    rewrite read_1_rows_spec in Hi by (try reflexivity; lia).
    rewrite drop_0 in Hi.
    destruct (decode_1_rows _ _ _ _ _) as [ps'|] eqn:E; [|discriminate].
    injection Hi as <-. apply decode_1_rows_length in E. lia.
  - (* 4 bits *)
    destruct pal as [pal|]; [|discriminate]. rewrite bind_Some in Hi.
    replace ((W * 4 + 7) / 8)%nat with ((W + 1) / 2)%nat in Hl.
    2:{ pose proof (Nat.div_mod_eq W 2). pose proof (Nat.mod_upper_bound W 2 ltac:(lia)).
        pose proof (Nat.div_mod_eq (W + 1) 2).
        pose proof (Nat.mod_upper_bound (W + 1) 2 ltac:(lia)).
        apply Nat.div_unique with (r := (4 * (W mod 2) + 7 - 8 * (W mod 2))%nat); lia. }
    destruct (decide (W = 0%nat)) as [->|HW0].
    + destruct img; [|cbn in Hl; discriminate]. injection Hi as <-. reflexivity.
    + replace {| walker_data := img; current_index := 0 |} with (walker_new img)
        in Hi by reflexivity.
      rewrite (read_4_full pal W ltac:(lia) H img) in Hi by lia.
      apply decode_4_rows_length in Hi. lia.
  - (* 8 bits *)
    destruct pal as [pal|]; [|discriminate]. rewrite bind_Some in Hi.
    replace ((W * 8 + 7) / 8)%nat with (1 * W)%nat in Hl
      by (apply Nat.div_unique with (r := 7%nat); lia).
    rewrite row_size_1 in Hl.
    destruct (decide (W = 0%nat)) as [->|HW0].
    + destruct img; [|cbn in Hl; discriminate]. injection Hi as <-. reflexivity.
    + unfold read_8_uncompressed in Hi.
      replace {| walker_data := img; current_index := 0 |} with (walker_new img)
        in Hi by reflexivity.
      change (length (walker_data (walker_new img))) with (length img) in Hi.
      rewrite (read_rows_loop_full (read_palette_index pal) (dec_palette_index pal) 1
                 ltac:(lia) (read_palette_index_spec pal) W ltac:(lia) img H) in Hi
        by lia.
      apply decode_rows_length in Hi. lia.
  - (* 24 bits *)
    replace ((W * 24 + 7) / 8)%nat with (3 * W)%nat in Hl
      by (apply Nat.div_unique with (r := 7%nat); lia).
    rewrite row_size_1 in Hl.
    destruct (decide (W = 0%nat)) as [->|HW0].
    + destruct img; [|cbn in Hl; discriminate]. injection Hi as <-. reflexivity.
    + unfold read_24_uncompressed in Hi.
      replace {| walker_data := img; current_index := 0 |} with (walker_new img)
        in Hi by reflexivity.
      change (length (walker_data (walker_new img))) with (length img) in Hi.
      rewrite (read_rows_loop_full read_bgr dec_bgr 3 ltac:(lia) read_bgr_spec W
                 ltac:(lia) img H) in Hi by lia.
      apply decode_rows_length in Hi. lia.
  - (* 32 bits *)
    replace ((W * 32 + 7) / 8)%nat with (4 * W)%nat in Hl
      by (apply Nat.div_unique with (r := 7%nat); lia).
    rewrite row_size_1, row_size_aligned in Hl
      by (rewrite Nat.mul_comm; apply Nat.Div0.mod_mul).
    unfold read_32_uncompressed, walker_new in Hi. cbn [walker_data] in Hi.
    rewrite (read_32_uncompressed_loop_spec _ (W * H)) in Hi by lia.
    rewrite drop_0 in Hi.
    destruct (decode_chunks _ 4 (W * H) img) as [ps'|] eqn:E; [|discriminate].
    injection Hi as <-. apply decode_chunks_length in E. exact E.
Qed.

Lemma from_data_uncompressed_pixel_count (data : list Z) (bm : Bitmap) :
  Z.of_nat (length data) < 2 ^ 60 ->
  bitmap_from_data data = Some (inr bm) ->
  compression_type (info_header bm) = compression_code Uncompressed ->
  bits_per_pixel (info_header bm) <> 16 ->
  Z.of_nat (length (image_data bm))
  = image_width (info_header bm) * image_height (info_header bm).
Proof.
  intros Hlen H Hc H16.
  destruct (from_data_uncompressed_inv _ _ H Hc)
    as (size & img & Hs & Hl & Hle & Hi & HWr & HHr).
  set (ih := info_header bm) in *.
  destruct (supported_format (compression_type ih) (bits_per_pixel ih)) eqn:Hsup.
  2:{ rewrite (proj1 (unsupported_format_panics ih (palette bm) img [] [] Hsup)) in Hi.
      discriminate. }
  assert (Hb : bits_per_pixel ih = 1 \/ bits_per_pixel ih = 4 \/ bits_per_pixel ih = 8
               \/ bits_per_pixel ih = 24 \/ bits_per_pixel ih = 32).
  { unfold supported_format in Hsup. rewrite Hc in Hsup. cbn in Hsup.
    repeat rewrite orb_true_iff in Hsup. rewrite !Z.eqb_eq in Hsup. lia. }
  destruct (Z.lt_ge_cases (image_width ih) 0) as [Wneg|Wpos].
  - destruct (image_size_negative_width ih size ltac:(lia) HHr Hs) as [Hb1 Hb1'].
    destruct (Hb1' ltac:(lia)) as [H0|Hbig]; [|lia].
    unfold interpret_image_data in Hi. rewrite Hc in Hi.
    assert (E1 : bits_per_pixel ih = 1) by lia. rewrite E1, H0 in Hi.
    cbv [Z.eqb Pos.eqb compression_code] in Hi.
    destruct (palette bm); [|discriminate]. injection Hi as Hi.
    rewrite H0, Z.mul_0_r, <- Hi. reflexivity.
  - set (W := Z.to_nat (image_width ih)). set (Hn := Z.to_nat (image_height ih)).
    assert (HW : image_width ih = Z.of_nat W) by (unfold W; lia).
    assert (HH : image_height ih = Z.of_nat Hn) by (unfold Hn; lia).
    assert (Hbs : exists b : nat, bits_per_pixel ih = Z.of_nat b /\
                    b ∈ [1; 4; 8; 24; 32]%nat /\ (b <= 32)%nat).
    { destruct Hb as [E|[E|[E|[E|E]]]]; rewrite E;
        [exists 1%nat | exists 4%nat | exists 8%nat | exists 24%nat | exists 32%nat];
        (split; [reflexivity|]); split; try lia;
        repeat (first [left | right]). }
    destruct Hbs as (b & Eb & Hbin & Hb32).
    rewrite (image_size_uncompressed_spec ih W Hn b HW HH Eb ltac:(lia) ltac:(lia) Hb32)
      in Hs.
    injection Hs as <-.
    rewrite (interpret_uncompressed_length img ih (palette bm) (image_data bm) W Hn b
               Hc HW HH Eb Hbin ltac:(apply Nat2Z.inj; exact Hl) Hi).
    rewrite HW, HH. lia.
Qed.

Lemma bitmap_new_pixel_count (w h bpp : Z) (c : CompressionType) (bm : Bitmap) :
  bitmap_new w h bpp c = Some bm ->
  image_width (info_header bm) = w /\ image_height (info_header bm) = h /\
  length (image_data bm) = Z.to_nat (as_u32 (w * h)) /\
  (0 <= w * h -> Z.of_nat (length (image_data bm)) = w * h).
Proof.
  unfold bitmap_new, i32_mul. intros H.
  destruct ((- 2 ^ 31 <=? w * h) && (w * h <? 2 ^ 31)) eqn:E; [|discriminate].
  rewrite andb_true_iff, Z.leb_le, Z.ltb_lt in E.
  rewrite bind_Some in H. cbv zeta in H.
  destruct (lazy_new w h bpp c) as [r|] eqn:Hr; [|discriminate].
  rewrite bind_Some in H. injection H as <-. cbn [info_header image_data].
  unfold lazy_new, create_headers in Hr.
  destruct (info_header_new w h bpp c) as [ih|] eqn:Hih; [|discriminate].
  rewrite bind_Some in Hr.
  destruct (u32_add FILE_HEADER_SIZE (info_header_size ih)); [|discriminate].
  rewrite bind_Some in Hr.
  destruct (u32_add _ (image_size ih)); [|discriminate].
  rewrite !bind_Some in Hr. cbv beta iota in Hr. injection Hr as <-. cbn [info_header].
  unfold info_header_new in Hih.
  repeat (lazymatch type of Hih with
          | (?m ≫= _) = _ => destruct m; [rewrite bind_Some in Hih; cbv zeta in Hih
                                         | discriminate Hih]
          end).
  injection Hih as <-. cbn [image_width image_height].
  rewrite List.repeat_length. repeat split; try reflexivity.
  intros Hpos. unfold as_u32. rewrite Z.mod_small by lia. lia.
Qed.

(** C2 (counterexample): [Bitmap::from_data] accepts a 1x1 32-bit
    [BitFields] file whose recorded image size is 0 and returns a bitmap
    with no pixel. *)
Lemma from_data_bitfields_zero_size :
  exists bm, bitmap_from_data bitfields_zero_size_file = Some (inr bm) /\
    image_width (info_header bm) = 1 /\ image_height (info_header bm) = 1 /\
    image_data bm = [].
Proof.
  eexists. split; [reflexivity|]. repeat split; reflexivity.
Qed.

(** C2: a bitmap [Bitmap::from_data] decodes from an [Uncompressed] buffer
    (of fewer than 2^60 bytes, and of a depth other than 16 bits, whose
    reader is not in the source) has [image_width * image_height] pixels;
    [Bitmap::new width height] has [(width * height) as u32] pixels, which is
    [width * height] when the product is nonnegative. *)
Theorem pixel_count_invariant :
  (forall (data : list Z) (bm : Bitmap),
     Z.of_nat (length data) < 2 ^ 60 ->
     bitmap_from_data data = Some (inr bm) ->
     compression_type (info_header bm) = compression_code Uncompressed ->
     bits_per_pixel (info_header bm) <> 16 ->
     Z.of_nat (length (image_data bm))
     = image_width (info_header bm) * image_height (info_header bm)) /\
  (forall (w h bpp : Z) (c : CompressionType) (bm : Bitmap),
     bitmap_new w h bpp c = Some bm ->
     image_width (info_header bm) = w /\ image_height (info_header bm) = h /\
     length (image_data bm) = Z.to_nat (as_u32 (w * h)) /\
     (0 <= w * h -> Z.of_nat (length (image_data bm)) = w * h)).
Proof.
  split; [exact from_data_uncompressed_pixel_count | exact bitmap_new_pixel_count].
Qed.

Lemma pixel_count_invariant_witness :
  (exists bm, bitmap_from_data sample_24_file = Some (inr bm) /\
     Z.of_nat (length (image_data bm))
     = image_width (info_header bm) * image_height (info_header bm)) /\
  (exists bm, bitmap_new 2 3 24 Uncompressed = Some bm /\
     Z.of_nat (length (image_data bm)) = 6).
Proof.
  split.
  - eexists. split; [reflexivity|].
    apply (proj1 pixel_count_invariant sample_24_file);
      [vm_compute; reflexivity | reflexivity | reflexivity | discriminate].
  - eexists. split; [reflexivity|].
    apply (proj2 pixel_count_invariant 2 3 24 Uncompressed); [reflexivity | lia].
Defined.

(** ** Round trips of the codec *)

Lemma foldl_app_concat {A : Type} (g : list Z -> A -> list Z) (e : A -> list Z) :
  (forall d p, g d p = d ++ e p) ->
  forall (ps : list A) (data : list Z), foldl g data ps = data ++ concat (map e ps).
Proof.
  intros Hg. induction ps as [|p ps IH]; intros data; simpl.
  - rewrite app_nil_r. reflexivity.
  - rewrite IH, Hg, app_assoc. reflexivity.
Qed.

Lemma length_concat_const {A : Type} (e : A -> list Z) (k : nat) (ps : list A) :
  Forall (fun p => length (e p) = k) ps -> length (concat (map e ps)) = (k * length ps)%nat.
Proof.
  induction 1 as [|p ps Hp _ IH]; simpl; [lia|].
  rewrite length_app, Hp, IH. lia.
Qed.

Lemma decode_chunks_concat (dec : list Z -> option BitmapPixel) (k : nat)
    (e : BitmapPixel -> list Z) (f : BitmapPixel -> BitmapPixel) (ps : list BitmapPixel) :
  Forall (fun p => length (e p) = k /\ dec (e p) = Some (f p)) ps ->
  forall rest, decode_chunks dec k (length ps) (concat (map e ps) ++ rest) = Some (map f ps).
Proof.
  induction 1 as [|p ps [Hl Hd] _ IH]; intros rest; [reflexivity|].
  cbn [length decode_chunks map concat]. rewrite <- app_assoc.
  rewrite take_app_length' by lia. rewrite Hd, bind_Some.
  rewrite drop_app_length' by lia. rewrite IH. reflexivity.
Qed.

Section WriteRows.
Variable encode : BitmapPixel -> option (list Z).
Variable dec : list Z -> option BitmapPixel.
Variable f : BitmapPixel -> BitmapPixel.
Variable ok : BitmapPixel -> Prop.
Variable k : nat.
Hypothesis encode_spec : forall p, ok p ->
  exists bs, encode p = Some bs /\ length bs = k /\ dec bs = Some (f p).

Lemma write_row_spec (n : nat) : forall (data : list Z) (ps : list BitmapPixel),
  (n <= length ps)%nat -> Forall ok ps ->
  exists bs, write_row encode n data ps = Some (data ++ bs, drop n ps) /\
    length bs = (k * n)%nat /\
    forall rest, decode_chunks dec k n (bs ++ rest) = Some (map f (take n ps)).
Proof.
  induction n as [|n IH]; intros data ps Hn Hok.
  - exists []. rewrite app_nil_r, drop_0. split; [reflexivity|]. split; [simpl; lia|].
    intros rest. reflexivity.
  - destruct ps as [|p ps]; [simpl in Hn; lia|]. inversion Hok as [|? ? Hp Hps]; subst.
    destruct (encode_spec p Hp) as (bs & He & Hl & Hd).
    destruct (IH (data ++ bs) ps ltac:(simpl in Hn; lia) Hps) as (bs' & Hw & Hl' & Hd').
    exists (bs ++ bs'). cbn [write_row]. rewrite He, bind_Some, Hw, app_assoc.
    split; [reflexivity|]. split; [rewrite length_app; lia|].
    intros rest. cbn [decode_chunks]. rewrite <- app_assoc.
    rewrite take_app_length' by lia. rewrite Hd, bind_Some.
    rewrite drop_app_length' by lia. rewrite Hd'. reflexivity.
Qed.

Variable W P : nat.

Lemma write_rows_spec (h : nat) : forall (data : list Z) (ps : list BitmapPixel),
  (h * W <= length ps)%nat -> Forall ok ps ->
  exists bs,
    write_rows encode h (Z.of_nat W) (Z.of_nat P) data ps
      = Some (data ++ bs, drop (h * W) ps) /\
    length bs = (h * (k * W + P))%nat /\
    decode_rows dec k W (k * W + P) h bs = Some (map f (take (h * W) ps)).
Proof.
  induction h as [|h IH]; intros data ps Hn Hok.
  - exists []. rewrite app_nil_r, drop_0. split; [reflexivity|]. split; [simpl; lia|].
    reflexivity.
  - destruct (write_row_spec W data ps ltac:(lia) Hok) as (bs & Hw & Hl & Hd).
    destruct (IH (data ++ bs ++ repeat 0 P) (drop W ps)
                ltac:(rewrite length_drop; lia) (Forall_drop _ _ _ Hok))
      as (bs' & Hw' & Hl' & Hd').
    exists (bs ++ repeat 0 P ++ bs'). cbn [write_rows]. rewrite !Nat2Z.id, Hw, bind_Some.
    rewrite <- app_assoc, Hw'.
    rewrite !app_assoc, drop_drop. split; [f_equal; f_equal; lia|].
    split; [rewrite !length_app, List.repeat_length; lia|].
    cbn [decode_rows]. rewrite <- !app_assoc, Hd, bind_Some.
    rewrite app_assoc, drop_app_length' by (rewrite !length_app, List.repeat_length; lia).
    rewrite Hd', bind_Some. rewrite <- map_app. f_equal. f_equal.
    replace (S h * W)%nat with (W + h * W)%nat by lia. apply take_take_drop.
Qed.
End WriteRows.

Lemma find_closest_exact (pal : BitmapPalette) (p : BitmapPixel) :
  Forall (fun q => pixel_wf q /\ q.(alpha) = 255) pal ->
  pixel_wf p -> in_palette pal p ->
  exists i, find_closest_by_index p pal = Some i /\ pal !! i = Some (set_alpha p 255).
Proof.
  intros Hpal Hp (q & Hq & Hr & Hg & Hb).
  assert (Hne : pal <> []) by (intros ->; apply elem_of_nil in Hq; exact Hq).
  destruct (find_closest_by_index_spec p pal Hne) as (i & q0 & Hi & Hq0 & Hmin & _).
  exists i. split; [exact Hi|]. rewrite Hq0. f_equal.
  apply list_elem_of_lookup_1 in Hq as [j Hj].
  specialize (Hmin j q Hj).
  destruct (proj1 (Forall_lookup _ _) Hpal j q Hj) as [Hwq _].
  destruct (proj1 (Forall_lookup _ _) Hpal i q0 Hq0) as [Hwq0 Ha0].
  rewrite !distance_squared_exact in Hmin by assumption.
  unfold rgb_distance_sq in Hmin. rewrite Hr, Hg, Hb in Hmin.
  destruct p as [pb pg pr pa], q0 as [b0 g0 r0 a0]. cbn in *. unfold set_alpha. cbn.
  rewrite !Z.sub_diag in Hmin. cbn in Hmin.
  assert (0 <= (pr - r0) ^ 2) by nia. assert (0 <= (pg - g0) ^ 2) by nia.
  assert (0 <= (pb - b0) ^ 2) by nia.
  assert ((pr - r0) ^ 2 = 0) as Er by lia. assert ((pg - g0) ^ 2 = 0) as Eg by lia.
  assert ((pb - b0) ^ 2 = 0) as Eb by lia.
  apply Z.pow_eq_0 in Er; [|lia]. apply Z.pow_eq_0 in Eg; [|lia].
  apply Z.pow_eq_0 in Eb; [|lia].
  f_equal; lia.
Qed.

Lemma pad_to_align_i32_of_nat (x a : nat) :
  (0 < a)%nat -> pad_to_align_i32 (Z.of_nat x) (Z.of_nat a) = Z.of_nat (pad_to_align_nat x a).
Proof.
  intros Ha. rewrite <- pad_to_align_of_nat by exact Ha.
  unfold pad_to_align_i32, pad_to_align.
  pose proof (Z.mod_pos_bound (Z.of_nat x) (Z.of_nat a) ltac:(lia)).
  rewrite (Z.rem_mod_nonneg (Z.of_nat x)) by lia.
  rewrite Z.rem_mod_nonneg by lia. reflexivity.
Qed.

Lemma i32_mul_ok (a b : Z) : - 2 ^ 31 <= a * b < 2 ^ 31 -> i32_mul a b = Some (a * b).
Proof.
  intros H. unfold i32_mul.
  replace ((- 2 ^ 31 <=? a * b) && (a * b <? 2 ^ 31)) with true
    by (symmetry; apply andb_true_iff; split; [apply Z.leb_le | apply Z.ltb_lt]; lia).
  reflexivity.
Qed.

Lemma i32_add_ok (a b : Z) : - 2 ^ 31 <= a + b < 2 ^ 31 -> i32_add a b = Some (a + b).
Proof.
  intros H. unfold i32_add.
  replace ((- 2 ^ 31 <=? a + b) && (a + b <? 2 ^ 31)) with true
    by (symmetry; apply andb_true_iff; split; [apply Z.leb_le | apply Z.ltb_lt]; lia).
  reflexivity.
Qed.

(** ** Byte lanes of a [u32] *)

Lemma byte_testbit_high (x n : Z) : 0 <= x < 256 -> 8 <= n -> Z.testbit x n = false.
Proof.
  intros Hx Hn. rewrite <- (Z.mod_small x (2 ^ 8)) by (simpl; lia).
  apply Z.mod_pow2_bits_high. lia.
Qed.

Lemma lane_bit (x o o' i : Z) :
  0 <= x < 256 -> (o = 0 \/ o = 8 \/ o = 16 \/ o = 24) ->
  (o' = 0 \/ o' = 8 \/ o' = 16 \/ o' = 24) -> 0 <= i < 8 ->
  Z.testbit (as_u32 (Z.shiftl x o)) (i + o') = (o =? o') && Z.testbit x i.
Proof.
  intros Hx Ho Ho' Hi. unfold as_u32.
  rewrite Z.mod_pow2_bits_low by lia.
  rewrite Z.shiftl_spec by lia.
  destruct (Z.eqb_spec o o') as [->|Hne].
  - cbn [andb]. f_equal. lia.
  - cbn [andb]. destruct (Z.ltb_spec (i + o' - o) 0).
    + apply Z.testbit_neg_r. lia.
    + apply byte_testbit_high; [exact Hx|]. lia.
Qed.

Lemma low_byte_of_bits (v x o : Z) :
  (forall i, 0 <= i < 8 -> Z.testbit v (i + o) = Z.testbit x i) -> 0 <= o ->
  0 <= x < 256 -> as_u8 (Z.land (Z.shiftr v o) 255) = x.
Proof.
  intros Hb Ho Hx. apply Z.bits_inj'. intros n Hn. unfold as_u8.
  destruct (Z.ltb_spec n 8).
  - rewrite Z.mod_pow2_bits_low by lia. rewrite Z.land_spec, Z.shiftr_spec by lia.
    rewrite Hb by lia.
    assert (Z.testbit 255 n = true) as ->.
    { assert (n = 0 \/ n = 1 \/ n = 2 \/ n = 3 \/ n = 4 \/ n = 5 \/ n = 6 \/ n = 7) as E
        by lia.
      destruct E as [->|[->|[->|[->|[->|[->|[->| ->]]]]]]]; reflexivity. }
    apply andb_true_r.
  - rewrite Z.mod_pow2_bits_high by lia. symmetry. apply byte_testbit_high; lia.
Qed.

Lemma le_value_u32 (v : Z) :
  le_value [as_u8 v; as_u8 (Z.shiftr v 8); as_u8 (Z.shiftr v 16); as_u8 (Z.shiftr v 24)]
  = as_u32 v.
Proof.
  cbn [le_value]. unfold as_u8, as_u32. rewrite !Z.shiftr_div_pow2 by lia.
  assert (E1 : v mod 2 ^ 32 = v mod 2 ^ 8 + 2 ^ 8 * ((v / 2 ^ 8) mod 2 ^ 24))
    by (apply (Z.rem_mul_r v (2 ^ 8) (2 ^ 24)); lia).
  assert (E2 : (v / 2 ^ 8) mod 2 ^ 24
               = (v / 2 ^ 8) mod 2 ^ 8 + 2 ^ 8 * ((v / 2 ^ 16) mod 2 ^ 16)).
  { change (2 ^ 24) with (2 ^ 8 * 2 ^ 16).
    rewrite (Z.rem_mul_r (v / 2 ^ 8) (2 ^ 8) (2 ^ 16)) by lia.
    rewrite Z.div_div by lia. reflexivity. }
  assert (E3 : (v / 2 ^ 16) mod 2 ^ 16
               = (v / 2 ^ 16) mod 2 ^ 8 + 2 ^ 8 * ((v / 2 ^ 24) mod 2 ^ 8)).
  { replace (2 ^ 16) with (2 ^ 8 * 2 ^ 8) at 2 by reflexivity.
    rewrite (Z.rem_mul_r (v / 2 ^ 16) (2 ^ 8) (2 ^ 8)) by lia.
    rewrite Z.div_div by lia. reflexivity. }
  rewrite E1, E2, E3. lia.
Qed.

Lemma lane_offset (m : Z) :
  byte_lane_mask m = true ->
  exists o, mask_offset_and_shifted m = (o, 255) /\ m = Z.shiftl 255 o /\
    (o = 0 \/ o = 8 \/ o = 16 \/ o = 24).
Proof.
  unfold byte_lane_mask. rewrite !orb_true_iff, !Z.eqb_eq.
  intros [[[->| ->]| ->]| ->]; eexists;
    (split; [vm_compute; reflexivity | split; [reflexivity | lia]]).
Qed.

Section Lanes.
Variables ro go bo ao am : Z.
Hypothesis Hro : ro = 0 \/ ro = 8 \/ ro = 16 \/ ro = 24.
Hypothesis Hgo : go = 0 \/ go = 8 \/ go = 16 \/ go = 24.
Hypothesis Hbo : bo = 0 \/ bo = 8 \/ bo = 16 \/ bo = 24.
Hypothesis Hao : ao = 0 \/ ao = 8 \/ ao = 16 \/ ao = 24.
Hypothesis Hrg : ro <> go.
Hypothesis Hrb : ro <> bo.
Hypothesis Hgb : go <> bo.
Hypothesis Ham : (am = 0 /\ ao = 0) \/
                 (am = Z.shiftl 255 ao /\ ao <> ro /\ ao <> go /\ ao <> bo).

Lemma pixel_value_bit (p : BitmapPixel) (o i : Z) :
  pixel_wf p -> (o = 0 \/ o = 8 \/ o = 16 \/ o = 24) -> 0 <= i < 8 ->
  Z.testbit (as_u32 (bitfield_32_value ro go bo ao am p)) (i + o)
  = ((ro =? o) && Z.testbit p.(red) i) || ((go =? o) && Z.testbit p.(green) i)
    || ((bo =? o) && Z.testbit p.(blue) i)
    || ((ao =? o) && Z.testbit p.(alpha) i && Z.testbit am (i + o)).
Proof.
  intros (Hb & Hg & Hr & Ha) Ho Hi. unfold is_byte in *.
  unfold as_u32 at 1.
  rewrite (Z.mod_pow2_bits_low (bitfield_32_value ro go bo ao am p) 32 (i + o))
    by (clear - Hi Ho; lia).
  unfold bitfield_32_value. rewrite !Z.lor_spec, Z.land_spec.
  rewrite !lane_bit by assumption. reflexivity.
Qed.

Lemma dec_32_bitfield_encoded (p : BitmapPixel) :
  pixel_wf p ->
  dec_32_bitfield ro go bo ao am
    [as_u8 (bitfield_32_value ro go bo ao am p); as_u8 (Z.shiftr (bitfield_32_value ro go bo ao am p) 8);
     as_u8 (Z.shiftr (bitfield_32_value ro go bo ao am p) 16); as_u8 (Z.shiftr (bitfield_32_value ro go bo ao am p) 24)]
  = Some (if am =? 0 then set_alpha p 255 else p).
Proof.
  intros Hp. pose proof Hp as (Hb & Hg & Hr & Ha). unfold is_byte in *.
  unfold dec_32_bitfield. rewrite le_value_u32.
  assert (Hneq : forall x y, x <> y -> (x =? y) = false) by (intros; apply Z.eqb_neq; auto).
  assert (Er : as_u8 (Z.land (Z.shiftr (as_u32 (bitfield_32_value ro go bo ao am p)) ro) 255) = p.(red)).
  { apply low_byte_of_bits; [|clear - Hro; lia|clear - Hr; lia]. intros i Hi.
    rewrite pixel_value_bit by assumption.
    rewrite Z.eqb_refl, (Hneq go ro), (Hneq bo ro) by auto. cbn [andb orb].
    destruct Ham as [[-> ->]|[_ [Har _]]].
    - rewrite Z.bits_0, !andb_false_r, !orb_false_r. reflexivity.
    - rewrite (Hneq ao ro) by auto. cbn [andb]. rewrite !orb_false_r. reflexivity. }
  assert (Eg : as_u8 (Z.land (Z.shiftr (as_u32 (bitfield_32_value ro go bo ao am p)) go) 255) = p.(green)).
  { apply low_byte_of_bits; [|clear - Hgo; lia|clear - Hg; lia]. intros i Hi.
    rewrite pixel_value_bit by assumption.
    rewrite Z.eqb_refl, (Hneq ro go), (Hneq bo go) by auto. cbn [andb orb].
    destruct Ham as [[-> ->]|[_ [_ [Hag _]]]].
    - rewrite Z.bits_0, !andb_false_r, !orb_false_r. reflexivity.
    - rewrite (Hneq ao go) by auto. cbn [andb]. rewrite !orb_false_r. reflexivity. }
  assert (Eb : as_u8 (Z.land (Z.shiftr (as_u32 (bitfield_32_value ro go bo ao am p)) bo) 255) = p.(blue)).
  { apply low_byte_of_bits; [|clear - Hbo; lia|clear - Hb; lia]. intros i Hi.
    rewrite pixel_value_bit by assumption.
    rewrite Z.eqb_refl, (Hneq ro bo), (Hneq go bo) by auto. cbn [andb orb].
    destruct Ham as [[-> ->]|[_ [_ [_ Hab]]]].
    - rewrite Z.bits_0, !andb_false_r, !orb_false_r. reflexivity.
    - rewrite (Hneq ao bo) by auto. cbn [andb]. rewrite !orb_false_r. reflexivity. }
  rewrite Er, Eg, Eb. f_equal.
  destruct Ham as [[-> ->]|[Hm [Har [Hag Hab]]]].
  - rewrite Z.eqb_refl. reflexivity.
  - assert (Hm0 : (am =? 0) = false).
    { apply Z.eqb_neq. intros E. rewrite Hm in E.
      destruct Hao as [->|[->|[->| ->]]]; discriminate E. }
    rewrite Hm0.
    assert (Ea : as_u8 (Z.land (Z.shiftr (as_u32 (bitfield_32_value ro go bo ao am p)) ao) 255) = p.(alpha)).
    { apply low_byte_of_bits; [|clear - Hao; lia|clear - Ha; lia]. intros i Hi.
      rewrite pixel_value_bit by assumption.
      rewrite Z.eqb_refl, (Hneq ro ao), (Hneq go ao), (Hneq bo ao) by auto.
      cbn [andb orb]. rewrite Hm, Z.shiftl_spec by (clear - Hi Hao; lia).
      replace (i + ao - ao) with i by ring.
      assert (Z.testbit 255 i = true) as ->.
      { assert (i = 0 \/ i = 1 \/ i = 2 \/ i = 3 \/ i = 4 \/ i = 5 \/ i = 6 \/ i = 7)
          as E by (clear - Hi; lia).
        destruct E as [->|[->|[->|[->|[->|[->|[->| ->]]]]]]]; reflexivity. }
      apply andb_true_r. }
    rewrite Ea. destruct p; reflexivity.
Qed.
End Lanes.

Lemma NoDup_3 (a b c : Z) : NoDup [a; b; c] -> a <> b /\ a <> c /\ b <> c.
Proof.
  rewrite !NoDup_cons, !not_elem_of_cons. intros (( ? & ? & _) & (? & _) & _). auto.
Qed.

Lemma NoDup_4 (a b c d : Z) :
  NoDup [a; b; c; d] -> a <> b /\ a <> c /\ b <> c /\ d <> a /\ d <> b /\ d <> c.
Proof.
  rewrite !NoDup_cons, !not_elem_of_cons.
  intros ((? & ? & ? & _) & (? & ? & _) & (? & _) & _). repeat split; auto.
Qed.

Lemma bitfield_32_round_trip (pixels : list BitmapPixel) (ih : BitmapInfoHeader)
    (pal : option BitmapPalette) :
  compression_type ih = compression_code BitFields -> bits_per_pixel ih = 32 ->
  lane_masks ih -> Forall pixel_wf pixels ->
  exists data, pixels_into_data pixels [] ih pal = Some data /\
    interpret_image_data data ih pal = Some (map (decoded_pixel ih) pixels).
Proof.
  intros Hc Hb (Hr & Hg & Hbl & Hnd & Ha) Hps.
  destruct (lane_offset _ Hr) as (ro & Hmr & Er & Hro).
  destruct (lane_offset _ Hg) as (go & Hmg & Eg & Hgo).
  destruct (lane_offset _ Hbl) as (bo & Hmb & Eb & Hbo).
  destruct (NoDup_3 _ _ _ Hnd) as (Hrg & Hrb & Hgb).
  assert (Hrg' : ro <> go) by (intros E; apply Hrg; rewrite Er, Eg, E; reflexivity).
  assert (Hrb' : ro <> bo) by (intros E; apply Hrb; rewrite Er, Eb, E; reflexivity).
  assert (Hgb' : go <> bo) by (intros E; apply Hgb; rewrite Eg, Eb, E; reflexivity).
  assert (Halpha : exists ao as_, mask_offset_and_shifted (alpha_mask ih) = (ao, as_) /\
            (ao = 0 \/ ao = 8 \/ ao = 16 \/ ao = 24) /\
            ((alpha_mask ih = 0 /\ ao = 0) \/
             (alpha_mask ih = Z.shiftl 255 ao /\ ao <> ro /\ ao <> go /\ ao <> bo))).
  { destruct Ha as [Ha0|[Hal Hnd4]].
    - exists 0, 0. rewrite Ha0. split; [reflexivity|]. split; [lia|]. left; auto.
    - destruct (lane_offset _ Hal) as (ao & Hma & Ea & Hao).
      destruct (NoDup_4 _ _ _ _ Hnd4) as (_ & _ & _ & Har & Hag & Hab).
      exists ao, 255. split; [exact Hma|]. split; [exact Hao|]. right.
      split; [exact Ea|].
      split; [intros E; apply Har; rewrite Ea, Er, E; reflexivity|].
      split; [intros E; apply Hag; rewrite Ea, Eg, E; reflexivity|].
      intros E; apply Hab; rewrite Ea, Eb, E; reflexivity. }
  destruct Halpha as (ao & as_ & Hma & Hao & Ham).
  set (am := alpha_mask ih) in *.
  set (e := fun p : BitmapPixel =>
    [as_u8 (bitfield_32_value ro go bo ao am p);
     as_u8 (Z.shiftr (bitfield_32_value ro go bo ao am p) 8);
     as_u8 (Z.shiftr (bitfield_32_value ro go bo ao am p) 16);
     as_u8 (Z.shiftr (bitfield_32_value ro go bo ao am p) 24)]).
  exists (concat (map e pixels)).
  unfold pixels_into_data, interpret_image_data. rewrite Hc, Hb.
  cbv [Z.eqb Pos.eqb compression_code].
  split.
  - unfold write_32_bitfield. rewrite Hmr, Hmg, Hmb. fold am. rewrite Hma.
    cbv beta iota zeta. f_equal.
    rewrite (foldl_app_concat _ e); [reflexivity|]. intros d p. reflexivity.
  - unfold read_32_bitfield. rewrite Hmr, Hmg, Hmb. fold am. rewrite Hma.
    cbv beta iota zeta.
    assert (Hlen : length (concat (map e pixels)) = (4 * length pixels)%nat).
    { apply length_concat_const. apply Forall_forall. intros p _. reflexivity. }
    change (walker_new (concat (map e pixels)))
      with (mkWalker (concat (map e pixels)) 0).
    cbn [walker_data].
    rewrite (read_32_bitfield_loop_spec _ _ _ _ _ _ (length pixels) 0)
      by (clear - Hlen; lia).
    rewrite drop_0, <- (app_nil_r (concat (map e pixels))).
    rewrite (decode_chunks_concat _ 4 e (decoded_pixel ih)); [reflexivity|].
    eapply Forall_impl; [exact Hps|]. intros p Hp. split; [reflexivity|].
    unfold e. rewrite dec_32_bitfield_encoded by (assumption || (clear - Ham; tauto)).
    unfold decoded_pixel. rewrite Hc, Z.eqb_refl. cbn [andb].
    fold am. destruct (am =? 0); reflexivity.
Qed.

Lemma decoded_pixel_uncompressed (ih : BitmapInfoHeader) (p : BitmapPixel) :
  compression_type ih = compression_code Uncompressed -> decoded_pixel ih p = set_alpha p 255.
Proof. intros Hc. unfold decoded_pixel. rewrite Hc. reflexivity. Qed.

Lemma uncompressed_32_round_trip (pixels : list BitmapPixel) (ih : BitmapInfoHeader)
    (pal : option BitmapPalette) :
  compression_type ih = compression_code Uncompressed -> bits_per_pixel ih = 32 ->
  exists data, pixels_into_data pixels [] ih pal = Some data /\
    interpret_image_data data ih pal = Some (map (decoded_pixel ih) pixels).
Proof.
  intros Hc Hb.
  set (e := fun p : BitmapPixel => [p.(blue); p.(green); p.(red); 0]).
  exists (concat (map e pixels)).
  unfold pixels_into_data, interpret_image_data. rewrite Hc, Hb.
  cbv [Z.eqb Pos.eqb compression_code].
  split.
  - unfold write_32_uncompressed. f_equal.
    rewrite (foldl_app_concat _ e); [reflexivity|]. intros d p. reflexivity.
  - assert (Hlen : length (concat (map e pixels)) = (4 * length pixels)%nat).
    { apply length_concat_const. apply Forall_forall. intros p _. reflexivity. }
    unfold read_32_uncompressed.
    change (walker_new (concat (map e pixels)))
      with (mkWalker (concat (map e pixels)) 0).
    cbn [walker_data].
    rewrite (read_32_uncompressed_loop_spec _ (length pixels) 0) by lia.
    rewrite drop_0, <- (app_nil_r (concat (map e pixels))).
    rewrite (decode_chunks_concat _ 4 e (decoded_pixel ih)); [reflexivity|].
    apply Forall_forall. intros p _. split; [reflexivity|].
    rewrite decoded_pixel_uncompressed by exact Hc. reflexivity.
Qed.

Lemma uncompressed_24_round_trip (pixels : list BitmapPixel) (ih : BitmapInfoHeader)
    (pal : option BitmapPalette) (W H : nat) :
  compression_type ih = compression_code Uncompressed -> bits_per_pixel ih = 24 ->
  image_width ih = Z.of_nat W -> image_height ih = Z.of_nat H ->
  3 * Z.of_nat W < 2 ^ 31 -> length pixels = (W * H)%nat ->
  exists data, pixels_into_data pixels [] ih pal = Some data /\
    interpret_image_data data ih pal = Some (map (decoded_pixel ih) pixels).
Proof.
  intros Hc Hb HW HH Hbound Hlen.
  destruct (write_rows_spec (fun p => Some [p.(blue); p.(green); p.(red)]) dec_bgr
              (fun p => set_alpha p 255) (fun _ => True) 3
              ltac:(intros p _; eexists; split; [reflexivity|]; split; reflexivity)
              W (pad_to_align_nat (3 * W) 4) H [] pixels ltac:(lia)
              ltac:(apply Forall_forall; auto))
    as (bs & Hw & Hl & Hd).
  exists bs.
  unfold pixels_into_data, interpret_image_data. rewrite Hc, Hb.
  cbv [Z.eqb Pos.eqb compression_code].
  split.
  - unfold write_24_uncompressed. rewrite HW, HH, i32_mul_ok by lia. rewrite bind_Some.
    replace (Z.of_nat W * 3) with (Z.of_nat (3 * W)) by lia.
    change 4 with (Z.of_nat 4). rewrite pad_to_align_i32_of_nat by lia.
    rewrite Nat2Z.id, Hw. reflexivity.
  - rewrite HW. rewrite take_ge in Hd by lia.
    replace (map (decoded_pixel ih) pixels) with (map (fun p => set_alpha p 255) pixels)
      by (apply map_ext; intros p; symmetry; apply decoded_pixel_uncompressed, Hc).
    destruct (decide (W = 0%nat)) as [->|HW0].
    + destruct bs; [|simpl in Hl; lia]. destruct pixels; [|simpl in Hlen; lia].
      reflexivity.
    + unfold read_24_uncompressed.
      change (length (walker_data (walker_new bs))) with (length bs).
      rewrite (read_rows_loop_full read_bgr dec_bgr 3 ltac:(lia) read_bgr_spec W
                 ltac:(lia) bs H) by (unfold row_size; lia).
      unfold row_size. rewrite <- Hd. reflexivity.
Qed.

Lemma palette_index_u8_exact (pal : BitmapPalette) (p : BitmapPixel) :
  (length pal <= 256)%nat ->
  Forall (fun q => pixel_wf q /\ q.(alpha) = 255) pal ->
  pixel_wf p -> in_palette pal p ->
  exists i, find_closest_by_index p pal = Some i /\ pal !! i = Some (set_alpha p 255) /\
    (i < length pal)%nat /\ palette_index_u8 pal p = Some (Z.of_nat i).
Proof.
  intros Hlen Hpal Hp Hin.
  destruct (find_closest_exact pal p Hpal Hp Hin) as (i & Hi & Hq).
  pose proof (lookup_lt_Some _ _ _ Hq) as Hlt.
  exists i. split; [exact Hi|]. split; [exact Hq|]. split; [exact Hlt|].
  unfold palette_index_u8. rewrite Hi, bind_Some. f_equal.
  unfold as_u8. apply Z.mod_small. simpl. lia.
Qed.

Lemma uncompressed_8_round_trip (pixels : list BitmapPixel) (ih : BitmapInfoHeader)
    (pal : BitmapPalette) (W H : nat) :
  compression_type ih = compression_code Uncompressed -> bits_per_pixel ih = 8 ->
  image_width ih = Z.of_nat W -> image_height ih = Z.of_nat H ->
  3 * Z.of_nat W < 2 ^ 31 -> length pixels = (W * H)%nat ->
  Forall pixel_wf pixels -> palette_fits pal 256 pixels ->
  exists data, pixels_into_data pixels [] ih (Some pal) = Some data /\
    interpret_image_data data ih (Some pal) = Some (map (decoded_pixel ih) pixels).
Proof.
  intros Hc Hb HW HH Hbound Hlen Hwf (Hpl & Hpal & Hin).
  destruct (write_rows_spec (fun p => i ← palette_index_u8 pal p; Some [i])
              (dec_palette_index pal) (fun p => set_alpha p 255)
              (fun p => pixel_wf p /\ in_palette pal p) 1)
    with (W := W) (P := pad_to_align_nat W 4) (h := H) (data := @nil Z) (ps := pixels)
    as (bs & Hw & Hl & Hd).
  { intros p [Hp Hip].
    destruct (palette_index_u8_exact pal p Hpl Hpal Hp Hip) as (i & _ & Hq & _ & Hi).
    exists [Z.of_nat i]. rewrite Hi, bind_Some. split; [reflexivity|]. split; [reflexivity|].
    unfold dec_palette_index. cbn. rewrite Nat2Z.id. exact Hq. }
  { lia. }
  { apply Forall_and. split; assumption. }
  exists bs.
  unfold pixels_into_data, interpret_image_data. rewrite Hc, Hb.
  cbv [Z.eqb Pos.eqb compression_code]. rewrite !bind_Some.
  split.
  - unfold write_8_uncompressed. rewrite HW, HH.
    change 4 with (Z.of_nat 4). rewrite pad_to_align_i32_of_nat by lia.
    rewrite Nat2Z.id, Hw. reflexivity.
  - rewrite HW. rewrite take_ge in Hd by lia.
    replace (map (decoded_pixel ih) pixels) with (map (fun p => set_alpha p 255) pixels)
      by (apply map_ext; intros p; symmetry; apply decoded_pixel_uncompressed, Hc).
    destruct (decide (W = 0%nat)) as [->|HW0].
    + destruct bs; [|simpl in Hl; lia]. destruct pixels; [|simpl in Hlen; lia].
      reflexivity.
    + unfold read_8_uncompressed.
      change (length (walker_data (walker_new bs))) with (length bs).
      rewrite (read_rows_loop_full (read_palette_index pal) (dec_palette_index pal) 1
                 ltac:(lia) (read_palette_index_spec pal) W ltac:(lia) bs H)
        by (unfold row_size; rewrite Nat.mul_1_l; lia).
      unfold row_size. rewrite Nat.mul_1_l. rewrite <- Hd. f_equal. lia.
Qed.

(** ** The 4-bit codec *)

Lemma nibbles_check :
  forallb (fun a => forallb (fun b =>
     (Z.shiftr (Z.lor (as_u8 (Z.shiftl a 4)) (Z.land b 15)) 4 =? a)
     && (Z.land (Z.lor (as_u8 (Z.shiftl a 4)) (Z.land b 15)) 15 =? b)
     && (Z.shiftr (as_u8 (Z.shiftl a 4)) 4 =? a)
     && (Z.land (as_u8 (Z.shiftl a 4)) 15 =? 0))
    (map Z.of_nat (seq 0 16))) (map Z.of_nat (seq 0 16)) = true.
Proof. reflexivity. Qed.

Lemma nibble_pack (a b : Z) :
  0 <= a < 16 -> 0 <= b < 16 ->
  Z.shiftr (Z.lor (as_u8 (Z.shiftl a 4)) (Z.land b 15)) 4 = a /\
  Z.land (Z.lor (as_u8 (Z.shiftl a 4)) (Z.land b 15)) 15 = b /\
  Z.shiftr (as_u8 (Z.shiftl a 4)) 4 = a /\
  Z.land (as_u8 (Z.shiftl a 4)) 15 = 0.
Proof.
  intros Ha Hb. pose proof nibbles_check as H.
  assert (Hin : forall x, 0 <= x < 16 -> List.In x (map Z.of_nat (seq 0 16))).
  { intros x Hx. apply in_map_iff. exists (Z.to_nat x). split; [lia|].
    apply in_seq. lia. }
  rewrite forallb_forall in H. specialize (H a (Hin a Ha)).
  rewrite forallb_forall in H. specialize (H b (Hin b Hb)).
  rewrite !andb_true_iff, !Z.eqb_eq in H. tauto.
Qed.

Section Write4.
Variable pal : BitmapPalette.
Hypothesis Hpl : (length pal <= 16)%nat.
Hypothesis Hpal : Forall (fun q => pixel_wf q /\ q.(alpha) = 255) pal.

Lemma palette_index_4 (p : BitmapPixel) :
  pixel_wf p /\ in_palette pal p ->
  exists i, palette_index_u8 pal p = Some (Z.of_nat i) /\
    pal !! i = Some (set_alpha p 255) /\ (i < 16)%nat.
Proof.
  intros [Hp Hin].
  destruct (palette_index_u8_exact pal p ltac:(lia) Hpal Hp Hin) as (i & _ & Hq & Hlt & Hi).
  exists i. split; [exact Hi|]. split; [exact Hq|]. lia.
Qed.

Lemma write_4_pairs_spec (n : nat) : forall (data : list Z) (ps : list BitmapPixel),
  (2 * n <= length ps)%nat -> Forall (fun p => pixel_wf p /\ in_palette pal p) ps ->
  exists bs, write_4_pairs pal n data ps = Some (data ++ bs, drop (2 * n) ps) /\
    length bs = n /\
    forall r rest, decode_4_row pal (2 * n + r) (bs ++ rest)
      = (tl ← decode_4_row pal r rest;
         Some (map (fun p => set_alpha p 255) (take (2 * n) ps) ++ tl)).
Proof.
  induction n as [|n IH]; intros data ps Hn Hok.
  - exists []. rewrite app_nil_r, drop_0. split; [reflexivity|]. split; [reflexivity|].
    intros r rest. cbn [app]. rewrite Nat.add_0_l.
    destruct (decode_4_row pal r rest); reflexivity.
  - destruct ps as [|p0 [|p1 ps]]; [simpl in Hn; lia|simpl in Hn; lia|].
    apply Forall_cons in Hok as [Hp0 Hok]. apply Forall_cons in Hok as [Hp1 Hok].
    destruct (palette_index_4 p0 Hp0) as (i0 & Hi0 & Hq0 & Hlt0).
    destruct (palette_index_4 p1 Hp1) as (i1 & Hi1 & Hq1 & Hlt1).
    set (pd := Z.lor (as_u8 (Z.shiftl (Z.of_nat i0) 4)) (Z.land (Z.of_nat i1) 15)).
    destruct (IH (data ++ [pd]) ps ltac:(simpl in Hn; lia) Hok) as (bs & Hw & Hl & Hd).
    exists (pd :: bs). replace (2 * S n)%nat with (S (S (2 * n))) by lia.
    cbn [write_4_pairs]. rewrite Hi0, bind_Some, Hi1, bind_Some.
    fold pd. rewrite Hw, <- app_assoc.
    split; [reflexivity|]. split; [simpl; lia|].
    intros r rest.
    destruct (nibble_pack (Z.of_nat i0) (Z.of_nat i1) ltac:(lia) ltac:(lia))
      as (E0 & E1 & _ & _).
    change (S (S (2 * n)) + r)%nat with (S (S (2 * n + r))).
    cbn [decode_4_row take map]. change ((pd :: bs) ++ rest) with (pd :: bs ++ rest).
    change ((pd :: bs ++ rest) !! 0%nat) with (Some pd). rewrite bind_Some.
    unfold dec_4. fold pd in E0, E1. rewrite E0, E1, !Nat2Z.id, Hq0, Hq1, !bind_Some.
    cbv beta iota. change (drop 1 (pd :: bs ++ rest)) with (bs ++ rest).
    rewrite Hd. destruct (decode_4_row pal r rest); reflexivity.
Qed.
Lemma write_4_rows_spec (W P h : nat) : forall (data : list Z) (ps : list BitmapPixel),
  (h * W <= length ps)%nat -> Forall (fun p => pixel_wf p /\ in_palette pal p) ps ->
  exists bs,
    write_4_rows pal h (Z.of_nat W) (Z.of_nat P) data ps
      = Some (data ++ bs, drop (h * W) ps) /\
    length bs = (h * ((W + 1) / 2 + P))%nat /\
    decode_4_rows pal W ((W + 1) / 2 + P) h bs
      = Some (map (fun p => set_alpha p 255) (take (h * W) ps)).
Proof.
  pose proof (Nat.div_mod_eq W 2) as HWq. pose proof (Nat.mod_upper_bound W 2 ltac:(lia)).
  set (q := (W / 2)%nat) in *.
  induction h as [|h IH]; intros data ps Hn Hok.
  - exists []. rewrite app_nil_r, drop_0. split; [reflexivity|]. split; [reflexivity|].
    reflexivity.
  - cbn [write_4_rows].
    assert (Equot : Z.quot (Z.of_nat W) 2 = Z.of_nat q).
    { rewrite Z.quot_div_nonneg by lia. unfold q. rewrite Nat2Z.inj_div. reflexivity. }
    rewrite Equot, !Nat2Z.id.
    destruct (write_4_pairs_spec q data ps ltac:(nia) Hok) as (bs1 & Hw1 & Hl1 & Hd1).
    rewrite Hw1, bind_Some. cbv beta iota zeta.
    destruct (decide (W mod 2 = 1)%nat) as [Hodd|Heven].
    + replace (2 * Z.of_nat q <? Z.of_nat W) with true
        by (symmetry; apply Z.ltb_lt; lia).
      assert (Hlen' : (1 <= length (drop (2 * q) ps))%nat)
        by (rewrite length_drop; nia).
      destruct (drop (2 * q) ps) as [|p ps''] eqn:Edrop; [simpl in Hlen'; lia|].
      assert (Hokp : pixel_wf p /\ in_palette pal p).
      { pose proof (Forall_drop _ (2 * q) _ Hok) as Hd. rewrite Edrop in Hd.
        apply Forall_cons in Hd. tauto. }
      assert (Eps : ps'' = drop W ps).
      { replace W with (2 * q + 1)%nat by lia. rewrite <- drop_drop, Edrop. reflexivity. }
      destruct (palette_index_4 p Hokp) as (i & Hi & Hq & Hlt).
      rewrite Hi, bind_Some, bind_Some.
      set (x := as_u8 (Z.shiftl (Z.of_nat i) 4)).
      destruct (IH (((data ++ bs1) ++ [x]) ++ repeat 0 P) ps''
                  ltac:(rewrite Eps, length_drop; nia)
                  ltac:(rewrite Eps; apply Forall_drop; exact Hok))
        as (bs' & Hw' & Hl' & Hd').
      exists (bs1 ++ [x] ++ repeat 0 P ++ bs'). rewrite Hw'.
      split.
      { rewrite <- !app_assoc, Eps, drop_drop.
        replace (S h * W)%nat with (W + h * W)%nat by lia. reflexivity. }
      assert (HB : ((W + 1) / 2)%nat = S q)
        by (symmetry; apply Nat.div_unique with (r := 0%nat); lia).
      split.
      { rewrite !length_app, List.repeat_length. rewrite HB in Hl' |- *.
        cbn [length]. nia. }
      cbn [decode_4_rows].
      replace (decode_4_row pal W) with (decode_4_row pal (2 * q + 1)%nat)
        by (f_equal; lia).
      rewrite Hd1.
      destruct (nibble_pack (Z.of_nat i) 0 ltac:(lia) ltac:(lia)) as (_ & _ & E2 & E3).
      destruct (lookup_lt_is_Some_2 pal 0%nat) as [q0 Hq0'].
      { apply lookup_lt_Some in Hq. lia. }
      assert (Hq0 : pal !! 0%nat = Some q0) by exact Hq0'.
      cbn [decode_4_row app]. change ((x :: ?l) !! 0%nat) with (Some x). rewrite bind_Some.
      unfold dec_4. fold x in E2, E3. rewrite E2, E3, Nat2Z.id, Hq.
      rewrite bind_Some. replace (Z.to_nat 0) with 0%nat by reflexivity. rewrite Hq0, !bind_Some. cbv beta iota.
      rewrite ?bind_Some.
      assert (Edr : drop ((W + 1) / 2 + P) (bs1 ++ x :: repeat 0 P ++ bs') = bs').
      { change (x :: repeat 0 P ++ bs') with ((x :: repeat 0 P) ++ bs').
        rewrite app_assoc. apply drop_app_length'.
        rewrite length_app. cbn [length]. rewrite List.repeat_length. lia. }
      rewrite Edr, Hd', !bind_Some. f_equal.
      replace (S h * W)%nat with (2 * q + (1 + h * W))%nat by lia.
      rewrite <- take_take_drop, Edrop. cbn [take]. rewrite !map_app. cbn [map].
      rewrite <- app_assoc. reflexivity.
    + replace (2 * Z.of_nat q <? Z.of_nat W) with false
        by (symmetry; apply Z.ltb_ge; lia).
      rewrite bind_Some.
      assert (Eps : drop (2 * q) ps = drop W ps) by (f_equal; lia).
      rewrite Eps.
      destruct (IH ((data ++ bs1) ++ repeat 0 P) (drop W ps)
                  ltac:(rewrite length_drop; nia) (Forall_drop _ _ _ Hok))
        as (bs' & Hw' & Hl' & Hd').
      assert (HB : ((W + 1) / 2)%nat = q)
        by (symmetry; apply Nat.div_unique with (r := 1%nat); lia).
      exists (bs1 ++ repeat 0 P ++ bs'). rewrite Hw'.
      split.
      { rewrite <- !app_assoc, drop_drop.
        replace (S h * W)%nat with (W + h * W)%nat by lia. reflexivity. }
      split.
      { rewrite !length_app, List.repeat_length. nia. }
      cbn [decode_4_rows].
      replace (decode_4_row pal W) with (decode_4_row pal (2 * q + 0)%nat)
        by (f_equal; lia).
      rewrite Hd1. cbn [decode_4_row]. rewrite bind_Some, app_nil_r.
      rewrite app_assoc, (drop_app_length' _ _ ((W + 1) / 2 + P)%nat)
        by (rewrite !length_app, List.repeat_length; lia).
      rewrite Hd', bind_Some.
      replace (S h * W)%nat with (2 * q + h * W)%nat by lia.
      rewrite <- take_take_drop, Eps, map_app. reflexivity.
Qed.
End Write4.

Lemma uncompressed_4_round_trip (pixels : list BitmapPixel) (ih : BitmapInfoHeader)
    (pal : BitmapPalette) (W H : nat) :
  compression_type ih = compression_code Uncompressed -> bits_per_pixel ih = 4 ->
  image_width ih = Z.of_nat W -> image_height ih = Z.of_nat H ->
  3 * Z.of_nat W < 2 ^ 31 -> length pixels = (W * H)%nat ->
  Forall pixel_wf pixels -> palette_fits pal 16 pixels ->
  exists data, pixels_into_data pixels [] ih (Some pal) = Some data /\
    interpret_image_data data ih (Some pal) = Some (map (decoded_pixel ih) pixels).
Proof.
  intros Hc Hb HW HH Hbound Hlen Hwf (Hpl & Hpal & Hin).
  set (B := ((W + 1) / 2)%nat). set (P := pad_to_align_nat B 4).
  destruct (write_4_rows_spec pal Hpl Hpal W P H (@nil Z) pixels ltac:(lia)
              (proj2 (Forall_and _ _) (conj Hwf Hin) : Forall (fun p => pixel_wf p /\ in_palette pal p) pixels))
    as (bs & Hw & Hl & Hd).
  exists bs.
  unfold pixels_into_data, interpret_image_data. rewrite Hc, Hb.
  cbv [Z.eqb Pos.eqb compression_code]. rewrite !bind_Some.
  split.
  - unfold write_4_uncompressed. rewrite HW, HH.
    rewrite i32_add_ok by lia. rewrite bind_Some. cbv beta zeta.
    assert (Eq : Z.quot (Z.of_nat W + 1) 2 = Z.of_nat B).
    { rewrite Z.quot_div_nonneg by lia. unfold B. rewrite Nat2Z.inj_div. f_equal. lia. }
    rewrite Eq. change 4 with (Z.of_nat 4). rewrite pad_to_align_i32_of_nat by lia.
    rewrite Nat2Z.id. fold P. rewrite Hw. reflexivity.
  - rewrite HW. rewrite take_ge in Hd by lia.
    replace (map (decoded_pixel ih) pixels) with (map (fun p => set_alpha p 255) pixels)
      by (apply map_ext; intros p; symmetry; apply decoded_pixel_uncompressed, Hc).
    destruct (decide (W = 0%nat)) as [->|HW0].
    + destruct pixels; [|simpl in Hlen; lia].
      destruct bs; [reflexivity|].
      unfold P, B, pad_to_align_nat in Hl. simpl in Hl. lia.
    + rewrite (read_4_full pal W ltac:(lia) H bs)
        by (unfold row_size; rewrite Nat.mul_1_l; exact Hl).
      unfold row_size. rewrite Nat.mul_1_l. exact Hd.
Qed.

(** ** The 1-bit codec *)

Lemma bits_check :
  forallb (fun n => forallb (fun bits =>
     bool_decide (byte_to_bits n (bits_to_byte bits 128 0) 128 = bits)) (all_bits n))
    (seq 0 9) = true.
Proof. reflexivity. Qed.

Lemma all_bits_complete (bits : list bool) : In bits (all_bits (length bits)).
Proof.
  induction bits as [|b bits IH]; simpl; [left; reflexivity|].
  apply in_or_app. destruct b; [right|left]; apply in_map; exact IH.
Qed.

Lemma bits_round_trip (bits : list bool) :
  (length bits <= 8)%nat -> byte_to_bits (length bits) (bits_to_byte bits 128 0) 128 = bits.
Proof.
  intros Hl. pose proof bits_check as Hc.
  rewrite forallb_forall in Hc.
  assert (Hin : In (length bits) (seq 0 9)) by (apply in_seq; lia).
  specialize (Hc (length bits) Hin).
  rewrite forallb_forall in Hc.
  specialize (Hc bits (all_bits_complete bits)).
  apply bool_decide_eq_true in Hc. exact Hc.
Qed.

Lemma byte_from_pixels_loop_bits (pal : BitmapPalette) (ps : list BitmapPixel) :
  Forall (fun p => is_Some (find_closest_by_index p pal)) ps ->
  forall mask r, byte_from_pixels_loop pal ps mask r
                 = Some (bits_to_byte (map (palette_bit pal) ps) mask r).
Proof.
  induction 1 as [|p ps [i Hi] _ IH]; intros mask r; [reflexivity|].
  cbn [byte_from_pixels_loop map bits_to_byte]. rewrite Hi, bind_Some.
  replace (palette_bit pal p) with (negb (i =? 0)%nat)
    by (unfold palette_bit; rewrite Hi; reflexivity).
  apply IH.
Qed.

Lemma append_pixels_loop_bits (pal : BitmapPalette) (b : Z) (ps : list BitmapPixel) :
  Forall (fun p => pal !! (if palette_bit pal p then 1 else 0)%nat = Some (set_alpha p 255)) ps ->
  forall mask vec, byte_to_bits (length ps) b mask = map (palette_bit pal) ps ->
  append_pixels_loop pal (length ps) b mask vec
  = Some (vec ++ map (fun p => set_alpha p 255) ps).
Proof.
  induction 1 as [|p ps Hp _ IH]; intros mask vec Hbits.
  - simpl. rewrite app_nil_r. reflexivity.
  - cbn [length append_pixels_loop byte_to_bits map] in *.
    injection Hbits as Hb Hbits.
    replace (if Z.land b mask =? 0 then pal !! 0%nat else pal !! 1%nat)
      with (pal !! (if palette_bit pal p then 1 else 0)%nat)
      by (rewrite <- Hb; destruct (Z.land b mask =? 0); reflexivity).
    rewrite Hp, bind_Some, IH by exact Hbits. rewrite <- app_assoc. reflexivity.
Qed.

Section Write1.
Variable pal : BitmapPalette.
Hypothesis Hpl : (length pal <= 2)%nat.
Hypothesis Hpal : Forall (fun q => pixel_wf q /\ q.(alpha) = 255) pal.

Lemma palette_bit_spec (p : BitmapPixel) :
  pixel_wf p /\ in_palette pal p ->
  is_Some (find_closest_by_index p pal) /\
  pal !! (if palette_bit pal p then 1 else 0)%nat = Some (set_alpha p 255).
Proof.
  intros [Hp Hin].
  destruct (find_closest_exact pal p Hpal Hp Hin) as (i & Hi & Hq).
  pose proof (lookup_lt_Some _ _ _ Hq) as Hlt.
  split; [exists i; exact Hi|].
  unfold palette_bit. rewrite Hi.
  destruct i as [|[|i]]; [exact Hq|exact Hq|lia].
Qed.

Lemma pixel_block_spec (ps : list BitmapPixel) :
  (length ps <= 8)%nat -> Forall (fun p => pixel_wf p /\ in_palette pal p) ps ->
  exists b, byte_from_pixels pal ps = Some b /\
    append_pixels_loop pal (length ps) b 128 [] = Some (map (fun p => set_alpha p 255) ps).
Proof.
  intros Hl Hok.
  exists (bits_to_byte (map (palette_bit pal) ps) 128 0).
  split.
  - unfold byte_from_pixels. apply byte_from_pixels_loop_bits.
    eapply Forall_impl; [exact Hok|]. intros p Hp. apply palette_bit_spec, Hp.
  - apply append_pixels_loop_bits.
    + eapply Forall_impl; [exact Hok|]. intros p Hp. apply palette_bit_spec, Hp.
    + rewrite <- (length_map (palette_bit pal) ps) at 1.
      apply bits_round_trip. rewrite length_map. exact Hl.
Qed.
Lemma write_1_full_bytes_spec (q : nat) : forall (data : list Z) (ps : list BitmapPixel),
  (8 * q <= length ps)%nat -> Forall (fun p => pixel_wf p /\ in_palette pal p) ps ->
  exists bs,
    write_1_full_bytes pal q data ps = Some (data ++ bs, drop (8 * q) ps) /\
    length bs = q /\
    forall rest, decode_1_full pal q (bs ++ rest)
                 = Some (map (fun p => set_alpha p 255) (take (8 * q) ps)).
Proof.
  induction q as [|q IH]; intros data ps Hn Hok.
  - exists []. rewrite app_nil_r, drop_0. split; [reflexivity|]. split; [reflexivity|].
    intros rest. reflexivity.
  - cbn [write_1_full_bytes]. unfold next_block.
    replace (Z.of_nat (length ps) <? 8) with false by (symmetry; apply Z.ltb_ge; lia).
    change (Z.to_nat 8) with 8%nat. rewrite bind_Some. cbv beta iota.
    destruct (pixel_block_spec (take 8 ps) ltac:(rewrite length_take; lia)
                (Forall_take _ _ _ Hok)) as (b & Hb & Hdec).
    rewrite length_take in Hdec. replace (min 8 (length ps)) with 8%nat in Hdec by lia.
    rewrite Hb, bind_Some.
    destruct (IH (data ++ [b]) (drop 8 ps) ltac:(rewrite length_drop; lia)
                (Forall_drop _ _ _ Hok)) as (bs & Hw & Hl & Hd).
    exists (b :: bs). rewrite Hw. split.
    { rewrite drop_drop, <- app_assoc. replace (8 + 8 * q)%nat with (8 * S q)%nat by lia.
      reflexivity. }
    split; [simpl; lia|].
    intros rest. cbn [decode_1_full].
    change (((b :: bs) ++ rest) !! 0%nat) with (Some b). rewrite bind_Some, Hdec, bind_Some.
    change (drop 1 ((b :: bs) ++ rest)) with (bs ++ rest). rewrite Hd, bind_Some.
    replace (8 * S q)%nat with (8 + 8 * q)%nat by lia.
    rewrite <- take_take_drop, map_app. reflexivity.
Qed.

Lemma write_1_rows_spec (W P h : nat) : forall (data : list Z) (ps : list BitmapPixel),
  (h * W <= length ps)%nat -> Forall (fun p => pixel_wf p /\ in_palette pal p) ps ->
  exists bs,
    write_1_rows pal h (Z.of_nat W) (Z.of_nat (W mod 8)) (Z.of_nat P) data ps
      = Some (data ++ bs, drop (h * W) ps) /\
    length bs = (h * ((W + 7) / 8 + P))%nat /\
    decode_1_rows pal W ((W + 7) / 8 + P) h bs
      = Some (map (fun p => set_alpha p 255) (take (h * W) ps)).
Proof.
  pose proof (ceil_div_8 W) as Hceil.
  pose proof (Nat.div_mod_eq W 8) as HWq. pose proof (Nat.mod_upper_bound W 8 ltac:(lia)).
  set (q := (W / 8)%nat) in *. set (r := (W mod 8)%nat) in *.
  induction h as [|h IH]; intros data ps Hn Hok.
  - exists []. rewrite app_nil_r, drop_0. split; [reflexivity|]. split; [reflexivity|].
    reflexivity.
  - cbn [write_1_rows].
    assert (Equot : Z.quot (Z.of_nat W) 8 = Z.of_nat q).
    { rewrite Z.quot_div_nonneg by lia. unfold q. rewrite Nat2Z.inj_div. reflexivity. }
    rewrite Equot, !Nat2Z.id.
    destruct (write_1_full_bytes_spec q data ps ltac:(nia) Hok) as (bs1 & Hw1 & Hl1 & Hd1).
    rewrite Hw1, bind_Some. cbv beta iota zeta.
    destruct (Nat.ltb_spec 0 r) as [Hpos|Hzero].
    + assert (Er : (Z.of_nat r =? 0) = false) by (apply Z.eqb_neq; lia).
      rewrite Er. cbn [negb]. unfold next_block. rewrite length_drop.
      replace (Z.of_nat (length ps - 8 * q) <? Z.of_nat r) with false
        by (symmetry; apply Z.ltb_ge; nia).
      rewrite Nat2Z.id, bind_Some. cbv beta iota.
      destruct (pixel_block_spec (take r (drop (8 * q) ps))
                  ltac:(rewrite length_take; lia)
                  (Forall_take _ _ _ (Forall_drop _ _ _ Hok))) as (b & Hb & Hdec).
      rewrite length_take, length_drop in Hdec.
      replace (min r (length ps - 8 * q)) with r in Hdec by nia.
      rewrite Hb, bind_Some. cbv beta iota.
      set (rest := drop r (drop (8 * q) ps)).
      assert (Erest : rest = drop W ps)
        by (unfold rest; rewrite drop_drop; f_equal; lia).
      destruct (IH (((data ++ bs1) ++ [b]) ++ repeat 0 P) rest
                  ltac:(rewrite Erest, length_drop; nia)
                  ltac:(rewrite Erest; apply Forall_drop; exact Hok))
        as (bs' & Hw' & Hl' & Hd').
      rewrite bind_Some. cbv beta iota.
      exists (bs1 ++ [b] ++ repeat 0 P ++ bs'). rewrite Hw'.
      assert (HB : ((W + 7) / 8)%nat = S q) by (rewrite Hceil; lia).
      split.
      { rewrite <- !app_assoc, Erest, drop_drop.
        replace (S h * W)%nat with (W + h * W)%nat by lia. reflexivity. }
      split.
      { rewrite !length_app, List.repeat_length. rewrite HB in Hl' |- *.
        cbn [length]. nia. }
      cbn [decode_1_rows]. unfold decode_1_row.
      change (W / 8)%nat with q. change (W mod 8)%nat with r.
      rewrite Hd1, bind_Some.
      replace (0 <? r)%nat with true by (symmetry; apply Nat.ltb_lt; lia).
      assert (Hlk : (bs1 ++ [b] ++ repeat 0 P ++ bs') !! q = Some b).
      { rewrite lookup_app_r by lia. rewrite Hl1, Nat.sub_diag. reflexivity. }
      rewrite Hlk, bind_Some, Hdec, !bind_Some.
      assert (Edr : drop ((W + 7) / 8 + P) (bs1 ++ [b] ++ repeat 0 P ++ bs') = bs').
      { rewrite !app_assoc. apply drop_app_length'.
        rewrite !length_app, List.repeat_length. cbn [length]. lia. }
      rewrite Edr, Hd', bind_Some.
      replace (S h * W)%nat with (8 * q + (r + h * W))%nat by lia.
      rewrite <- take_take_drop, <- take_take_drop. fold rest.
      rewrite !map_app, <- app_assoc. reflexivity.
    + assert (Er : (Z.of_nat r =? 0) = true) by (apply Z.eqb_eq; lia).
      rewrite Er. cbn [negb]. rewrite bind_Some. cbv beta iota.
      assert (Eps : drop (8 * q) ps = drop W ps) by (f_equal; lia).
      rewrite Eps.
      destruct (IH ((data ++ bs1) ++ repeat 0 P) (drop W ps)
                  ltac:(rewrite length_drop; nia) (Forall_drop _ _ _ Hok))
        as (bs' & Hw' & Hl' & Hd').
      assert (HB : ((W + 7) / 8)%nat = q) by (rewrite Hceil; lia).
      exists (bs1 ++ repeat 0 P ++ bs'). rewrite Hw'.
      split.
      { rewrite <- !app_assoc, drop_drop.
        replace (S h * W)%nat with (W + h * W)%nat by lia. reflexivity. }
      split.
      { rewrite !length_app, List.repeat_length. nia. }
      cbn [decode_1_rows]. unfold decode_1_row.
      change (W / 8)%nat with q. change (W mod 8)%nat with r.
      rewrite Hd1, bind_Some.
      replace (0 <? r)%nat with false by (symmetry; apply Nat.ltb_ge; lia).
      rewrite app_assoc, (drop_app_length' _ _ ((W + 7) / 8 + P)%nat)
        by (rewrite !length_app, List.repeat_length; lia).
      rewrite Hd', bind_Some.
      replace (S h * W)%nat with (8 * q + h * W)%nat by lia.
      rewrite <- take_take_drop, Eps, map_app. reflexivity.
Qed.
End Write1.

Lemma uncompressed_1_round_trip (pixels : list BitmapPixel) (ih : BitmapInfoHeader)
    (pal : BitmapPalette) (W H : nat) :
  compression_type ih = compression_code Uncompressed -> bits_per_pixel ih = 1 ->
  image_width ih = Z.of_nat W -> image_height ih = Z.of_nat H ->
  3 * Z.of_nat W < 2 ^ 31 -> length pixels = (W * H)%nat ->
  Forall pixel_wf pixels -> palette_fits pal 2 pixels ->
  exists data, pixels_into_data pixels [] ih (Some pal) = Some data /\
    interpret_image_data data ih (Some pal) = Some (map (decoded_pixel ih) pixels).
Proof.
  intros Hc Hb HW HH Hbound Hlen Hwf (Hpl & Hpal & Hin).
  set (B := ((W + 7) / 8)%nat). set (P := pad_to_align_nat B 4).
  destruct (write_1_rows_spec pal Hpl Hpal W P H (@nil Z) pixels ltac:(lia)
              (proj2 (Forall_and _ _) (conj Hwf Hin) :
                 Forall (fun p => pixel_wf p /\ in_palette pal p) pixels))
    as (bs & Hw & Hl & Hd).
  exists bs.
  unfold pixels_into_data, interpret_image_data. rewrite Hc, Hb.
  cbv [Z.eqb Pos.eqb compression_code]. rewrite !bind_Some.
  split.
  - unfold write_1_uncompressed. rewrite HW, HH.
    assert (Erem : as_usize (Z.of_nat W - Z.quot (Z.of_nat W) 8 * 8) = Z.of_nat (W mod 8)).
    { rewrite Z.quot_div_nonneg by lia.
      assert (E : Z.of_nat W - Z.of_nat W / 8 * 8 = Z.of_nat (W mod 8))
        by (rewrite Nat2Z.inj_mod, Z.mod_eq by lia; lia).
      rewrite E. unfold as_usize. apply Z.mod_small.
      pose proof (Nat.mod_upper_bound W 8 ltac:(lia)). lia. }
    rewrite Erem.
    change 8 with (Z.of_nat 8) at 2. rewrite pad_to_align_i32_of_nat by lia.
    pose proof (Nat.mod_upper_bound (8 - W mod 8) 8 ltac:(lia)) as Hpad.
    rewrite i32_add_ok by (unfold pad_to_align_nat; lia). rewrite bind_Some.
    cbv beta zeta.
    assert (Eq : Z.quot (Z.of_nat W + Z.of_nat (pad_to_align_nat W 8)) 8 = Z.of_nat B).
    { rewrite <- Nat2Z.inj_add, Z.quot_div_nonneg by lia.
      change 8 with (Z.of_nat 8). rewrite <- Nat2Z.inj_div, pad_to_align_nat_8.
      reflexivity. }
    rewrite Eq. change 4 with (Z.of_nat 4). rewrite pad_to_align_i32_of_nat by lia.
    rewrite Nat2Z.id. fold P. rewrite Hw. reflexivity.
  - rewrite HW, HH. rewrite take_ge in Hd by lia.
    replace (map (decoded_pixel ih) pixels) with (map (fun p => set_alpha p 255) pixels)
      by (apply map_ext; intros p; symmetry; apply decoded_pixel_uncompressed, Hc).
    unfold read_1_uncompressed. rewrite Nat2Z.id.
    change (walker_new bs) with (mkWalker bs 0).
    rewrite (read_1_rows_spec pal W H 0 bs []) by
      (try reflexivity; unfold row_size; rewrite Nat.mul_1_l; fold B P; lia).
    rewrite drop_0. unfold row_size. rewrite Nat.mul_1_l. fold B P. fold B in Hd. rewrite Hd.
    reflexivity.
Qed.

(** C1: encoding a [width * height] grid of byte-valued pixels with
    [pixels_into_data] and decoding the bytes with [interpret_image_data]
    gives back the grid, with alpha set to 255 unless the image is 32-bit
    BitFields with a nonzero alpha mask. The formats covered: 32-bit
    BitFields with byte-lane masks, 32-bit and 24-bit Uncompressed, and 8-,
    4- and 1-bit Uncompressed with a palette of at most 256, 16 and 2 opaque
    entries holding every pixel's colour. *)
Theorem pixels_into_data_round_trip (pixels : list BitmapPixel) (ih : BitmapInfoHeader)
    (pal : BitmapPalette) (W H : nat) :
  image_width ih = Z.of_nat W -> image_height ih = Z.of_nat H ->
  3 * Z.of_nat W < 2 ^ 31 -> length pixels = (W * H)%nat ->
  Forall pixel_wf pixels -> round_trip_format ih pal pixels ->
  exists data, pixels_into_data pixels [] ih (Some pal) = Some data /\
    interpret_image_data data ih (Some pal) = Some (map (decoded_pixel ih) pixels).
Proof.
  intros HW HH Hbound Hlen Hwf Hfmt.
  destruct Hfmt as [(Hc & Hb & Hm) | [(Hc & [Hb|Hb]) | (Hc & b & Hbin & Hb & Hfit)]].
  - apply bitfield_32_round_trip; assumption.
  - apply uncompressed_32_round_trip; assumption.
  - apply (uncompressed_24_round_trip pixels ih (Some pal) W H); assumption.
  - rewrite !elem_of_cons, elem_of_nil in Hbin.
    destruct Hbin as [->|[->|[->|[]]]].
    + apply (uncompressed_1_round_trip pixels ih pal W H); assumption.
    + apply (uncompressed_4_round_trip pixels ih pal W H); assumption.
    + apply (uncompressed_8_round_trip pixels ih pal W H); assumption.
Qed.

Lemma pixels_into_data_round_trip_witness :
  exists data,
    pixels_into_data [rgb 255 255 255; rgb 0 0 0; rgb 255 255 255] []
      (mkInfoHeader 40 3 1 1 1 0 4 0 0 2 2 0 0 0 0 false)
      (Some [rgb 0 0 0; rgb 255 255 255]) = Some data /\
    interpret_image_data data (mkInfoHeader 40 3 1 1 1 0 4 0 0 2 2 0 0 0 0 false)
      (Some [rgb 0 0 0; rgb 255 255 255])
    = Some (map (decoded_pixel (mkInfoHeader 40 3 1 1 1 0 4 0 0 2 2 0 0 0 0 false))
                [rgb 255 255 255; rgb 0 0 0; rgb 255 255 255]).
Proof.
  apply (pixels_into_data_round_trip _ _ _ 3 1).
  - reflexivity.
  - reflexivity.
  - lia.
  - reflexivity.
  - unfold pixel_wf, is_byte. simpl.
    constructor; [simpl; lia|]. constructor; [simpl; lia|]. constructor; [simpl; lia|].
    constructor.
  - right; right. split; [reflexivity|]. exists 1%nat.
    split; [apply elem_of_cons; left; reflexivity|].
    split; [reflexivity|]. split; [simpl; lia|]. split.
    + unfold pixel_wf, is_byte. simpl.
      constructor; [simpl; lia|]. constructor; [simpl; lia|]. constructor.
    + assert (H0 : in_palette [rgb 0 0 0; rgb 255 255 255] (rgb 0 0 0)).
      { exists (rgb 0 0 0). split; [apply elem_of_cons; left; reflexivity|].
        split; [reflexivity|]. split; reflexivity. }
      assert (H1 : in_palette [rgb 0 0 0; rgb 255 255 255] (rgb 255 255 255)).
      { exists (rgb 255 255 255).
        split; [apply elem_of_cons; right; apply elem_of_cons; left; reflexivity|].
        split; [reflexivity|]. split; reflexivity. }
      constructor; [exact H1|]. constructor; [exact H0|].
      constructor; [exact H1|]. constructor.
Defined.

(** C1 fails for 16-bit BitFields: with the 5-6-5 masks a pixel of red 1
    is written as the [u16] 0 and decodes with red 0. *)
Lemma bitfield_16_round_trip_lossy :
  exists data,
    pixels_into_data [rgb 1 0 0] []
      (mkInfoHeader 56 1 1 1 16 3 4 0 0 0 0 63488 2016 31 0 false) None = Some data /\
    interpret_image_data data
      (mkInfoHeader 56 1 1 1 16 3 4 0 0 0 0 63488 2016 31 0 false) None
    = Some [rgb 0 0 0].
Proof. exists [0; 0; 0; 0]. split; vm_compute; reflexivity. Qed.

(** ** Headers, palette, mirroring, merging, cropping, conversion and
    whole-file round trip *)

Lemma le_value_u16 (v : Z) : le_value [as_u8 v; as_u8 (Z.shiftr v 8)] = as_u16 v.
Proof.
  unfold as_u8, as_u16. cbn [le_value]. rewrite Z.shiftr_div_pow2 by lia.
  change (2 ^ 16) with (2 ^ 8 * 2 ^ 8). rewrite Z.rem_mul_r by lia. lia.
Qed.

Lemma file_header_decode_encode (fh : BitmapFileHeader) (rest : list Z) :
  0 <= fh.(magic_number) < 2 ^ 16 -> 0 <= fh.(file_size) < 2 ^ 32 ->
  0 <= fh.(reserved1) < 2 ^ 16 -> 0 <= fh.(reserved2) < 2 ^ 16 ->
  0 <= fh.(pixel_array_offset) < 2 ^ 32 ->
  file_header_from_data (file_header_into_data fh [] ++ rest) = Some fh.
Proof.
  destruct fh as [m fs r1 r2 po]; cbn [magic_number file_size reserved1 reserved2 pixel_array_offset].
  intros Hm Hfs Hr1 Hr2 Hpo.
  unfold file_header_from_data, file_header_into_data, push_u16, push_u32.
  cbn -[as_u8 le_value].
  rewrite !le_value_u16, !le_value_u32. unfold as_u16, as_u32.
  rewrite !Z.mod_small by assumption. reflexivity.
Qed.

Lemma as_i32_as_u32 (v : Z) : - 2 ^ 31 <= v < 2 ^ 31 -> as_i32 (as_u32 v) = v.
Proof.
  intros Hv. unfold as_i32, as_u32. rewrite Z.mod_mod by lia.
  destruct (Z_lt_le_dec v 0) as [Hn|Hp].
  - replace (v mod 2 ^ 32) with (v + 2 ^ 32)
      by (apply Z.mod_unique with (q := -1); lia).
    replace (v + 2 ^ 32 <? 2 ^ 31) with false by (symmetry; apply Z.ltb_ge; lia). lia.
  - rewrite Z.mod_small by lia.
    replace (v <? 2 ^ 31) with true by (symmetry; apply Z.ltb_lt; lia). reflexivity.
Qed.


Lemma info_header_decode_encode (ih : BitmapInfoHeader) (rest : list Z) :
  0 <= ih.(info_header_size) < 2 ^ 32 ->
  - 2 ^ 31 <= ih.(image_width) < 2 ^ 31 ->
  - 2 ^ 31 < ih.(image_height) < 2 ^ 31 ->
  0 <= ih.(n_planes) < 2 ^ 16 -> 0 <= ih.(bits_per_pixel) < 2 ^ 16 ->
  0 <= ih.(compression_type) < 2 ^ 32 -> 0 <= ih.(image_size) < 2 ^ 32 ->
  - 2 ^ 31 <= ih.(pixels_per_meter_x) < 2 ^ 31 ->
  - 2 ^ 31 <= ih.(pixels_per_meter_y) < 2 ^ 31 ->
  0 <= ih.(colors_used) < 2 ^ 32 -> 0 <= ih.(colors_important) < 2 ^ 32 ->
  0 <= ih.(red_mask) < 2 ^ 32 -> 0 <= ih.(green_mask) < 2 ^ 32 ->
  0 <= ih.(blue_mask) < 2 ^ 32 -> 0 <= ih.(alpha_mask) < 2 ^ 32 ->
  info_header_from_data (info_header_into_data ih [] ++ rest)
  = Some (mkInfoHeader ih.(info_header_size) ih.(image_width) (Z.abs ih.(image_height))
            ih.(n_planes) ih.(bits_per_pixel) ih.(compression_type) ih.(image_size)
            ih.(pixels_per_meter_x) ih.(pixels_per_meter_y) ih.(colors_used)
            ih.(colors_important)
            (if 40 <? ih.(info_header_size) then ih.(red_mask) else 0)
            (if 40 <? ih.(info_header_size) then ih.(green_mask) else 0)
            (if 40 <? ih.(info_header_size) then ih.(blue_mask) else 0)
            (if 40 <? ih.(info_header_size) then ih.(alpha_mask) else 0)
            (ih.(image_height) <? 0)).
Proof.
  destruct ih as [hs w h pl bpp ct is px py cu ci rm gm bm am td]; cbn -[Z.pow].
  intros Hhs Hw Hh Hpl Hbpp Hct His Hpx Hpy Hcu Hci Hrm Hgm Hbm Ham.
  unfold info_header_from_data, info_header_into_data, push_u16, push_u32, push_i32.
  cbn [info_header_size image_width image_height n_planes bits_per_pixel compression_type
       image_size pixels_per_meter_x pixels_per_meter_y colors_used colors_important
       red_mask green_mask blue_mask alpha_mask].
  destruct (40 <? hs) eqn:E40;
    cbn -[as_u8 le_value as_i32 Z.pow Z.ltb Z.eqb];
    rewrite ?le_value_u16, ?le_value_u32;
    rewrite ?(as_i32_as_u32 w), ?(as_i32_as_u32 h), ?(as_i32_as_u32 px),
      ?(as_i32_as_u32 py) by lia;
    unfold as_u16, as_u32; rewrite ?(Z.mod_small hs), ?(Z.mod_small pl), ?(Z.mod_small bpp),
      ?(Z.mod_small ct), ?(Z.mod_small is), ?(Z.mod_small cu), ?(Z.mod_small ci)
      by assumption;
    (destruct (Z.ltb_spec h 0);
     [replace (h =? - 2 ^ 31) with false by (symmetry; apply Z.eqb_neq; lia);
      rewrite Z.abs_neq by lia
     | rewrite Z.abs_eq by lia]);
    cbn -[as_u8 le_value as_i32 Z.pow Z.ltb Z.eqb]; rewrite ?E40;
    cbn -[as_u8 le_value as_i32 Z.pow Z.ltb Z.eqb];
    rewrite ?le_value_u32; unfold as_u32;
    rewrite ?(Z.mod_small rm), ?(Z.mod_small gm), ?(Z.mod_small bm), ?(Z.mod_small am)
      by assumption;
    reflexivity.
Qed.

Lemma rgb_u32_alpha (color : Z) : rgb_u32 color = set_alpha (rgba_u32 color) 255.
Proof.
  unfold rgb_u32, rgba_u32, rgba, set_alpha. cbn [blue green red].
  assert (Hs : forall k, 8 <= k -> Z.shiftr (Z.lor color 255) k = Z.shiftr color k).
  { intros k Hk. rewrite Z.shiftr_lor.
    replace (Z.shiftr 255 k) with 0 by
      (rewrite Z.shiftr_div_pow2 by lia; symmetry; apply Z.div_small;
       split; [lia|]; apply Z.lt_le_trans with (2 ^ 8); [lia|apply Z.pow_le_mono_r; lia]).
    apply Z.lor_0_r. }
  rewrite !Hs by lia. f_equal.
  unfold as_u8. rewrite <- Z.land_ones by lia.
  apply Z.bits_inj'. intros n Hn. rewrite Z.land_spec, Z.lor_spec.
  destruct (Z_lt_le_dec n 8).
  - assert (Z.testbit 255 n = true) as ->.
    { assert (n = 0 \/ n = 1 \/ n = 2 \/ n = 3 \/ n = 4 \/ n = 5 \/ n = 6 \/ n = 7) by lia.
      repeat match goal with H : _ \/ _ |- _ => destruct H as [->|H] end; subst; reflexivity. }
    rewrite Z.ones_spec_low by lia. rewrite orb_true_r. reflexivity.
  - rewrite (Z.ones_spec_high 8 n) by lia. rewrite andb_false_r.
    symmetry. apply Z.bits_above_log2; [lia|]. simpl. lia.
Qed.

Lemma rgba_u32_unpack (r g b a : Z) :
  is_byte r -> is_byte g -> is_byte b -> is_byte a ->
  rgba_u32 (r * 2 ^ 24 + g * 2 ^ 16 + b * 2 ^ 8 + a) = rgba r g b a.
Proof.
  unfold is_byte. intros Hr Hg Hb Ha.
  set (c := r * 2 ^ 24 + g * 2 ^ 16 + b * 2 ^ 8 + a).
  assert (E24 : c / 2 ^ 24 = r) by (symmetry; apply Z.div_unique with (r := g * 2 ^ 16 + b * 2 ^ 8 + a); [left|unfold c]; lia).
  assert (E16 : c / 2 ^ 16 = r * 256 + g) by (symmetry; apply Z.div_unique with (r := b * 2 ^ 8 + a); [left|unfold c]; lia).
  assert (E8 : c / 2 ^ 8 = r * 65536 + g * 256 + b) by (symmetry; apply Z.div_unique with (r := a); [left|unfold c]; lia).
  unfold rgba_u32, as_u8. rewrite !Z.shiftr_div_pow2 by lia. rewrite E24, E16, E8.
  f_equal.
  - symmetry. apply Z.mod_unique with (q := 0); [left|]; lia.
  - symmetry. apply Z.mod_unique with (q := r); [left|]; lia.
  - symmetry. apply Z.mod_unique with (q := r * 256 + g); [left|]; lia.
  - symmetry. apply Z.mod_unique with (q := r * 65536 + g * 256 + b); [left|unfold c]; lia.
Qed.

Lemma read_palette_loop_spec (pal : BitmapPalette) :
  forall (fuel j : nat) (D : list Z) (acc : BitmapPalette),
  drop j D = concat (map (fun p => [p.(blue); p.(green); p.(red); 0]) pal) ->
  (length pal < fuel)%nat ->
  read_palette_loop fuel (mkWalker D j) acc = Some (acc ++ map (fun p => set_alpha p 255) pal).
Proof.
  induction pal as [|p pal IH]; intros fuel j D acc Hd Hf.
  - destruct fuel as [|fuel]; [lia|]. cbn [map concat] in Hd.
    assert (length D <= j)%nat by (apply (f_equal length) in Hd; rewrite length_drop in Hd; simpl in Hd; lia).
    simpl. unfold has_data. cbn [current_index walker_data].
    destruct (Nat.ltb_spec j (length D)); [lia|]. rewrite app_nil_r. reflexivity.
  - destruct fuel as [|fuel]; [simpl in Hf; lia|]. cbn [map concat] in Hd.
    assert (Hk : forall k, (k < 4)%nat -> D !! (j + k)%nat = [p.(blue); p.(green); p.(red); 0] !! k).
    { intros k Hk. rewrite <- lookup_drop, Hd. rewrite lookup_app_l by (simpl; lia). reflexivity. }
    assert (Hlen : (j + 4 <= length D)%nat).
    { apply (f_equal length) in Hd. rewrite length_drop, length_app in Hd. simpl in Hd. lia. }
    cbn [read_palette_loop]. unfold has_data. cbn [current_index walker_data].
    destruct (Nat.ltb_spec j (length D)); [|lia].
    assert (H0 : D !! j = Some p.(blue))
      by (rewrite <- (Nat.add_0_r j), Hk by lia; reflexivity).
    assert (H1 : D !! S j = Some p.(green))
      by (rewrite <- Nat.add_1_r, Hk by lia; reflexivity).
    assert (H2 : D !! S (S j) = Some p.(red))
      by (replace (S (S j)) with (j + 2)%nat by lia; rewrite Hk by lia; reflexivity).
    assert (H3 : D !! S (S (S j)) = Some 0)
      by (replace (S (S (S j))) with (j + 3)%nat by lia; rewrite Hk by lia; reflexivity).
    unfold next_u8. cbn [current_index walker_data].
    rewrite H0, !bind_Some. cbv beta iota zeta. cbn [current_index walker_data].
    rewrite H1, !bind_Some. cbv beta iota zeta. cbn [current_index walker_data].
    rewrite H2, !bind_Some. cbv beta iota zeta. cbn [current_index walker_data].
    rewrite H3, !bind_Some. cbv beta iota zeta. cbn [current_index walker_data].
    replace (S (S (S (S j)))) with (j + 4)%nat by lia.
    rewrite IH.
    + rewrite <- app_assoc. reflexivity.
    + rewrite <- drop_drop, Hd. reflexivity.
    + simpl in Hf. lia.
Qed.

(** X5: [read_palette] reads back the palette bytes that [Bitmap::into_data]
    writes, with every alpha set to [0xff]. *)
Theorem read_palette_round_trip (pal : BitmapPalette) :
  read_palette (palette_into_data pal []) = Some (map (fun p => set_alpha p 255) pal).
Proof.
  unfold read_palette, palette_into_data.
  rewrite (foldl_app_concat _ (fun p => [p.(blue); p.(green); p.(red); 0])) by reflexivity.
  cbn [app]. unfold walker_new.
  rewrite (read_palette_loop_spec pal _ 0%nat _ []).
  - reflexivity.
  - reflexivity.
  - rewrite length_concat_const with (k := 4%nat).
    + rewrite ?length_map; lia.
    + apply Forall_forall. intros; reflexivity.
Qed.

Section MirrorSlice.
Context {A : Type}.

Lemma mirror_slice_loop_spec (l : list A) (n : nat) : forall (k : nat) (s : list A),
  (k + n = length l / 2)%nat -> length s = length l ->
  (forall i, (i < length l)%nat ->
     s !! i = if (i <? k)%nat || (length l - k <=? i)%nat
              then l !! (length l - 1 - i)%nat else l !! i) ->
  mirror_slice_loop n k s = Some (reverse l).
Proof.
  pose proof (Nat.div_mod (length l) 2 ltac:(lia)) as Hdm.
  pose proof (Nat.mod_upper_bound (length l) 2 ltac:(lia)) as Hmu.
  induction n as [|n IH]; intros k s Hk Hlen Hs.
  - simpl. f_equal. apply list_eq. intros i.
    destruct (Nat.lt_ge_cases i (length l)) as [Hi|Hi].
    + rewrite Hs by exact Hi. rewrite reverse_lookup by exact Hi.
      destruct (Nat.ltb_spec i k), (Nat.leb_spec (length l - k) i); simpl;
        try (f_equal; lia).
    + rewrite !lookup_ge_None_2; [reflexivity| |]; rewrite ?length_reverse; lia.
  - cbn [mirror_slice_loop]. rewrite Hlen.
    set (r := (length l - k - 1)%nat).
    assert (Hkr : (k < r)%nat) by (unfold r; lia).
    assert (Hrl : (r < length l)%nat) by (unfold r; lia).
    assert (E1 : s !! k = l !! k).
    { rewrite Hs by lia. destruct (Nat.ltb_spec k k), (Nat.leb_spec (length l - k) k);
        simpl; try lia; reflexivity. }
    assert (E2 : s !! r = l !! r).
    { rewrite Hs by lia. destruct (Nat.ltb_spec r k), (Nat.leb_spec (length l - k) r);
        simpl; try lia; reflexivity. }
    destruct (lookup_lt_is_Some_2 l k ltac:(lia)) as [x Hx].
    destruct (lookup_lt_is_Some_2 l r ltac:(lia)) as [y Hy].
    rewrite E1, Hx, bind_Some. cbv beta iota zeta.
    rewrite E2, Hy, bind_Some. cbv beta iota zeta.
    apply IH.
    + lia.
    + rewrite !length_insert. exact Hlen.
    + intros i Hi.
      destruct (decide (i = r)) as [->|Hir].
      * rewrite list_lookup_insert_eq by (rewrite length_insert; lia).
        destruct (Nat.ltb_spec r (S k)), (Nat.leb_spec (length l - S k) r);
          simpl; try lia. rewrite <- Hx. f_equal. unfold r in *. lia.
      * rewrite list_lookup_insert_ne by congruence.
        destruct (decide (i = k)) as [->|Hik].
        -- rewrite list_lookup_insert_eq by lia.
           destruct (Nat.ltb_spec k (S k)); simpl; try lia.
           rewrite <- Hy. f_equal. unfold r in *. lia.
        -- rewrite list_lookup_insert_ne by congruence. rewrite Hs by exact Hi.
           destruct (Nat.ltb_spec i k), (Nat.leb_spec (length l - k) i),
             (Nat.ltb_spec i (S k)), (Nat.leb_spec (length l - S k) i);
             simpl; try reflexivity; unfold r in Hir; lia.
Qed.

End MirrorSlice.

(** X6: [mirror_slice] reverses the slice, for every slice. *)
Theorem mirror_slice_reverse {A : Type} (slice : list A) :
  mirror_slice slice = Some (reverse slice).
Proof.
  unfold mirror_slice. apply mirror_slice_loop_spec; [lia|reflexivity|].
  intros i Hi. destruct (Nat.ltb_spec i 0), (Nat.leb_spec (length slice - 0) i);
    simpl; try lia; reflexivity.
Qed.

Lemma row_reverse_lookup {A : Type} (D : list A) (a W i : nat) :
  (a + W <= length D)%nat ->
  (take a D ++ reverse (take W (drop a D)) ++ drop (a + W) D) !! i
  = if (a <=? i)%nat && (i <? a + W)%nat then D !! (a + (W - 1 - (i - a)))%nat else D !! i.
Proof.
  intros Hl.
  assert (Ht : length (take a D) = a) by (rewrite length_take; lia).
  assert (Hr : length (reverse (take W (drop a D))) = W)
    by (rewrite length_reverse, length_take, length_drop; lia).
  destruct (Nat.leb_spec a i), (Nat.ltb_spec i (a + W)); simpl.
  - rewrite lookup_app_r by lia. rewrite Ht. rewrite lookup_app_l by lia.
    rewrite reverse_lookup by (rewrite length_take, length_drop; lia).
    rewrite length_take, length_drop. rewrite lookup_take_lt by lia. rewrite lookup_drop.
    rewrite ?Nat.min_l by lia. f_equal; lia.
  - rewrite lookup_app_r by lia. rewrite Ht. rewrite lookup_app_r by lia. rewrite Hr.
    rewrite lookup_drop. f_equal; lia.
  - rewrite lookup_app_l by lia. rewrite lookup_take_lt by lia. reflexivity.
  - lia.
Qed.

Lemma mirror_horizontally_rows_spec (W n : nat) : forall (k : nat) (D : list BitmapPixel),
  Z.of_nat ((k + n) * W) < 2 ^ 64 -> ((k + n) * W <= length D)%nat ->
  exists D', mirror_horizontally_rows n (Z.of_nat k) (Z.of_nat W) D = Some D' /\
    length D' = length D /\
    (forall y x, (k <= y < k + n)%nat -> (x < W)%nat ->
       D' !! (y * W + x)%nat = D !! (y * W + (W - 1 - x))%nat) /\
    (forall i, (i < k * W \/ (k + n) * W <= i)%nat -> D' !! i = D !! i).
Proof.
  induction n as [|n IH]; intros k D Hb Hl.
  - exists D. split; [reflexivity|]. split; [reflexivity|].
    split; [intros; lia|]. intros; reflexivity.
  - cbn [mirror_horizontally_rows].
    rewrite usize_mul_ok by nia. rewrite bind_Some. cbv beta iota zeta.
    rewrite usize_add_ok by nia. rewrite bind_Some. cbv beta iota zeta.
    replace (Z.of_nat (length D) <? Z.of_nat k * Z.of_nat W + Z.of_nat W) with false
      by (symmetry; apply Z.ltb_ge; nia).
    rewrite <- Nat2Z.inj_mul, <- Nat2Z.inj_add, !Nat2Z.id.
    unfold mirror_slice.
    rewrite mirror_slice_loop_spec with (l := take W (drop (k * W) D)).
    2: lia. 2: reflexivity.
    2: { intros i Hi. destruct (Nat.ltb_spec i 0), (Nat.leb_spec (length (take W (drop (k * W) D)) - 0) i);
         simpl; try lia; reflexivity. }
    rewrite bind_Some. cbv beta iota zeta.
    set (D1 := take (k * W) D ++ reverse (take W (drop (k * W) D)) ++ drop (k * W + W) D).
    assert (HD1 : forall i, D1 !! i = if (k * W <=? i)%nat && (i <? k * W + W)%nat
                                     then D !! (k * W + (W - 1 - (i - k * W)))%nat else D !! i)
      by (intros i; apply row_reverse_lookup; nia).
    assert (HL1 : length D1 = length D).
    { unfold D1. rewrite !length_app, length_reverse, !length_take, !length_drop. nia. }
    replace (Z.of_nat k + 1) with (Z.of_nat (S k)) by lia.
    destruct (IH (S k) D1) as (D' & E & HL' & Hin & Hout).
    + replace ((S k + n) * W)%nat with ((k + S n) * W)%nat by lia. exact Hb.
    + rewrite HL1. nia.
    + exists D'. split; [exact E|]. split; [lia|]. split.
      * intros y x Hy Hx. destruct (Nat.eq_dec y k) as [->|Hyk].
        -- rewrite Hout by nia. rewrite HD1.
           destruct (Nat.leb_spec (k * W) (k * W + x)), (Nat.ltb_spec (k * W + x) (k * W + W));
             simpl; try lia. f_equal. lia.
        -- rewrite Hin by lia. rewrite HD1.
           destruct (Nat.leb_spec (k * W) (y * W + (W - 1 - x))),
             (Nat.ltb_spec (y * W + (W - 1 - x)) (k * W + W)); simpl; try reflexivity; nia.
      * intros i Hi. rewrite Hout by nia. rewrite HD1.
        destruct (Nat.leb_spec (k * W) i), (Nat.ltb_spec i (k * W + W)); simpl; try reflexivity; nia.
Qed.

Lemma mirror_horizontally_rows_short (W n : nat) : forall (k : nat) (D : list BitmapPixel),
  Z.of_nat ((k + n) * W) < 2 ^ 64 -> (k * W <= length D < (k + n) * W)%nat ->
  mirror_horizontally_rows n (Z.of_nat k) (Z.of_nat W) D = None.
Proof.
  induction n as [|n IH]; intros k D Hb Hl.
  - lia.
  - cbn [mirror_horizontally_rows].
    rewrite usize_mul_ok by nia. rewrite bind_Some. cbv beta iota zeta.
    rewrite usize_add_ok by nia. rewrite bind_Some. cbv beta iota zeta.
    destruct (Z.ltb_spec (Z.of_nat (length D)) (Z.of_nat k * Z.of_nat W + Z.of_nat W));
      [reflexivity|].
    rewrite <- Nat2Z.inj_mul, <- Nat2Z.inj_add, !Nat2Z.id.
    unfold mirror_slice.
    rewrite mirror_slice_loop_spec with (l := take W (drop (k * W) D)).
    2: lia. 2: reflexivity.
    2: { intros i Hi. destruct (Nat.ltb_spec i 0), (Nat.leb_spec (length (take W (drop (k * W) D)) - 0) i);
         simpl; try lia; reflexivity. }
    rewrite bind_Some. cbv beta iota zeta.
    replace (Z.of_nat k + 1) with (Z.of_nat (S k)) by lia.
    apply IH.
    + replace ((S k + n) * W)%nat with ((k + S n) * W)%nat by lia. exact Hb.
    + rewrite !length_app, length_reverse, !length_take, !length_drop. nia.
Qed.

Lemma mirror_horizontally_unfold (bm : Bitmap) :
  0 <= bm.(info_header).(image_width) < 2 ^ 31 ->
  0 <= bm.(info_header).(image_height) < 2 ^ 31 ->
  mirror_horizontally bm =
    (data ← mirror_horizontally_rows (Z.to_nat bm.(info_header).(image_height)) (Z.of_nat 0)
              (Z.of_nat (Z.to_nat bm.(info_header).(image_width))) bm.(image_data);
     Some (mkBitmap bm.(file_header) bm.(info_header) bm.(palette) data)).
Proof.
  intros Hw Hh. unfold mirror_horizontally, as_usize.
  rewrite !Z.mod_small by lia. rewrite Z2Nat.id by lia. reflexivity.
Qed.

(** X7: on a bitmap with [width * height] pixels, [mirror_horizontally]
    succeeds, keeps headers, palette and pixel count, and puts in column [c]
    of each row the pixel that was in column [width - 1 - c]. *)
Theorem mirror_horizontally_spec (bm : Bitmap) :
  0 <= bm.(info_header).(image_width) < 2 ^ 31 ->
  0 <= bm.(info_header).(image_height) < 2 ^ 31 ->
  length bm.(image_data)
  = Z.to_nat (bm.(info_header).(image_width) * bm.(info_header).(image_height)) ->
  exists l',
    mirror_horizontally bm = Some (mkBitmap bm.(file_header) bm.(info_header) bm.(palette) l')
    /\ length l' = length bm.(image_data)
    /\ forall row c : nat,
         (c < Z.to_nat bm.(info_header).(image_width))%nat ->
         (row < Z.to_nat bm.(info_header).(image_height))%nat ->
         l' !! (row * Z.to_nat bm.(info_header).(image_width) + c)%nat
         = bm.(image_data) !! (row * Z.to_nat bm.(info_header).(image_width)
                               + (Z.to_nat bm.(info_header).(image_width) - 1 - c))%nat.
Proof.
  intros Hw Hh Hl. rewrite mirror_horizontally_unfold by assumption.
  set (W := Z.to_nat bm.(info_header).(image_width)) in *.
  set (H := Z.to_nat bm.(info_header).(image_height)) in *.
  assert (HWH : length bm.(image_data) = (H * W)%nat).
  { rewrite Hl. unfold W, H. rewrite <- Z2Nat.inj_mul by lia. f_equal. lia. }
  destruct (mirror_horizontally_rows_spec W H 0 bm.(image_data)) as (D' & E & HL & Hin & _).
  - simpl. rewrite Nat2Z.inj_mul. unfold W, H. rewrite !Z2Nat.id by lia. nia.
  - lia.
  - exists D'. rewrite E. split; [reflexivity|]. split; [exact HL|].
    intros row c Hc Hr. apply Hin; lia.
Qed.

(** X8: on a bitmap with [width * height] pixels, mirroring horizontally
    twice gives back the bitmap. *)
Theorem mirror_horizontally_involutive (bm : Bitmap) :
  0 <= bm.(info_header).(image_width) < 2 ^ 31 ->
  0 <= bm.(info_header).(image_height) < 2 ^ 31 ->
  length bm.(image_data)
  = Z.to_nat (bm.(info_header).(image_width) * bm.(info_header).(image_height)) ->
  (bm' ← mirror_horizontally bm; mirror_horizontally bm') = Some bm.
Proof.
  intros Hw Hh Hl. rewrite mirror_horizontally_unfold by assumption.
  set (W := Z.to_nat bm.(info_header).(image_width)) in *.
  set (H := Z.to_nat bm.(info_header).(image_height)) in *.
  assert (HWH : length bm.(image_data) = (H * W)%nat).
  { rewrite Hl. unfold W, H. rewrite <- Z2Nat.inj_mul by lia. f_equal. lia. }
  assert (Hb : Z.of_nat ((0 + H) * W) < 2 ^ 64).
  { simpl. rewrite Nat2Z.inj_mul. unfold W, H. rewrite !Z2Nat.id by lia. nia. }
  destruct (mirror_horizontally_rows_spec W H 0 bm.(image_data)) as (D1 & E1 & HL1 & Hin1 & Hout1);
    [exact Hb|lia|].
  rewrite E1, !bind_Some. cbv beta iota zeta.
  rewrite mirror_horizontally_unfold by (cbn [info_header]; assumption). cbn [info_header image_data file_header palette].
  fold W H.
  destruct (mirror_horizontally_rows_spec W H 0 D1) as (D2 & E2 & HL2 & Hin2 & Hout2);
    [exact Hb|lia|].
  rewrite E2, bind_Some. destruct bm as [fh ih pal data]. cbn -[W H] in *.
  do 2 f_equal. apply list_eq. intros i.
  destruct (Nat.lt_ge_cases i (H * W)) as [Hi|Hi].
  - assert (HW0 : (0 < W)%nat) by (destruct W; lia).
    pose proof (Nat.div_mod i W ltac:(lia)) as Hdm.
    pose proof (Nat.mod_upper_bound i W ltac:(lia)) as Hmu.
    assert (Hy : (i / W < H)%nat).
    { apply Nat.Div0.div_lt_upper_bound. lia. }
    rewrite Hdm, (Nat.mul_comm W (i / W)).
    rewrite Hin2 by lia. rewrite Hin1 by lia. f_equal. lia.
  - rewrite Hout2, Hout1 by lia. reflexivity.
Qed.

(** X9: [mirror_horizontally] panics when the bitmap has fewer than
    [width * height] pixels. *)
Theorem mirror_horizontally_short_data (bm : Bitmap) :
  0 <= bm.(info_header).(image_width) < 2 ^ 31 ->
  0 <= bm.(info_header).(image_height) < 2 ^ 31 ->
  Z.of_nat (length bm.(image_data))
  < bm.(info_header).(image_width) * bm.(info_header).(image_height) ->
  mirror_horizontally bm = None.
Proof.
  intros Hw Hh Hl. rewrite mirror_horizontally_unfold by assumption.
  rewrite mirror_horizontally_rows_short; [reflexivity| |].
  - rewrite Nat2Z.inj_mul. rewrite !Z2Nat.id by lia. nia.
  - split; [lia|]. apply Nat2Z.inj_lt. rewrite Nat2Z.inj_mul, !Z2Nat.id by lia. lia.
Qed.

Lemma replace_row_spec (other : list BitmapPixel) (sy SS dy DS : nat) (c : nat) :
  forall (sx dx : nat) (self : list BitmapPixel),
  Z.of_nat (sy * SS + sx + c) < 2 ^ 64 -> Z.of_nat (dy * DS + dx + c) < 2 ^ 64 ->
  (sy * SS + sx + c <= length other)%nat -> (dy * DS + dx + c <= length self)%nat ->
  exists self',
    replace_row other (Z.of_nat sy) (Z.of_nat SS) (Z.of_nat dy) (Z.of_nat DS) c
      (Z.of_nat sx) (Z.of_nat dx) self = Some self' /\
    length self' = length self /\
    (forall x, (x < c)%nat -> self' !! (dy * DS + dx + x)%nat = other !! (sy * SS + sx + x)%nat) /\
    (forall i, (i < dy * DS + dx \/ dy * DS + dx + c <= i)%nat -> self' !! i = self !! i).
Proof.
  induction c as [|c IH]; intros sx dx self Hs Hd Hls Hld.
  - exists self. split; [reflexivity|]. split; [reflexivity|]. split; [intros; lia|].
    intros; reflexivity.
  - cbn [replace_row].
    rewrite (usize_mul_ok (Z.of_nat sy) (Z.of_nat SS)) by lia. rewrite bind_Some. cbv beta iota zeta.
    rewrite (usize_add_ok (Z.of_nat sy * Z.of_nat SS) (Z.of_nat sx)) by lia.
    rewrite bind_Some. cbv beta iota zeta.
    rewrite (usize_mul_ok (Z.of_nat dy) (Z.of_nat DS)) by lia. rewrite bind_Some. cbv beta iota zeta.
    rewrite (usize_add_ok (Z.of_nat dy * Z.of_nat DS) (Z.of_nat dx)) by lia.
    rewrite bind_Some. cbv beta iota zeta.
    rewrite <- !Nat2Z.inj_mul, <- !Nat2Z.inj_add, !Nat2Z.id.
    destruct (lookup_lt_is_Some_2 other (sy * SS + sx) ltac:(lia)) as [v Hv].
    rewrite Hv, bind_Some. cbv beta iota zeta.
    destruct (Nat.leb_spec (length self) (dy * DS + dx)); [lia|].
    replace (Z.of_nat sx + 1) with (Z.of_nat (S sx)) by lia.
    replace (Z.of_nat dx + 1) with (Z.of_nat (S dx)) by lia.
    set (self1 := <[(dy * DS + dx)%nat := v]> self).
    destruct (IH (S sx) (S dx) self1) as (self' & E & HL & Hin & Hout);
      [lia|lia|lia|unfold self1; rewrite length_insert; lia|].
    exists self'. split; [exact E|]. split; [unfold self1 in HL; rewrite length_insert in HL; exact HL|].
    split.
    + intros x Hx. destruct x as [|x].
      * rewrite Hout by lia. unfold self1. rewrite Nat.add_0_r, list_lookup_insert_eq by lia.
        rewrite Nat.add_0_r. symmetry. exact Hv.
      * replace (dy * DS + dx + S x)%nat with (dy * DS + S dx + x)%nat by lia.
        replace (sy * SS + sx + S x)%nat with (sy * SS + S sx + x)%nat by lia.
        apply Hin. lia.
    + intros i Hi. rewrite Hout by lia. unfold self1.
      rewrite list_lookup_insert_ne by lia. reflexivity.
Qed.

Lemma row_col_inj (W y x y' x' : nat) :
  (x < W)%nat -> (x' < W)%nat -> (y * W + x = y' * W + x')%nat -> y = y' /\ x = x'.
Proof.
  intros Hx Hx' E.
  destruct (Nat.lt_total y y') as [Hlt|[->|Hlt]].
  - assert (y * W + W <= y' * W)%nat by (replace (y * W + W)%nat with (S y * W)%nat by lia;
      apply Nat.mul_le_mono_r; lia). lia.
  - lia.
  - assert (y' * W + W <= y * W)%nat by (replace (y' * W + W)%nat with (S y' * W)%nat by lia;
      apply Nat.mul_le_mono_r; lia). lia.
Qed.

Lemma replace_rows_spec (other : list BitmapPixel) (SS DS sx dx w n : nat) :
  forall (sy dy : nat) (self : list BitmapPixel),
  Z.of_nat (sx + w) < 2 ^ 32 -> (sx + w <= SS)%nat -> (dx + w <= DS)%nat ->
  Z.of_nat ((sy + n) * SS) < 2 ^ 64 -> Z.of_nat ((dy + n) * DS) < 2 ^ 64 ->
  ((sy + n) * SS <= length other)%nat -> ((dy + n) * DS <= length self)%nat ->
  exists self',
    replace_rows other (Z.of_nat SS) (Z.of_nat DS) (Z.of_nat sx) (Z.of_nat dx) (Z.of_nat w) n
      (Z.of_nat sy) (Z.of_nat dy) self = Some self' /\
    length self' = length self /\
    (forall y x, (y < n)%nat -> (x < w)%nat ->
       self' !! ((dy + y) * DS + dx + x)%nat = other !! ((sy + y) * SS + sx + x)%nat) /\
    (forall i, (forall y x, (y < n)%nat -> (x < w)%nat -> i <> ((dy + y) * DS + dx + x)%nat) ->
       self' !! i = self !! i).
Proof.
  induction n as [|n IH]; intros sy dy self Hw HSS HDS Hs Hd Hls Hld.
  - exists self. split; [reflexivity|]. split; [reflexivity|]. split; [intros; lia|].
    intros; reflexivity.
  - cbn [replace_rows]. unfold u32_add.
    destruct (Z.ltb_spec (Z.of_nat sx + Z.of_nat w) (2 ^ 32)); [|lia].
    rewrite bind_Some. cbv beta iota zeta.
    replace (Z.to_nat (Z.of_nat sx + Z.of_nat w - Z.of_nat sx)) with w by lia.
    destruct (replace_row_spec other sy SS dy DS w sx dx self) as (self1 & E1 & HL1 & Hin1 & Hout1);
      [nia|nia|nia|nia|].
    rewrite E1, bind_Some.
    replace (Z.of_nat sy + 1) with (Z.of_nat (S sy)) by lia.
    replace (Z.of_nat dy + 1) with (Z.of_nat (S dy)) by lia.
    destruct (IH (S sy) (S dy) self1) as (self' & E & HL & Hin & Hout);
      [lia|lia|lia| replace ((S sy + n) * SS)%nat with ((sy + S n) * SS)%nat by lia; exact Hs
      | replace ((S dy + n) * DS)%nat with ((dy + S n) * DS)%nat by lia; exact Hd
      | nia | nia |].
    exists self'. split; [exact E|]. split; [lia|]. split.
    + intros y x Hy Hx. destruct y as [|y].
      * rewrite Hout.
        -- rewrite !Nat.add_0_r. apply Hin1. exact Hx.
        -- intros y' x' Hy' Hx' Heq.
           assert (Heq' : ((dy + 0) * DS + (dx + x) = (S dy + y') * DS + (dx + x'))%nat) by lia.
           apply row_col_inj in Heq'; lia.
      * replace ((dy + S y) * DS)%nat with ((S dy + y) * DS)%nat by lia.
        replace ((sy + S y) * SS)%nat with ((S sy + y) * SS)%nat by lia.
        apply Hin; lia.
    + intros i Hi. rewrite Hout.
      * apply Hout1.
        destruct (Nat.lt_ge_cases i (dy * DS + dx)) as [Hlt|Hge]; [left; exact Hlt|].
        destruct (Nat.lt_ge_cases i (dy * DS + dx + w)) as [Hlt'|Hge']; [|right; exact Hge'].
        exfalso. apply (Hi 0%nat (i - (dy * DS + dx))%nat); lia.
      * intros y x Hy Hx. replace ((S dy + y) * DS)%nat with ((dy + S y) * DS)%nat by lia.
        apply Hi; lia.
Qed.

Lemma repeat_lookup {A : Type} (x : A) (n i : nat) : (i < n)%nat -> repeat x n !! i = Some x.
Proof.
  revert i. induction n as [|n IH]; intros i Hi; [lia|].
  destruct i as [|i]; [reflexivity|]. cbn [repeat]. rewrite lookup_cons. apply IH. lia.
Qed.

Lemma u32_add_ok (a b : Z) : a + b < 2 ^ 32 -> u32_add a b = Some (a + b).
Proof. unfold u32_add. intros H. destruct (Z.ltb_spec (a + b) (2 ^ 32)); [reflexivity|lia]. Qed.

Lemma u32_mul_ok (a b : Z) : a * b < 2 ^ 32 -> u32_mul a b = Some (a * b).
Proof. unfold u32_mul. intros H. destruct (Z.ltb_spec (a * b) (2 ^ 32)); [reflexivity|lia]. Qed.

Lemma bitmap_new_default_ok (W H : Z) :
  0 <= W -> 0 <= H < 2 ^ 31 -> 32 * W < 2 ^ 32 -> 70 + 4 * W * H < 2 ^ 32 ->
  exists fh ih, bitmap_new_default W H
                = Some (mkBitmap fh ih None (repeat transparent (Z.to_nat (W * H)))) /\
    ih.(image_width) = W /\ ih.(image_height) = H.
Proof.
  intros HW HH H32 Hsz.
  unfold bitmap_new_default, bitmap_new.
  rewrite i32_mul_ok by nia. rewrite bind_Some. cbv beta iota zeta.
  unfold lazy_new, create_headers, info_header_new.
  unfold as_u32 at 2 3. rewrite (Z.mod_small W), (Z.mod_small H) by lia.
  rewrite (u32_mul_ok W 32) by lia. rewrite bind_Some. cbv beta iota zeta.
  assert (E2 : pad_to_align (W * 32) 8 = 0).
  { unfold pad_to_align. replace (W * 32) with ((W * 4) * 8) by lia.
    rewrite Z.mod_mul by lia. reflexivity. }
  rewrite E2, (u32_add_ok (W * 32) 0) by lia. rewrite bind_Some. cbv beta iota zeta.
  replace ((W * 32 + 0) / 8) with (W * 4) by (rewrite Z.add_0_r; replace (W * 32) with ((W * 4) * 8) by lia;
    rewrite Z.div_mul by lia; reflexivity).
  assert (E3 : pad_to_align (W * 4) 4 = 0).
  { unfold pad_to_align. rewrite Z.mod_mul by lia. reflexivity. }
  rewrite E3, (u32_add_ok (W * 4) 0) by lia. rewrite bind_Some. cbv beta iota zeta.
  rewrite (u32_mul_ok (W * 4 + 0) H) by nia. rewrite bind_Some. cbv beta iota zeta.
  cbn [info_header_size image_size]. cbv [FILE_HEADER_SIZE].
  rewrite bind_Some. cbv beta iota zeta. cbn [info_header_size image_size].
  rewrite (u32_add_ok 14 56) by lia. rewrite bind_Some. cbv beta iota zeta.
  rewrite (u32_add_ok (14 + 56) ((W * 4 + 0) * H)) by nia.
  rewrite !bind_Some. cbv beta iota zeta.
  cbn [file_header info_header palette].
  unfold as_u32. rewrite (Z.mod_small (W * H)) by nia.
  eexists _, _. split; [reflexivity|split; reflexivity].
Qed.

Lemma replace_rect_spec (self other : Bitmap) (SS DS sx sy dx dy w h : nat) :
  other.(info_header).(image_width) = Z.of_nat SS ->
  self.(info_header).(image_width) = Z.of_nat DS ->
  Z.of_nat SS < 2 ^ 31 -> Z.of_nat DS < 2 ^ 31 ->
  Z.of_nat (sx + w) < 2 ^ 32 -> Z.of_nat (sy + h) < 2 ^ 32 -> Z.of_nat (dy + h) < 2 ^ 32 ->
  (sx + w <= SS)%nat -> (dx + w <= DS)%nat ->
  ((sy + h) * SS <= length other.(image_data))%nat ->
  ((dy + h) * DS <= length self.(image_data))%nat ->
  exists d,
    replace_rect_with_rect_from self other (Z.of_nat sx) (Z.of_nat sy) (Z.of_nat dx)
      (Z.of_nat dy) (Z.of_nat w) (Z.of_nat h)
    = Some (mkBitmap self.(file_header) self.(info_header) self.(palette) d) /\
    length d = length self.(image_data) /\
    (forall y x, (y < h)%nat -> (x < w)%nat ->
       d !! ((dy + y) * DS + dx + x)%nat = other.(image_data) !! ((sy + y) * SS + sx + x)%nat) /\
    (forall i, (forall y x, (y < h)%nat -> (x < w)%nat -> i <> ((dy + y) * DS + dx + x)%nat) ->
       d !! i = self.(image_data) !! i).
Proof.
  intros HSS HDS HSS' HDS' Hsx Hsy Hdy Hw1 Hw2 Hl1 Hl2.
  unfold replace_rect_with_rect_from. rewrite HSS, HDS. unfold as_usize.
  rewrite !Z.mod_small by lia.
  rewrite (u32_add_ok (Z.of_nat sy) (Z.of_nat h)) by lia. rewrite bind_Some. cbv beta iota zeta.
  replace (Z.to_nat (Z.of_nat sy + Z.of_nat h - Z.of_nat sy)) with h by lia.
  destruct (replace_rows_spec other.(image_data) SS DS sx dx w h sy dy self.(image_data))
    as (d & E & HL & Hin & Hout); [lia|lia|lia|nia|nia|lia|lia|].
  rewrite E, bind_Some. exists d. auto.
Qed.

Lemma lt_row_col (W y x : nat) (H : nat) : (x < W)%nat -> (y < H)%nat -> (y * W + x < H * W)%nat.
Proof. intros Hx Hy. nia. Qed.

(** X10: [merge_horizontally] gives a bitmap as wide as both images together
    and as high as the higher one, with the first image at the left, the
    second to its right, and transparent pixels where neither image reaches. *)
Theorem merge_horizontally_spec (image0 image1 : Bitmap) (w0 h0 w1 h1 : nat) :
  image0.(info_header).(image_width) = Z.of_nat w0 ->
  image0.(info_header).(image_height) = Z.of_nat h0 ->
  image1.(info_header).(image_width) = Z.of_nat w1 ->
  image1.(info_header).(image_height) = Z.of_nat h1 ->
  Z.of_nat h0 < 2 ^ 31 -> Z.of_nat h1 < 2 ^ 31 ->
  32 * Z.of_nat (w0 + w1) < 2 ^ 32 ->
  70 + 4 * Z.of_nat (w0 + w1) * Z.of_nat (Nat.max h0 h1) < 2 ^ 32 ->
  length image0.(image_data) = (w0 * h0)%nat -> length image1.(image_data) = (w1 * h1)%nat ->
  exists result,
    merge_horizontally image0 image1 = Some result /\
    result.(info_header).(image_width) = Z.of_nat (w0 + w1) /\
    result.(info_header).(image_height) = Z.of_nat (Nat.max h0 h1) /\
    length result.(image_data) = ((w0 + w1) * Nat.max h0 h1)%nat /\
    forall x y : nat, (x < w0 + w1)%nat -> (y < Nat.max h0 h1)%nat ->
      result.(image_data) !! (y * (w0 + w1) + x)%nat
      = if (x <? w0)%nat then
          (if (y <? h0)%nat then image0.(image_data) !! (y * w0 + x)%nat else Some transparent)
        else
          (if (y <? h1)%nat then image1.(image_data) !! (y * w1 + (x - w0))%nat
           else Some transparent).
Proof.
  intros Hw0 Hh0 Hw1 Hh1 Hh0' Hh1' H32 Hsz Hl0 Hl1.
  set (W := (w0 + w1)%nat) in *. set (H := Nat.max h0 h1) in *.
  unfold merge_horizontally. rewrite Hw0, Hw1, Hh0, Hh1.
  rewrite i32_add_ok by lia. rewrite bind_Some. cbv beta iota zeta.
  destruct (bitmap_new_default_ok (Z.of_nat w0 + Z.of_nat w1) (Z.max (Z.of_nat h0) (Z.of_nat h1)))
    as (fh & ih & E & HiW & HiH); [lia|lia|lia|lia|].
  rewrite E, bind_Some. cbv beta iota zeta.
  unfold as_u32. rewrite !Z.mod_small by lia.
  set (D0 := repeat transparent (Z.to_nat ((Z.of_nat w0 + Z.of_nat w1)
                                           * Z.max (Z.of_nat h0) (Z.of_nat h1)))).
  assert (HD0 : length D0 = (H * W)%nat).
  { unfold D0. rewrite repeat_length. unfold H, W. lia. }
  destruct (replace_rect_spec (mkBitmap fh ih None D0) image0 w0 W 0 0 0 0 w0 h0)
    as (D1 & E1 & HL1 & Hin1 & Hout1);
    cbn [info_header image_data]; [exact Hw0|rewrite HiW; unfold W; lia|lia|unfold W in *; lia
    |lia|lia|lia|lia|unfold W; lia|rewrite Hl0; lia|rewrite HD0; unfold H; nia|].
  change (Z.of_nat 0) with 0 in E1. rewrite E1, bind_Some. cbv beta iota zeta.
  cbn [file_header info_header palette image_data].
  destruct (replace_rect_spec (mkBitmap fh ih None D1) image1 w1 W 0 0 w0 0 w1 h1)
    as (D2 & E2 & HL2 & Hin2 & Hout2);
    cbn [info_header image_data]; [exact Hw1|rewrite HiW; unfold W; lia|lia|unfold W in *; lia
    |lia|lia|lia|lia|unfold W; lia|rewrite Hl1; lia|rewrite HL1; cbn [image_data]; rewrite HD0; unfold H; nia|].
  change (Z.of_nat 0) with 0 in E2. rewrite E2. cbn [file_header info_header palette image_data] in *.
  eexists. split; [reflexivity|]. cbn [info_header image_data].
  split; [rewrite HiW; unfold W; lia|]. split; [rewrite HiH; unfold H; lia|].
  split; [rewrite HL2, HL1, HD0; lia|].
  intros x y Hx Hy.
  assert (Hall : forall i, (i < H * W)%nat -> D0 !! i = Some transparent).
  { intros i Hi. unfold D0. apply repeat_lookup. unfold H, W in *. lia. }
  destruct (Nat.ltb_spec x w0) as [Hx0|Hx0].
  - rewrite Hout2.
    2: { intros y' x' Hy' Hx' Heq.
         assert (Heq' : (y * W + x = y' * W + (w0 + x'))%nat) by lia.
         apply row_col_inj in Heq'; [lia|lia|unfold W; lia]. }
    destruct (Nat.ltb_spec y h0) as [Hy0|Hy0].
    + replace (y * W + x)%nat with ((0 + y) * W + 0 + x)%nat by lia. rewrite Hin1 by lia.
      f_equal. lia.
    + rewrite Hout1; [apply Hall; apply lt_row_col; lia|].
      intros y' x' Hy' Hx' Heq.
      assert (Heq' : (y * W + x = y' * W + x')%nat) by lia.
      apply row_col_inj in Heq'; [lia|lia|unfold W; lia].
  - destruct (Nat.ltb_spec y h1) as [Hy1|Hy1].
    + replace (y * W + x)%nat with ((0 + y) * W + w0 + (x - w0))%nat by lia.
      rewrite Hin2 by (unfold W in *; lia). f_equal. lia.
    + rewrite Hout2.
      2: { intros y' x' Hy' Hx' Heq.
           assert (Heq' : (y * W + x = y' * W + (w0 + x'))%nat) by lia.
           apply row_col_inj in Heq'; [lia|lia|unfold W; lia]. }
      rewrite Hout1; [apply Hall; apply lt_row_col; lia|].
      intros y' x' Hy' Hx' Heq.
      assert (Heq' : (y * W + x = y' * W + x')%nat) by lia.
      apply row_col_inj in Heq'; [lia|lia|unfold W; lia].
Qed.

(** X11: [merge_vertically] gives a bitmap as wide as the wider image and as
    high as both together, with the first image in the first rows, the
    second in the rows after it, and transparent pixels where neither image
    reaches. *)
Theorem merge_vertically_spec (image0 image1 : Bitmap) (w0 h0 w1 h1 : nat) :
  image0.(info_header).(image_width) = Z.of_nat w0 ->
  image0.(info_header).(image_height) = Z.of_nat h0 ->
  image1.(info_header).(image_width) = Z.of_nat w1 ->
  image1.(info_header).(image_height) = Z.of_nat h1 ->
  Z.of_nat (h0 + h1) < 2 ^ 31 ->
  32 * Z.of_nat (Nat.max w0 w1) < 2 ^ 32 ->
  70 + 4 * Z.of_nat (Nat.max w0 w1) * Z.of_nat (h0 + h1) < 2 ^ 32 ->
  length image0.(image_data) = (w0 * h0)%nat -> length image1.(image_data) = (w1 * h1)%nat ->
  exists result,
    merge_vertically image0 image1 = Some result /\
    result.(info_header).(image_width) = Z.of_nat (Nat.max w0 w1) /\
    result.(info_header).(image_height) = Z.of_nat (h0 + h1) /\
    length result.(image_data) = (Nat.max w0 w1 * (h0 + h1))%nat /\
    forall x y : nat, (x < Nat.max w0 w1)%nat -> (y < h0 + h1)%nat ->
      result.(image_data) !! (y * Nat.max w0 w1 + x)%nat
      = if (y <? h0)%nat then
          (if (x <? w0)%nat then image0.(image_data) !! (y * w0 + x)%nat else Some transparent)
        else
          (if (x <? w1)%nat then image1.(image_data) !! ((y - h0) * w1 + x)%nat
           else Some transparent).
Proof.
  intros Hw0 Hh0 Hw1 Hh1 Hh H32 Hsz Hl0 Hl1.
  set (W := Nat.max w0 w1) in *. set (H := (h0 + h1)%nat) in *.
  unfold merge_vertically. rewrite Hw0, Hw1, Hh0, Hh1.
  rewrite i32_add_ok by lia. rewrite bind_Some. cbv beta iota zeta.
  destruct (bitmap_new_default_ok (Z.max (Z.of_nat w0) (Z.of_nat w1)) (Z.of_nat h0 + Z.of_nat h1))
    as (fh & ih & E & HiW & HiH); [lia|lia|lia|lia|].
  rewrite E, bind_Some. cbv beta iota zeta.
  unfold as_u32. rewrite !Z.mod_small by lia.
  set (D0 := repeat transparent (Z.to_nat (Z.max (Z.of_nat w0) (Z.of_nat w1)
                                           * (Z.of_nat h0 + Z.of_nat h1)))).
  assert (HD0 : length D0 = (H * W)%nat).
  { unfold D0. rewrite repeat_length. unfold H, W. lia. }
  destruct (replace_rect_spec (mkBitmap fh ih None D0) image0 w0 W 0 0 0 0 w0 h0)
    as (D1 & E1 & HL1 & Hin1 & Hout1);
    cbn [info_header image_data]; [exact Hw0|rewrite HiW; unfold W; lia|lia|unfold W in *; lia
    |lia|lia|lia|lia|unfold W; lia|rewrite Hl0; lia|rewrite HD0; unfold H; nia|].
  change (Z.of_nat 0) with 0 in E1. rewrite E1, bind_Some. cbv beta iota zeta.
  cbn [file_header info_header palette image_data].
  destruct (replace_rect_spec (mkBitmap fh ih None D1) image1 w1 W 0 0 0 h0 w1 h1)
    as (D2 & E2 & HL2 & Hin2 & Hout2);
    cbn [info_header image_data]; [exact Hw1|rewrite HiW; unfold W; lia|lia|unfold W in *; lia
    |lia|lia|unfold H in *; lia|lia|unfold W; lia|rewrite Hl1; lia
    |rewrite HL1; cbn [image_data]; rewrite HD0; unfold H; nia|].
  change (Z.of_nat 0) with 0 in E2. rewrite E2. cbn [file_header info_header palette image_data] in *.
  eexists. split; [reflexivity|]. cbn [info_header image_data].
  split; [rewrite HiW; unfold W; lia|]. split; [rewrite HiH; unfold H; lia|].
  split; [rewrite HL2, HL1, HD0; lia|].
  intros x y Hx Hy.
  assert (Hall : forall i, (i < H * W)%nat -> D0 !! i = Some transparent).
  { intros i Hi. unfold D0. apply repeat_lookup. unfold H, W in *. lia. }
  destruct (Nat.ltb_spec y h0) as [Hy0|Hy0].
  - rewrite Hout2.
    2: { intros y' x' Hy' Hx' Heq.
         assert (Heq' : (y * W + x = (h0 + y') * W + (0 + x'))%nat) by lia.
         apply row_col_inj in Heq'; [lia|lia|unfold W in *; lia]. }
    destruct (Nat.ltb_spec x w0) as [Hx0|Hx0].
    + replace (y * W + x)%nat with ((0 + y) * W + 0 + x)%nat by lia. rewrite Hin1 by lia.
      f_equal. lia.
    + rewrite Hout1; [apply Hall; apply lt_row_col; lia|].
      intros y' x' Hy' Hx' Heq.
      assert (Heq' : (y * W + x = y' * W + x')%nat) by lia.
      apply row_col_inj in Heq'; [lia|lia|unfold W in *; lia].
  - destruct (Nat.ltb_spec x w1) as [Hx1|Hx1].
    + assert (Ey : y = (h0 + (y - h0))%nat) by lia.
      replace (y * W + x)%nat with ((h0 + (y - h0)) * W + 0 + x)%nat by (rewrite <- Ey; lia).
      rewrite Hin2 by (unfold H in *; lia). f_equal. lia.
    + rewrite Hout2.
      2: { intros y' x' Hy' Hx' Heq.
           assert (Heq' : (y * W + x = (h0 + y') * W + (0 + x'))%nat) by lia.
           apply row_col_inj in Heq'; [lia|lia|unfold W in *; lia]. }
      rewrite Hout1; [apply Hall; apply lt_row_col; lia|].
      intros y' x' Hy' Hx' Heq.
      assert (Heq' : (y * W + x = y' * W + x')%nat) by lia.
      apply row_col_inj in Heq'; [lia|lia|unfold W in *; lia].
Qed.








Lemma lazy_new_default_eq (W H : Z) :
  0 <= W -> 0 <= H < 2 ^ 31 -> 32 * W < 2 ^ 32 -> 70 + 4 * W * H < 2 ^ 32 ->
  lazy_new_default W H
  = Some (mkBitmap (file_header_new (70 + W * 4 * H) 70)
            (mkInfoHeader 56 W H 1 32 3 (W * 4 * H) 0 0 0 0
               4278190080 16711680 65280 255 false) None []).
Proof.
  intros HW HH H32 Hsz.
  unfold lazy_new_default, lazy_new, create_headers, info_header_new.
  unfold as_u32. rewrite (Z.mod_small W), (Z.mod_small H) by lia.
  rewrite (u32_mul_ok W 32) by lia. rewrite bind_Some. cbv beta iota zeta.
  assert (E2 : pad_to_align (W * 32) 8 = 0).
  { unfold pad_to_align. replace (W * 32) with ((W * 4) * 8) by lia.
    rewrite Z.mod_mul by lia. reflexivity. }
  rewrite E2, (u32_add_ok (W * 32) 0) by lia. rewrite bind_Some. cbv beta iota zeta.
  replace ((W * 32 + 0) / 8) with (W * 4) by (rewrite Z.add_0_r; replace (W * 32) with ((W * 4) * 8) by lia;
    rewrite Z.div_mul by lia; reflexivity).
  assert (E3 : pad_to_align (W * 4) 4 = 0).
  { unfold pad_to_align. rewrite Z.mod_mul by lia. reflexivity. }
  rewrite E3, (u32_add_ok (W * 4) 0) by lia. rewrite bind_Some. cbv beta iota zeta.
  rewrite Z.add_0_r.
  rewrite (u32_mul_ok (W * 4) H) by nia. rewrite bind_Some. cbv beta iota zeta.
  cbn [info_header_size image_size]. cbv [FILE_HEADER_SIZE].
  rewrite bind_Some. cbv beta iota zeta. cbn [info_header_size image_size].
  rewrite (u32_add_ok 14 56) by lia. rewrite bind_Some. cbv beta iota zeta.
  rewrite (u32_add_ok (14 + 56) (W * 4 * H)) by nia. rewrite !bind_Some.
  reflexivity.
Qed.

Lemma foldl_app_prefix {A : Type} (g : list Z -> A -> list Z) :
  (forall d p, g d p = d ++ g [] p) ->
  forall (ps : list A) (d : list Z), foldl g d ps = d ++ foldl g [] ps.
Proof.
  intros Hg. induction ps as [|p ps IH]; intros d; simpl.
  - rewrite app_nil_r. reflexivity.
  - rewrite IH, (IH (g [] p)), Hg, app_assoc. reflexivity.
Qed.

Lemma write_32_bitfield_app (d : list Z) (ps : list BitmapPixel) (rm gm bm am : Z) :
  write_32_bitfield d ps rm gm bm am = d ++ write_32_bitfield [] ps rm gm bm am.
Proof.
  unfold write_32_bitfield.
  destruct (mask_offset_and_shifted rm), (mask_offset_and_shifted gm),
    (mask_offset_and_shifted bm), (mask_offset_and_shifted am).
  apply foldl_app_prefix. intros; reflexivity.
Qed.

Lemma write_32_bitfield_length (ps : list BitmapPixel) (rm gm bm am : Z) :
  length (write_32_bitfield [] ps rm gm bm am) = (4 * length ps)%nat.
Proof.
  unfold write_32_bitfield.
  destruct (mask_offset_and_shifted rm), (mask_offset_and_shifted gm),
    (mask_offset_and_shifted bm), (mask_offset_and_shifted am).
  induction ps as [|p ps IH]; [reflexivity|].
  cbn [foldl]. rewrite foldl_app_prefix by (intros; reflexivity).
  rewrite length_app, IH. cbn. lia.
Qed.

Lemma info_header_into_data_app (ih : BitmapInfoHeader) (d : list Z) :
  info_header_into_data ih d = d ++ info_header_into_data ih [].
Proof.
  unfold info_header_into_data, push_u16, push_u32, push_i32.
  destruct (40 <? info_header_size ih); rewrite <- !app_assoc; reflexivity.
Qed.

Lemma slice_middle (pre mid post : list Z) :
  slice (pre ++ mid ++ post) (Z.of_nat (length pre)) (Z.of_nat (length pre) + Z.of_nat (length mid))
  = Some mid.
Proof.
  unfold slice. rewrite !length_app.
  destruct (Z.leb_spec 0 (Z.of_nat (length pre))); [|lia].
  destruct (Z.leb_spec (Z.of_nat (length pre)) (Z.of_nat (length pre) + Z.of_nat (length mid))); [|lia].
  destruct (Z.leb_spec (Z.of_nat (length pre) + Z.of_nat (length mid))
              (Z.of_nat (length pre + (length mid + length post)))); [|lia].
  cbn [andb].
  rewrite Nat2Z.id. replace (Z.to_nat (Z.of_nat (length pre) + Z.of_nat (length mid)
                                       - Z.of_nat (length pre))) with (length mid) by lia.
  rewrite drop_app_length, take_app_length. reflexivity.
Qed.

(** X14: for a bitmap of the default format (32-bit BitFields, headers of
    [Bitmap::lazy_new_default]) with [width * height] pixels whose channels
    are bytes, [Bitmap::from_data] reads back the bytes [Bitmap::into_data]
    writes as the same bitmap. *)
Theorem bitmap_into_data_round_trip (w h : nat) (bm0 : Bitmap) (pixels : list BitmapPixel) :
  Z.of_nat h < 2 ^ 31 -> 32 * Z.of_nat w < 2 ^ 32 ->
  70 + 4 * Z.of_nat w * Z.of_nat h < 2 ^ 32 ->
  lazy_new_default (Z.of_nat w) (Z.of_nat h) = Some bm0 ->
  length pixels = (w * h)%nat -> Forall pixel_wf pixels ->
  exists data,
    bitmap_into_data (mkBitmap bm0.(file_header) bm0.(info_header) bm0.(palette) pixels)
    = Some data /\
    bitmap_from_data data
    = Some (inr (mkBitmap bm0.(file_header) bm0.(info_header) bm0.(palette) pixels)).
Proof.
  intros Hh H32 Hsz Hbm Hl Hwf.
  rewrite lazy_new_default_eq in Hbm by lia. injection Hbm as <-.
  cbn [file_header info_header palette].
  set (W := Z.of_nat w) in *. set (H := Z.of_nat h) in *.
  set (FH := file_header_new (70 + W * 4 * H) 70).
  set (IH := mkInfoHeader 56 W H 1 32 3 (W * 4 * H) 0 0 0 0 4278190080 16711680 65280 255 false).
  assert (Hlanes : lane_masks IH).
  { unfold lane_masks. cbn. split; [reflexivity|]. split; [reflexivity|].
    split; [reflexivity|]. split.
    - apply (bool_decide_unpack _). reflexivity.
    - right. split; [reflexivity|]. apply (bool_decide_unpack _). reflexivity. }
  destruct (bitfield_32_round_trip pixels IH None eq_refl eq_refl Hlanes Hwf) as (P & EP & IP).
  assert (EP' : forall d, pixels_into_data pixels d IH None = Some (d ++ P)).
  { intros d. unfold pixels_into_data in *. cbn in EP |- *. injection EP as <-.
    rewrite write_32_bitfield_app. reflexivity. }
  assert (HPl : length P = (4 * length pixels)%nat).
  { unfold pixels_into_data in EP. cbn in EP. injection EP as <-. apply write_32_bitfield_length. }
  set (FHB := file_header_into_data FH []).
  set (IHB := info_header_into_data IH []).
  assert (HFHB : length FHB = 14%nat) by reflexivity.
  assert (HIHB : length IHB = 56%nat) by reflexivity.
  exists (FHB ++ IHB ++ P). split.
  - unfold bitmap_into_data. cbn [file_header info_header palette image_data].
    fold FHB. rewrite info_header_into_data_app. fold IHB.
    change (bits_per_pixel IH) with 32. cbn [Z.eqb Pos.eqb orb]. rewrite bind_Some.
    cbv beta iota zeta. rewrite length_app, HFHB, HIHB.
    change (pixel_array_offset FH) with 70.
    change (Z.of_nat (14 + 56) <=? 70) with true. cbv [negb].
    change (repeat 0 (Z.to_nat 70 - (14 + 56))) with (@nil Z).
    rewrite app_nil_r, EP', app_assoc. reflexivity.
  - assert (EFH : file_header_from_data (FHB ++ []) = Some FH).
    { apply file_header_decode_encode; unfold FH, file_header_new, BMP_MAGIC_NUMBER; cbn [magic_number file_size reserved1 reserved2 pixel_array_offset]; unfold W, H in *; nia. }
    rewrite app_nil_r in EFH.
    assert (EIH : info_header_from_data (IHB ++ P) = Some IH).
    { unfold IHB. rewrite info_header_decode_encode by (unfold IH; cbn -[Z.pow]; unfold W, H in *; nia).
      cbn. rewrite Z.abs_eq by lia. destruct (Z.ltb_spec H 0); [lia|]. reflexivity. }
    unfold bitmap_from_data.
    change FILE_HEADER_SIZE with (Z.of_nat 14).
    rewrite slice_prefix by (rewrite !length_app; lia).
    rewrite <- HFHB, take_app_length, bind_Some, EFH, bind_Some. cbv beta iota zeta.
    change (file_header_validate FH) with true. cbn [negb].
    rewrite slice_suffix by (rewrite !length_app; lia).
    rewrite drop_app_length, bind_Some, EIH, bind_Some. cbv beta iota zeta.
    cbn -[slice interpret_image_data usize_add FHB IHB].
    rewrite (usize_add_ok 70) by (clear - Hsz H32; lia). rewrite bind_Some.
    replace (slice (FHB ++ IHB ++ P) 70 (70 + W * 4 * H)) with (Some P).
    2: { replace 70 with (Z.of_nat (length (FHB ++ IHB))) by (rewrite length_app; lia).
         replace (W * 4 * H) with (Z.of_nat (length P)) by (rewrite HPl, Hl; unfold W, H; lia).
         pose proof (slice_middle (FHB ++ IHB) P []) as HM.
         rewrite app_nil_r, <- app_assoc in HM. rewrite HM. reflexivity. }
    rewrite bind_Some, IP, bind_Some. do 3 f_equal.
    rewrite <- (map_id pixels) at 2. apply map_ext. intros p. reflexivity.
Qed.

Lemma create_headers_layout (w h b : Z) (c : CompressionType) fh ih :
  create_headers w h b c = Some (fh, ih) ->
  ih.(bits_per_pixel) = b /\
    fh.(pixel_array_offset) = 14 + ih.(info_header_size) /\
    length (info_header_into_data ih []) = Z.to_nat ih.(info_header_size).
Proof.
  unfold create_headers, info_header_new.
  destruct (u32_mul (as_u32 w) b) as [r1|]; [|discriminate]. rewrite bind_Some.
  cbv beta iota zeta. destruct (u32_add r1 (pad_to_align r1 8)) as [r2|]; [|discriminate]. rewrite bind_Some.
  cbv beta iota zeta. destruct (u32_add (r2 / 8) (pad_to_align (r2 / 8) 4)) as [r3|]; [|discriminate]. rewrite bind_Some.
  cbv beta iota zeta. destruct (u32_mul r3 (as_u32 h)) as [r4|]; [|discriminate]. rewrite bind_Some.
  cbv beta iota zeta. rewrite bind_Some. cbv beta iota zeta. cbn [info_header_size image_size].
  match goal with |- context [u32_add FILE_HEADER_SIZE ?s] =>
    destruct (u32_add FILE_HEADER_SIZE s) as [po|] eqn:Epo; [|discriminate] end.
  rewrite bind_Some.
  cbv beta iota zeta. destruct (u32_add po r4) as [fs|]; [|discriminate]. rewrite bind_Some.
  intros Eq. injection Eq as <- <-. cbn [bits_per_pixel pixel_array_offset file_header_new].
  unfold u32_add, FILE_HEADER_SIZE in Epo.
  destruct c; cbn in Epo; injection Epo as <-; repeat split; reflexivity.
Qed.

Lemma palette_into_data_length (palette : BitmapPalette) (result : list Z) :
  length (palette_into_data palette result) = (length result + 4 * length palette)%nat.
Proof.
  unfold palette_into_data. revert result.
  induction palette as [|p ps IH]; intros result; cbn [foldl length].
  - lia.
  - rewrite IH, length_app. cbn [length]. lia.
Qed.

(** X15: [Bitmap::into_data] panics on a 1-, 4- or 8-bit bitmap whose headers
    come from [Bitmap::create_headers] unless its palette is present and
    empty: those headers leave no room for palette entries. *)
Theorem into_data_palette_no_room (w h b : Z) (c : CompressionType) fh ih
    (pal : option BitmapPalette) (data : list BitmapPixel) :
  create_headers w h b c = Some (fh, ih) -> (b = 1 \/ b = 4 \/ b = 8) ->
  pal <> Some [] ->
  bitmap_into_data (mkBitmap fh ih pal data) = None.
Proof.
  intros Ec Hb Hpal. destruct (create_headers_layout w h b c fh ih Ec) as (Ebpp & Epo & Elen).
  unfold bitmap_into_data. cbn [file_header info_header palette image_data].
  rewrite Ebpp.
  replace ((b =? 1) || (b =? 4) || (b =? 8)) with true
    by (destruct Hb as [-> | [-> | ->]]; reflexivity).
  destruct pal as [[|p ps]|]; [exfalso; apply Hpal; reflexivity| |reflexivity].
  rewrite !bind_Some. cbv beta iota zeta.
  rewrite palette_into_data_length, info_header_into_data_app, length_app, Elen.
  assert (Hf : length (file_header_into_data fh []) = 14%nat) by reflexivity.
  rewrite Hf, Epo. cbn [length].
  destruct (Z.leb_spec (Z.of_nat (14 + Z.to_nat (info_header_size ih) + 4 * S (length ps)))
              (14 + info_header_size ih)); [lia | reflexivity].
Qed.

(** X1: reading back the code that a compression type is written as gives
    that compression type, for every variant. *)
Theorem compression_round_trip (c : CompressionType) :
  compression_from_u32 (compression_code c) = c.
Proof. destruct c; reflexivity. Qed.

(** X2: [BitmapFileHeader::from_data] reads back the 14 bytes that
    [BitmapFileHeader::into_data] writes, whatever follows them, when every
    field is in the range of its unsigned type. *)
Theorem file_header_round_trip (fh : BitmapFileHeader) (rest : list Z) :
  0 <= fh.(magic_number) < 2 ^ 16 -> 0 <= fh.(file_size) < 2 ^ 32 ->
  0 <= fh.(reserved1) < 2 ^ 16 -> 0 <= fh.(reserved2) < 2 ^ 16 ->
  0 <= fh.(pixel_array_offset) < 2 ^ 32 ->
  file_header_from_data (file_header_into_data fh [] ++ rest) = Some fh.
Proof. apply file_header_decode_encode. Qed.


(** X4: [rgba_u32] unpacks [0xRRGGBBAA] into red, green, blue and alpha;
    [rgb_u32] unpacks the same word with alpha forced to [0xff]. *)
Theorem rgba_u32_rgb_u32_unpack (r g b a : Z) :
  is_byte r -> is_byte g -> is_byte b -> is_byte a ->
  rgba_u32 (r * 2 ^ 24 + g * 2 ^ 16 + b * 2 ^ 8 + a) = rgba r g b a /\
    rgb_u32 (r * 2 ^ 24 + g * 2 ^ 16 + b * 2 ^ 8 + a) = rgba r g b 255.
Proof.
  intros Hr Hg Hb Ha. rewrite rgb_u32_alpha, rgba_u32_unpack by assumption.
  split; reflexivity.
Qed.

(** ** Instances of the properties above on concrete bitmaps *)

Lemma file_header_round_trip_witness :
  file_header_from_data (file_header_into_data (file_header_new 94 70) [] ++ [1; 2])
  = Some (file_header_new 94 70).
Proof.
  apply file_header_round_trip; unfold file_header_new, BMP_MAGIC_NUMBER; cbn; lia.
Defined.


Lemma rgba_u32_rgb_u32_unpack_witness :
  rgba_u32 (18 * 2 ^ 24 + 52 * 2 ^ 16 + 86 * 2 ^ 8 + 120) = rgba 18 52 86 120 /\
    rgb_u32 (18 * 2 ^ 24 + 52 * 2 ^ 16 + 86 * 2 ^ 8 + 120) = rgba 18 52 86 255.
Proof. apply rgba_u32_rgb_u32_unpack; unfold is_byte; lia. Defined.

Lemma mirror_horizontally_spec_witness :
  exists l',
    mirror_horizontally (sample_bitmap 3 2 false sample_pixels)
    = Some (sample_bitmap 3 2 false l') /\
    l' !! 0%nat = Some (rgb 3 3 3) /\ l' !! 5%nat = Some (rgb 4 4 4).
Proof.
  destruct (mirror_horizontally_spec (sample_bitmap 3 2 false sample_pixels))
    as (l' & E & _ & Hl); [cbn; lia | cbn; lia | reflexivity |].
  exists l'. split; [exact E|].
  split; [exact (Hl 0%nat 0%nat ltac:(cbn; lia) ltac:(cbn; lia))
         |exact (Hl 1%nat 2%nat ltac:(cbn; lia) ltac:(cbn; lia))].
Defined.

Lemma mirror_horizontally_involutive_witness :
  (bm' ← mirror_horizontally (sample_bitmap 3 2 false sample_pixels);
   mirror_horizontally bm') = Some (sample_bitmap 3 2 false sample_pixels).
Proof.
  apply mirror_horizontally_involutive; [cbn; lia | cbn; lia | reflexivity].
Defined.

Lemma mirror_horizontally_short_data_witness :
  mirror_horizontally (sample_bitmap 3 2 false (take 5 sample_pixels)) = None.
Proof.
  apply mirror_horizontally_short_data; cbn; lia.
Defined.

Lemma merge_horizontally_spec_witness :
  exists result,
    merge_horizontally (sample_bitmap 2 1 false [rgb 1 1 1; rgb 2 2 2])
      (sample_bitmap 1 2 false [rgb 3 3 3; rgb 4 4 4]) = Some result /\
    result.(image_data) !! 2%nat = Some (rgb 3 3 3) /\
    result.(image_data) !! 3%nat = Some transparent /\
    result.(image_data) !! 5%nat = Some (rgb 4 4 4).
Proof.
  destruct (merge_horizontally_spec (sample_bitmap 2 1 false [rgb 1 1 1; rgb 2 2 2])
              (sample_bitmap 1 2 false [rgb 3 3 3; rgb 4 4 4]) 2 1 1 2)
    as (r & E & _ & _ & _ & Hp); try reflexivity; try (cbn; lia).
  exists r. split; [exact E|].
  split; [exact (Hp 2%nat 0%nat ltac:(lia) ltac:(lia))|].
  split; [exact (Hp 0%nat 1%nat ltac:(lia) ltac:(lia))
         |exact (Hp 2%nat 1%nat ltac:(lia) ltac:(lia))].
Defined.

Lemma merge_vertically_spec_witness :
  exists result,
    merge_vertically (sample_bitmap 2 1 false [rgb 1 1 1; rgb 2 2 2])
      (sample_bitmap 1 2 false [rgb 3 3 3; rgb 4 4 4]) = Some result /\
    result.(image_data) !! 2%nat = Some (rgb 3 3 3) /\
    result.(image_data) !! 3%nat = Some transparent.
Proof.
  destruct (merge_vertically_spec (sample_bitmap 2 1 false [rgb 1 1 1; rgb 2 2 2])
              (sample_bitmap 1 2 false [rgb 3 3 3; rgb 4 4 4]) 2 1 1 2)
    as (r & E & _ & _ & _ & Hp); try reflexivity; try (cbn; lia).
  exists r. split; [exact E|].
  split; [exact (Hp 0%nat 1%nat ltac:(lia) ltac:(lia))
         |exact (Hp 1%nat 1%nat ltac:(lia) ltac:(lia))].
Defined.



Lemma bitmap_into_data_round_trip_witness :
  exists bm0,
    lazy_new_default 2 1 = Some bm0 /\
    exists data,
      bitmap_into_data (mkBitmap bm0.(file_header) bm0.(info_header) bm0.(palette)
                          [rgba 1 2 3 4; rgba 5 6 7 8]) = Some data /\
    bitmap_from_data data
      = Some (inr (mkBitmap bm0.(file_header) bm0.(info_header) bm0.(palette)
                     [rgba 1 2 3 4; rgba 5 6 7 8])).
Proof.
  destruct (lazy_new_default 2 1) as [bm0|] eqn:Eb; [|vm_compute in Eb; discriminate].
  exists bm0. split; [reflexivity|].
  apply (bitmap_into_data_round_trip 2 1); [lia | lia | lia | exact Eb | reflexivity |].
  repeat (apply List.Forall_cons; [unfold pixel_wf, is_byte; cbn; lia|]). apply List.Forall_nil.
Defined.

Lemma into_data_palette_no_room_witness :
  exists fh ih,
    create_headers 2 2 8 Uncompressed = Some (fh, ih) /\
    bitmap_into_data (mkBitmap fh ih (Some [rgb 0 0 0; rgb 255 255 255])
                        [rgb 0 0 0; rgb 0 0 0; rgb 0 0 0; rgb 0 0 0]) = None.
Proof.
  destruct (create_headers 2 2 8 Uncompressed) as [[fh ih]|] eqn:Ec;
    [|vm_compute in Ec; discriminate].
  exists fh, ih. split; [reflexivity|].
  apply (into_data_palette_no_room 2 2 8 Uncompressed fh ih); [exact Ec | right; right; reflexivity |].
  discriminate.
Defined.
